(** * FiftyOne datasets: a shallow embedding of [fiftyone/core/dataset.py]

    The development follows the Python module top-down:

    - [Bson]: the documents the module hands to, and reads from, the
      backing store (ordered field/value documents);
    - [Agg]: the aggregation expressions and pipeline steps the module
      builds as Python dicts, with the store's evaluation of them;
    - the functions of [dataset.py] themselves, under their own names;
    - two helpers of [fiftyone/utils/coco.py]. *)

From Stdlib Require Import List String Ascii ZArith Bool Arith Lia.
From Stdlib Require Import Sorting.Permutation DecimalString.
Import ListNotations.
Open Scope string_scope.

Set Warnings "-register-all".

(** ** Documents *)

Module Bson.

(** A BSON value.  [VMissing] stands for a field path that resolves to
    nothing; it is never stored in a document.  Python's [None] is
    [VNull]. *)
Inductive value : Type :=
| VMissing
| VNull
| VInt (n : Z)
| VStr (s : string)
| VObj (fields : list (string * value))
| VArr (items : list value)
| VOid (n : nat)
| VBool (b : bool).

Definition doc := list (string * value).

(** The store's canonical type order, used when values of different types
    are compared. *)
Definition rank (v : value) : nat :=
  match v with
  | VMissing => 0
  | VNull => 5
  | VInt _ => 10
  | VStr _ => 15
  | VObj _ => 20
  | VArr _ => 25
  | VOid _ => 35
  | VBool _ => 40
  end.

Definition then_cmp (c : comparison) (k : comparison) : comparison :=
  match c with Eq => k | _ => c end.

Fixpoint compare (a b : value) {struct a} : comparison :=
  match a, b with
  | VInt x, VInt y => Z.compare x y
  | VStr x, VStr y => String.compare x y
  | VOid x, VOid y => Nat.compare x y
  | VBool x, VBool y => Bool.compare x y
  | VObj xs, VObj ys =>
      (fix go (xs : list (string * value)) (ys : list (string * value))
         : comparison :=
         match xs, ys with
         | [], [] => Eq
         | [], _ :: _ => Lt
         | _ :: _, [] => Gt
         | (k1, v1) :: xs', (k2, v2) :: ys' =>
             then_cmp (Nat.compare (rank v1) (rank v2))
               (then_cmp (String.compare k1 k2)
                  (then_cmp (compare v1 v2) (go xs' ys')))
         end) xs ys
  | VArr xs, VArr ys =>
      (fix go (xs ys : list value) : comparison :=
         match xs, ys with
         | [], [] => Eq
         | [], _ :: _ => Lt
         | _ :: _, [] => Gt
         | v1 :: xs', v2 :: ys' => then_cmp (compare v1 v2) (go xs' ys')
         end) xs ys
  | _, _ => Nat.compare (rank a) (rank b)
  end.

Definition eqb (a b : value) : bool :=
  match compare a b with Eq => true | _ => false end.

Definition gtb (a b : value) : bool :=
  match compare a b with Gt => true | _ => false end.

(** Truth value of an expression result: [false], [null], a missing field
    and [0] are false, everything else is true. *)
Definition truthy (v : value) : bool :=
  match v with
  | VMissing | VNull | VBool false => false
  | VInt n => negb (Z.eqb n 0)
  | _ => true
  end.

Definition is_nullish (v : value) : bool :=
  match v with VMissing | VNull => true | _ => false end.

Definition null_if_missing (v : value) : value :=
  match v with VMissing => VNull | _ => v end.

(** *** Ordered field maps (Python dicts, store documents) *)

Fixpoint get {A : Type} (k : string) (d : list (string * A)) : option A :=
  match d with
  | [] => None
  | (k', v) :: d' => if String.eqb k k' then Some v else get k d'
  end.

Definition has {A : Type} (k : string) (d : list (string * A)) : bool :=
  match get k d with Some _ => true | None => false end.

(** [d[k] = v]: an existing key keeps its position, a new key goes last. *)
Fixpoint set {A : Type} (k : string) (v : A) (d : list (string * A))
  : list (string * A) :=
  match d with
  | [] => [(k, v)]
  | (k', v') :: d' =>
      if String.eqb k k' then (k, v) :: d' else (k', v') :: set k v d'
  end.

Definition remove {A : Type} (k : string) (d : list (string * A))
  : list (string * A) :=
  filter (fun kv => negb (String.eqb k (fst kv))) d.

Definition keys {A : Type} (d : list (string * A)) : list string :=
  map fst d.

(** [d.update(d')] *)
Definition update {A : Type} (d d' : list (string * A))
  : list (string * A) :=
  fold_left (fun acc kv => set (fst kv) (snd kv) acc) d' d.

Definition field (k : string) (v : value) : value :=
  match v with
  | VObj kvs => match get k kvs with Some x => x | None => VMissing end
  | _ => VMissing
  end.

Definition drop_missing (vs : list value) : list value :=
  filter (fun v => match v with VMissing => false | _ => true end) vs.

(** One step of a dotted field path: into an embedded document, or into
    every document of an array. *)
Definition step (v : value) (k : string) : value :=
  match v with
  | VObj _ => field k v
  | VArr xs => VArr (drop_missing (map (field k) xs))
  | _ => VMissing
  end.

Definition get_path (path : list string) (v : value) : value :=
  fold_left step path v.

(** Membership of a string in a Python list or set of strings. *)
Definition mem (s : string) (l : list string) : bool :=
  existsb (String.eqb s) l.

End Bson.

(** Python's [str.split(sep)] for a one-character separator. *)
Fixpoint split (sep : ascii) (s : string) : list string :=
  match s with
  | EmptyString => [EmptyString]
  | String a rest =>
      if Ascii.eqb a sep then EmptyString :: split sep rest
      else match split sep rest with
           | h :: t => String a h :: t
           | [] => [String a EmptyString]
           end
  end.

(** ** Aggregation expressions and pipeline steps

    [dataset.py] builds these as nested Python dicts whose single key is the
    operator name; each constructor below is one such operator, with the
    argument names the module uses. *)

Module Agg.
Import Bson.

Inductive expr : Type :=
| EStr (s : string)        (* a Python str: "$path", "$$var.path" or a literal *)
| ENone                    (* None *)
| EList (es : list expr)   (* a Python list: an array literal *)
| EDict (kvs : list (string * expr))   (* a dict that is no operator *)
| ENot (e : expr)
| EGt (a b : expr)
| ENe (a b : expr)
| EEq (a b : expr)
| EIn (a b : expr)
| EAnd (es : list expr)
| EMap (input : expr) (as_ : string) (in_ : expr)
| EFilter (input : expr) (as_ : string) (cond : expr)
| EReduce (input : expr) (initialValue : expr) (in_ : expr)
| EReverseArray (e : expr)
| EConcatArrays (es : list expr)
| ECond (if_ then_ else_ : expr)
| ESwitch (branches : list (expr * expr)) (default : expr)
| ELet (vars : list (string * expr)) (in_ : expr)
| EMergeObjects (es : list expr)
| EObjectToArray (e : expr)
| EArrayToObject (e : expr).

(** The evaluation context: the document the step is applied to
    ([$$ROOT], also the target of a bare ["$path"]) and the variables in
    scope. *)
Record env : Type := mkEnv { root : value; vars : list (string * value) }.

Definition bind_var (x : string) (v : value) (rho : env) : env :=
  mkEnv (root rho) ((x, v) :: vars rho).

Definition lookup_var (rho : env) (x : string) : option value :=
  if String.eqb x "ROOT" then Some (root rho)
  else if String.eqb x "CURRENT" then Some (root rho)
  else get x (vars rho).

(** A string in expression position. *)
Definition eval_str (rho : env) (s : string) : option value :=
  match s with
  | String "$" (String "$" rest) =>
      match split "." rest with
      | x :: path =>
          match lookup_var rho x with
          | Some v => Some (get_path path v)
          | None => None
          end
      | [] => None
      end
  | String "$" rest => Some (get_path (split "." rest) (root rho))
  | _ => Some (VStr s)
  end.

(** [$mergeObjects] on two documents: a later field overrides, an earlier
    field keeps its place. *)
Definition merge_objects (a b : doc) : doc := update a b.

Definition kv_pair (kv : string * value) : value :=
  VObj [("k", VStr (fst kv)); ("v", snd kv)].

Definition pair_kv (v : value) : option (string * value) :=
  match v with
  | VObj _ =>
      match field "k" v, field "v" v with
      | VStr k, VMissing => None
      | VStr k, x => Some (k, x)
      | _, _ => None
      end
  | VArr [VStr k; x] => Some (k, x)
  | _ => None
  end.

Fixpoint array_to_object (vs : list value) (acc : doc) : option doc :=
  match vs with
  | [] => Some acc
  | v :: vs' =>
      match pair_kv v with
      | Some (k, x) => array_to_object vs' (set k x acc)
      | None => None
      end
  end.

(** Evaluation; [None] is an evaluation error raised by the store. *)
Fixpoint eval (rho : env) (e : expr) {struct e} : option value :=
  match e with
  | EStr s => eval_str rho s
  | ENone => Some VNull
  | EList es =>
      option_map VArr ((fix go (es : list expr) : option (list value) :=
         match es with
         | [] => Some []
         | e1 :: es' =>
             match eval rho e1, go es' with
             | Some v, Some vs => Some (null_if_missing v :: vs)
             | _, _ => None
             end
         end) es)
  | EDict kvs =>
      option_map VObj ((fix go (kvs : list (string * expr)) : option doc :=
         match kvs with
         | [] => Some []
         | (k, e1) :: kvs' =>
             match eval rho e1, go kvs' with
             | Some VMissing, Some d => Some d
             | Some v, Some d => Some ((k, v) :: d)
             | _, _ => None
             end
         end) kvs)
  | ENot e1 => option_map (fun v => VBool (negb (truthy v))) (eval rho e1)
  | EGt a b =>
      match eval rho a, eval rho b with
      | Some x, Some y => Some (VBool (gtb x y))
      | _, _ => None
      end
  | ENe a b =>
      match eval rho a, eval rho b with
      | Some x, Some y => Some (VBool (negb (eqb x y)))
      | _, _ => None
      end
  | EEq a b =>
      match eval rho a, eval rho b with
      | Some x, Some y => Some (VBool (eqb x y))
      | _, _ => None
      end
  | EIn a b =>
      match eval rho a, eval rho b with
      | Some x, Some (VArr ys) => Some (VBool (existsb (eqb x) ys))
      | _, _ => None
      end
  | EAnd es =>
      option_map VBool ((fix go (es : list expr) : option bool :=
         match es with
         | [] => Some true
         | e1 :: es' =>
             match eval rho e1 with
             | Some v => if truthy v then go es' else Some false
             | None => None
             end
         end) es)
  | EMap input x body =>
      match eval rho input with
      | Some (VArr xs) =>
          option_map VArr ((fix go (xs : list value) : option (list value) :=
             match xs with
             | [] => Some []
             | v :: xs' =>
                 match eval (bind_var x v rho) body, go xs' with
                 | Some w, Some ws => Some (null_if_missing w :: ws)
                 | _, _ => None
                 end
             end) xs)
      | Some VNull | Some VMissing => Some VNull
      | _ => None
      end
  | EFilter input x c =>
      match eval rho input with
      | Some (VArr xs) =>
          option_map VArr ((fix go (xs : list value) : option (list value) :=
             match xs with
             | [] => Some []
             | v :: xs' =>
                 match eval (bind_var x v rho) c, go xs' with
                 | Some w, Some ws => Some (if truthy w then v :: ws else ws)
                 | _, _ => None
                 end
             end) xs)
      | Some VNull | Some VMissing => Some VNull
      | _ => None
      end
  | EReduce input init body =>
      match eval rho input with
      | Some (VArr xs) =>
          fold_left
            (fun acc v =>
               match acc with
               | Some a =>
                   eval (bind_var "value" a (bind_var "this" v rho)) body
               | None => None
               end)
            xs (eval rho init)
      | Some VNull | Some VMissing => Some VNull
      | _ => None
      end
  | EReverseArray e1 =>
      match eval rho e1 with
      | Some (VArr xs) => Some (VArr (rev xs))
      | Some VNull | Some VMissing => Some VNull
      | _ => None
      end
  | EConcatArrays es =>
      (fix go (es : list expr) : option value :=
         match es with
         | [] => Some (VArr [])
         | e1 :: es' =>
             match eval rho e1, go es' with
             | Some (VArr xs), Some (VArr ys) => Some (VArr (xs ++ ys))
             | Some (VArr _), Some VNull => Some VNull
             | Some (VNull | VMissing), Some _ => Some VNull
             | _, _ => None
             end
         end) es
  | ECond c t f =>
      match eval rho c with
      | Some v => if truthy v then eval rho t else eval rho f
      | None => None
      end
  | ESwitch branches default =>
      (fix go (bs : list (expr * expr)) : option value :=
         match bs with
         | [] => eval rho default
         | (c, t) :: bs' =>
             match eval rho c with
             | Some v => if truthy v then eval rho t else go bs'
             | None => None
             end
         end) branches
  | ELet vs body =>
      match
        (fix go (vs : list (string * expr)) : option (list (string * value)) :=
           match vs with
           | [] => Some []
           | (x, e1) :: vs' =>
               match eval rho e1, go vs' with
               | Some v, Some r => Some ((x, v) :: r)
               | _, _ => None
               end
           end) vs
      with
      | Some bound => eval (mkEnv (root rho) (bound ++ vars rho)) body
      | None => None
      end
  | EMergeObjects es =>
      option_map VObj ((fix go (es : list expr) (acc : doc) : option doc :=
         match es with
         | [] => Some acc
         | e1 :: es' =>
             match eval rho e1 with
             | Some (VObj d) => go es' (merge_objects acc d)
             | Some VNull | Some VMissing => go es' acc
             | _ => None
             end
         end) es [])
  | EObjectToArray e1 =>
      match eval rho e1 with
      | Some (VObj d) => Some (VArr (map kv_pair d))
      | Some VNull | Some VMissing => Some VNull
      | _ => None
      end
  | EArrayToObject e1 =>
      match eval rho e1 with
      | Some (VArr xs) => option_map VObj (array_to_object xs [])
      | Some VNull | Some VMissing => Some VNull
      | _ => None
      end
  end.

(** *** Pipeline steps *)

Inductive proj : Type :=
| PBool (b : bool)     (* keep / drop the field *)
| PExpr (e : expr).    (* a computed field *)

Inductive stage : Type :=
| Lookup (from : string) (let_ : list (string * expr))
         (pipeline : list stage) (as_ : string)
| MatchExpr (e : expr)                 (* {"$match": {"$expr": e}} *)
| Sort (spec : list (string * Z))
| Project (spec : list (string * proj))
| Unset (fields : list string)
| Unwind (path : string)
| ReplaceRoot (newRoot : expr)
| ReplaceWith (e : expr)
| Skip (n : nat)
| Merge (into : string) (on : list string)
        (whenMatched : string + list stage) (whenNotMatched : string)
| Out (coll : string).

(** An index of a collection, as [index_information()] reports it. *)
Record index : Type :=
  mkIndex { idx_name : string; idx_key : list string; idx_unique : bool }.

(** The store: named collections of documents, their indexes, and the
    counter from which it draws fresh [_id]s. *)
Record database : Type :=
  mkDb {
    colls : list (string * list doc);
    indexes : list (string * list index);
    next_oid : nat
  }.

Definition coll (db : database) (name : string) : list doc :=
  match get name (colls db) with Some ds => ds | None => [] end.

Definition coll_indexes (db : database) (name : string) : list index :=
  match get name (indexes db) with Some ixs => ixs | None => [] end.

Definition index_values (key : list string) (d : doc) : list value :=
  map (fun f => null_if_missing (get_path (split "." f) (VObj d))) key.

Fixpoint values_eqb (xs ys : list value) : bool :=
  match xs, ys with
  | [], [] => true
  | x :: xs', y :: ys' => eqb x y && values_eqb xs' ys'
  | _, _ => false
  end.

Fixpoint distinct_keys (ks : list (list value)) : bool :=
  match ks with
  | [] => true
  | k :: ks' => negb (existsb (values_eqb k) ks') && distinct_keys ks'
  end.

(** No two documents agree on the key of a unique index; [_id] is always
    unique. *)
Definition unique_ok (ixs : list index) (ds : list doc) : bool :=
  forallb
    (fun key => distinct_keys (map (index_values key) ds))
    (["_id"] :: map idx_key (filter idx_unique ixs)).

(** Replace the content of a collection; refused when it breaks a unique
    index. *)
Definition write_coll (name : string) (ds : list doc) (db : database)
  : option database :=
  if unique_ok (coll_indexes db name) ds
  then Some (mkDb (set name ds (colls db)) (indexes db) (next_oid db))
  else None.

(** Writing a document that has no [_id] gives it a fresh one, in front. *)
Definition gen_id (db : database) (d : doc) : database * doc :=
  if has "_id" d then (db, d)
  else (mkDb (colls db) (indexes db) (S (next_oid db)),
        ("_id", VOid (next_oid db)) :: d).

Fixpoint gen_ids (db : database) (ds : list doc) : database * list doc :=
  match ds with
  | [] => (db, [])
  | d :: ds' =>
      let '(db1, d1) := gen_id db d in
      let '(db2, ds2) := gen_ids db1 ds' in
      (db2, d1 :: ds2)
  end.

Definition sort_cmp (spec : list (string * Z)) (a b : doc) : comparison :=
  fold_right
    (fun (kd : string * Z) rest =>
       let x := null_if_missing (get_path (split "." (fst kd)) (VObj a)) in
       let y := null_if_missing (get_path (split "." (fst kd)) (VObj b)) in
       then_cmp (if Z.ltb (snd kd) 0 then compare y x else compare x y) rest)
    Eq spec.

Fixpoint insert_sorted (spec : list (string * Z)) (d : doc) (l : list doc)
  : list doc :=
  match l with
  | [] => [d]
  | d' :: l' =>
      match sort_cmp spec d d' with
      | Gt => d' :: insert_sorted spec d l'
      | _ => d :: l
      end
  end.

Definition sort_docs (spec : list (string * Z)) (l : list doc) : list doc :=
  fold_right (insert_sorted spec) [] l.

Definition is_exclusion (spec : list (string * proj)) : bool :=
  forallb (fun kp => match snd kp with PBool false => true | _ => false end)
    spec.

(** [$project]: an exclusion drops the named fields; an inclusion keeps
    [_id] and the named fields in document order, then sets the computed
    fields in the order they are given. *)
Definition project_doc (rho : list (string * value))
    (spec : list (string * proj)) (d : doc) : option doc :=
  if is_exclusion spec then
    Some (filter (fun kv => negb (has (fst kv) spec)) d)
  else
    let keep (kv : string * value) :=
      match get (fst kv) spec with
      | Some (PBool b) => b
      | Some (PExpr _) => false
      | None => String.eqb (fst kv) "_id"
      end in
    fold_left
      (fun acc kp =>
         match acc, snd kp with
         | Some a, PExpr e =>
             match eval (mkEnv (VObj d) rho) e with
             | Some VMissing => Some a
             | Some v => Some (set (fst kp) v a)
             | None => None
             end
         | _, _ => acc
         end)
      spec (Some (filter keep d)).

Definition unwind_doc (path : string) (d : doc) : list doc :=
  match path with
  | String "$" f =>
      match field f (VObj d) with
      | VArr xs => map (fun x => set f x d) xs
      | VMissing | VNull => []
      | _ => [d]
      end
  | _ => []
  end.

Definition as_doc (v : option value) : option doc :=
  match v with Some (VObj d) => Some d | _ => None end.

Fixpoint map_opt {A B : Type} (f : A -> option B) (l : list A)
  : option (list B) :=
  match l with
  | [] => Some []
  | a :: l' =>
      match f a, map_opt f l' with
      | Some b, Some bs => Some (b :: bs)
      | _, _ => None
      end
  end.

Definition on_values (on : list string) (d : doc) : list value :=
  map (fun f => get_path (split "." f) (VObj d)) on.

Definition on_ok (ks : list value) : bool :=
  forallb (fun v => match v with
                    | VMissing | VNull | VArr _ => false
                    | _ => true
                    end) ks.

(** Apply [f] to the first document satisfying [p].  Outer [None]: [f]
    failed; inner [None]: no document satisfies [p]. *)
Fixpoint update_first (p : doc -> bool) (f : doc -> option doc)
    (l : list doc) : option (option (list doc)) :=
  match l with
  | [] => Some None
  | t :: l' =>
      if p t then option_map (fun t' => Some (t' :: l')) (f t)
      else option_map (option_map (cons t)) (update_first p f l')
  end.

(** Is there a unique index on exactly the fields [on]?  ([_id] always
    has one.) *)
Definition has_unique_index (db : database) (name : string)
    (on : list string) : bool :=
  match on with
  | ["_id"] => true
  | _ =>
      existsb
        (fun i => idx_unique i
                  && (List.length (idx_key i) =? List.length on)%nat
                  && forallb (fun f => mem f (idx_key i)) on)
        (coll_indexes db name)
  end.

(** [$merge] of one incoming document.  [wm new existing] is the
    [whenMatched] action; the result must keep the [_id] of the existing
    document.  [None] is a write error; the store is then left as it
    was before this document. *)
Definition merge_one (wm : doc -> doc -> option doc) (wnm : string)
    (into : string) (on : list string) (db : database) (incoming : doc)
  : option database :=
  let '(db1, d) := if mem "_id" on then gen_id db incoming
                   else (db, incoming) in
  let ks := on_values on d in
  if negb (on_ok ks) then None
  else
    let same_id (t t' : doc) :=
      if eqb (field "_id" (VObj t')) (field "_id" (VObj t)) then Some t'
      else None in
    match
      update_first (fun t => values_eqb (on_values on t) ks)
        (fun t => match wm d t with
                  | Some t' => same_id t t'
                  | None => None
                  end)
        (coll db1 into)
    with
    | None => None
    | Some (Some target') => write_coll into target' db1
    | Some None =>
        if String.eqb wnm "insert" then
          let '(db2, d2) := gen_id db1 d in
          write_coll into (coll db2 into ++ [d2])%list db2
        else if String.eqb wnm "discard" then Some db1
        else None
    end.

(** The incoming documents are merged one after the other; a write error
    stops the step and keeps what was written before it. *)
Fixpoint merge_all (wm : doc -> doc -> option doc) (wnm : string)
    (into : string) (on : list string) (db : database) (ds : list doc)
  : bool * database :=
  match ds with
  | [] => (true, db)
  | d :: ds' =>
      match merge_one wm wnm into on db d with
      | Some db' => merge_all wm wnm into on db' ds'
      | None => (false, db)
      end
  end.

Fixpoint eval_lets (rho : env) (lets : list (string * expr))
  : option (list (string * value)) :=
  match lets with
  | [] => Some []
  | (x, e) :: lets' =>
      match eval rho e, eval_lets rho lets' with
      | Some v, Some r => Some ((x, v) :: r)
      | _, _ => None
      end
  end.

Definition ended (r : bool * database) : option (list doc) * database :=
  ((if fst r then Some [] else None), snd r).

(** One step applied to the stream of documents [ds], with the variables
    [rho] in scope.  The first component is the stream that results, or
    [None] when the store raises an error; [$merge] and [$out] write to the
    store and end the stream. *)
Fixpoint run_stage (db : database) (rho : list (string * value))
    (s : stage) (ds : list doc) {struct s}
  : option (list doc) * database :=
  match s with
  | Lookup from lets sub as_ =>
      let run_sub :=
        (fix go (p : list stage) (rho' : list (string * value))
             (xs : list doc) : option (list doc) :=
           match p with
           | [] => Some xs
           | s1 :: p' =>
               match fst (run_stage db rho' s1 xs) with
               | Some xs' => go p' rho' xs'
               | None => None
               end
           end) sub in
      (map_opt
         (fun d =>
            match eval_lets (mkEnv (VObj d) rho) lets with
            | Some bound =>
                option_map (fun rs => set as_ (VArr (map VObj rs)) d)
                  (run_sub (bound ++ rho)%list (coll db from))
            | None => None
            end)
         ds, db)
  | MatchExpr e =>
      (fold_right
         (fun d acc =>
            match eval (mkEnv (VObj d) rho) e, acc with
            | Some v, Some r => Some (if truthy v then d :: r else r)
            | _, _ => None
            end)
         (Some []) ds, db)
  | Sort spec => (Some (sort_docs spec ds), db)
  | Project spec => (map_opt (project_doc rho spec) ds, db)
  | Unset fields =>
      (Some (map (filter (fun kv => negb (mem (fst kv) fields))) ds), db)
  | Unwind path => (Some (flat_map (unwind_doc path) ds), db)
  | ReplaceRoot e | ReplaceWith e =>
      (map_opt (fun d => as_doc (eval (mkEnv (VObj d) rho) e)) ds, db)
  | Skip n => (Some (skipn n ds), db)
  | Merge into on wm wnm =>
      if negb (has_unique_index db into on) then (None, db)
      else
        match wm with
        | inl a =>
            if String.eqb a "keepExisting" then
              ended (merge_all (fun _ t => Some t) wnm into on db ds)
            else (None, db)
        | inr sub =>
            let run_sub :=
              (fix go (p : list stage) (rho' : list (string * value))
                   (xs : list doc) : option (list doc) :=
                 match p with
                 | [] => Some xs
                 | s1 :: p' =>
                     match fst (run_stage db rho' s1 xs) with
                     | Some xs' => go p' rho' xs'
                     | None => None
                     end
                 end) sub in
            ended
              (merge_all
                 (fun new t =>
                    match run_sub (("new", VObj new) :: rho) [t] with
                    | Some [t'] => Some t'
                    | _ => None
                    end)
                 wnm into on db ds)
        end
  | Out name =>
      let '(db1, ds1) := gen_ids db ds in
      match write_coll name ds1 db1 with
      | Some db2 => (Some [], db2)
      | None => (None, db)
      end
  end.

Fixpoint run_pipeline (db : database) (p : list stage) (ds : list doc)
  : option (list doc) * database :=
  match p with
  | [] => (Some ds, db)
  | s :: p' =>
      match run_stage db [] s ds with
      | (Some ds', db') => run_pipeline db' p' ds'
      | (None, db') => (None, db')
      end
  end.

(** [foo.aggregate(collection, pipeline)] on the store. *)
Definition aggregate (db : database) (name : string) (p : list stage)
  : option (list doc) * database :=
  run_pipeline db p (coll db name).

End Agg.

Import Bson Agg.

(** ** The collaborators of [dataset.py] *)

(** Modelled from the spec: the media-type constants of
    [fiftyone.core.media] ("image, video, or unset"); the module itself is
    not part of the sources at hand. *)
Module fom.
Definition IMAGE : string := "image".
Definition VIDEO : string := "video".
Definition MEDIA_TYPES : list string := [IMAGE; VIDEO].
End fom.

(** Field descriptors ([fiftyone.core.fields]), as far as [dataset.py]
    inspects them: whether a field is a [ListField], or an
    [EmbeddedDocumentField] and of which document class. *)
Module fof.

(** A document class; the label-list classes of
    [fol._LABEL_LIST_FIELDS] carry the name of their list attribute in
    [_LABEL_LIST_FIELD]. *)
Record doc_class : Type :=
  mkClass { cls_name : string; _LABEL_LIST_FIELD : option string }.

Inductive Field : Type :=
| ListField (subfield : option string)
| EmbeddedDocumentField (document_type : doc_class)
| ScalarField (ftype : string).

End fof.

(** The Python exceptions that occur. *)
Inductive exn : Type :=
| ValueError (msg : string)
| KeyError (key : value)
| AttributeError (msg : string)
| MediaTypeError (msg : string)
| ValidationError (msg : string)
| CursorNotFound
| RecursionError
| OperationFailure (msg : string).   (* an error answered by the store *)

Inductive outcome (A : Type) : Type :=
| Ok (a : A)
| Raise (e : exn).
Arguments Ok {A} a.
Arguments Raise {A} e.

Definition bind_outcome {A B : Type} (m : outcome A) (k : A -> outcome B)
  : outcome B :=
  match m with
  | Ok a => k a
  | Raise e => Raise e
  end.

(** A document class generated for one collection: its collection name
    ([_meta["collection"]]) and its declared fields, in order. *)
Record DocCls : Type :=
  mkCls { collection : string; _fields : list (string * fof.Field) }.

Module foo.

(** [foo.SampleFieldDocument] *)
Record SampleFieldDocument : Type :=
  mkSampleField {
    sf_name : string;
    sf_ftype : string;
    sf_subfield : option string;
    sf_embedded_doc_type : option string
  }.

(** [foo.DatasetDocument], the persisted description of a dataset. *)
Record DatasetDocument : Type :=
  mkDatasetDocument {
    id : option nat;        (* the primary key, set by the first [save()] *)
    name : string;
    media_type : option string;
    sample_collection_name : string;
    persistent : bool;
    sample_fields : list SampleFieldDocument;
    frame_fields : list SampleFieldDocument;
    evaluations : list (string * value);
    brain_methods : list (string * value);
    version : string
  }.

End foo.

(** ** The world a dataset lives in

    The store, the persisted dataset documents, the requests made to the
    store so far, the clock, and the moments at which the cursors still to
    be opened will expire on the server. *)

Inductive call : Type :=
| CallAggregate (collection : string) (pipeline : list stage)
| CallFindOne (collection : string) (query : doc)
| CallInsertMany (collection : string) (docs : list doc)
| CallBulkWrite (collection : string)
| CallUpdateMany (collection : string)
| CallDistinct (collection field : string)
| CallCount (collection : string)
| CallDrop (collection : string)
| CallIndexInformation (collection : string)
| CallCreateIndex (collection : string) (key : list string) (unique : bool)
| CallDropIndex (collection index_name : string)
| CallListCollectionNames
| CallDatasetGet (dataset : string)
| CallDatasetSave (dataset : string)
| CallDatasetDelete (dataset : string)
| CallDatasetReload (dataset : string).

Record world : Type :=
  mkWorld {
    db : database;
    dataset_docs : list foo.DatasetDocument;
    trace : list call;
    now : string * string;   (* %Y.%m.%d.%H.%M.%S and the same with .%f *)
    expiries : list nat      (* the n-th cursor expires after that many
                                documents, if it has not ended before *)
  }.

Definition with_db (d : database) (w : world) : world :=
  mkWorld d (dataset_docs w) (trace w) (now w) (expiries w).

Definition with_dataset_docs (ds : list foo.DatasetDocument) (w : world)
  : world :=
  mkWorld (db w) ds (trace w) (now w) (expiries w).

(** Computations that act on the world and may raise. *)
Definition M (A : Type) : Type := world -> outcome A * world.

Definition ret {A : Type} (a : A) : M A := fun w => (Ok a, w).

Definition raise {A : Type} (e : exn) : M A := fun w => (Raise e, w).

Definition bind {A B : Type} (m : M A) (k : A -> M B) : M B :=
  fun w =>
    match m w with
    | (Ok a, w') => k a w'
    | (Raise e, w') => (Raise e, w')
    end.

Definition lift {A : Type} (o : outcome A) : M A := fun w => (o, w).

Declare Scope monad_scope.
Delimit Scope monad_scope with monad.
Notation "x <- m ;; k" := (bind m (fun x => k))
  (at level 61, m at next level, right associativity) : monad_scope.
Notation "' p <- m ;; k" := (bind m (fun x => let p := x in k))
  (at level 61, p pattern, m at next level, right associativity)
  : monad_scope.
Notation "m ;;; k" := (bind m (fun _ => k))
  (at level 61, right associativity) : monad_scope.
Open Scope monad_scope.

Definition log (c : call) : M unit :=
  fun w =>
    (Ok tt,
     mkWorld (db w) (dataset_docs w) (trace w ++ [c])%list (now w)
       (expiries w)).

Fixpoint for_each {A : Type} (l : list A) (body : A -> M unit) : M unit :=
  match l with
  | [] => ret tt
  | a :: l' => body a ;;; for_each l' body
  end.

(** *** Requests to the store *)

(** [foo.aggregate(collection, pipeline)], read to the end. *)
Definition aggregate_all (collection : string) (pipeline : list stage)
  : M (list doc) :=
  log (CallAggregate collection pipeline) ;;;
  fun w =>
    match aggregate (db w) collection pipeline with
    | (Some ds, d') => (Ok ds, with_db d' w)
    | (None, d') =>
        (Raise (OperationFailure "aggregation failed"), with_db d' w)
    end.

Definition write (collection : string) (ds : list doc) : M unit :=
  fun w =>
    match write_coll collection ds (db w) with
    | Some d' => (Ok tt, with_db d' w)
    | None => (Raise (OperationFailure "duplicate key error"), w)
    end.

Definition read (collection : string) : M (list doc) :=
  fun w => (Ok (coll (db w) collection), w).

Definition fresh_ids (ds : list doc) : M (list doc) :=
  fun w => let '(d', ds') := gen_ids (db w) ds in (Ok ds', with_db d' w).

(** [collection.insert_many(dicts)]: each dict receives its [_id]. *)
Definition insert_many (collection : string) (dicts : list doc)
  : M (list doc) :=
  log (CallInsertMany collection dicts) ;;;
  dicts' <- fresh_ids dicts ;;
  old <- read collection ;;
  write collection (old ++ dicts')%list ;;;
  ret dicts'.

Definition matches (query : doc) (d : doc) : bool :=
  forallb
    (fun kv =>
       eqb (null_if_missing (get_path (split "." (fst kv)) (VObj d)))
         (snd kv))
    query.

(** [collection.find_one(query)] for an equality query. *)
Definition find_one (collection : string) (query : doc)
  : M (option doc) :=
  log (CallFindOne collection query) ;;;
  ds <- read collection ;;
  ret (find (matches query) ds).

(** [collection.update_many(filter, {"$set": fields})] *)
Definition update_many_set (collection : string) (query fields : doc)
  : M unit :=
  log (CallUpdateMany collection) ;;;
  ds <- read collection ;;
  write collection
    (map (fun d => if matches query d then update d fields else d) ds).

(** [collection.update_many({}, {"$unset": ...})]: the field is removed
    from every document. *)
Definition update_many_unset (collection : string) (field : string)
  : M unit :=
  log (CallUpdateMany collection) ;;;
  ds <- read collection ;;
  write collection (map (remove field) ds).

Fixpoint dedup (vs : list value) : list value :=
  match vs with
  | [] => []
  | v :: vs' => v :: filter (fun x => negb (eqb v x)) (dedup vs')
  end.

(** [collection.distinct(field)] *)
Definition distinct (collection field : string) : M (list value) :=
  log (CallDistinct collection field) ;;;
  ds <- read collection ;;
  ret (dedup (drop_missing
                (map (fun d => get_path (split "." field) (VObj d)) ds))).

Definition count_documents (collection : string) : M nat :=
  log (CallCount collection) ;;;
  ds <- read collection ;;
  ret (List.length ds).

(** [collection.drop()]: the documents and the indexes go. *)
Definition drop (collection : string) : M unit :=
  log (CallDrop collection) ;;;
  fun w =>
    (Ok tt,
     with_db (mkDb (remove collection (colls (db w)))
                (remove collection (indexes (db w)))
                (next_oid (db w))) w).

Definition index_information (collection : string) : M (list index) :=
  log (CallIndexInformation collection) ;;;
  fun w => (Ok (coll_indexes (db w) collection), w).

Definition index_name (key : list string) : string :=
  String.concat "_" (map (fun f => f ++ "_1") key).

(** [collection.create_index(key, unique=unique)]; building a unique index
    fails when two documents share the key.  Only the indexes change: a
    collection without documents is not entered among [colls] by it. *)
Definition create_index (collection : string) (key : list string)
    (unique : bool) : M string :=
  log (CallCreateIndex collection key unique) ;;;
  fun w =>
    let d := db w in
    let ixs := coll_indexes d collection in
    let i := mkIndex (index_name key) key unique in
    if existsb (fun j => String.eqb (idx_name j) (idx_name i)) ixs then
      (Ok (idx_name i), w)
    else if unique_ok (i :: ixs) (coll d collection) then
      (Ok (idx_name i),
       with_db (mkDb (colls d)
                  (set collection (ixs ++ [i])%list (indexes d))
                  (next_oid d)) w)
    else (Raise (OperationFailure "duplicate key error"), w).

(** [collection.drop_index(index_name)] *)
Definition drop_index (collection name : string) : M unit :=
  log (CallDropIndex collection name) ;;;
  fun w =>
    let d := db w in
    let ixs := coll_indexes d collection in
    if existsb (fun j => String.eqb (idx_name j) name) ixs then
      (Ok tt,
       with_db (mkDb (colls d)
                  (set collection
                     (filter (fun j => negb (String.eqb (idx_name j) name))
                        ixs)
                     (indexes d))
                  (next_oid d)) w)
    else (Raise (OperationFailure "index not found"), w).

Definition list_collection_names : M (list string) :=
  log CallListCollectionNames ;;;
  fun w => (Ok (keys (colls (db w))), w).

(** *** The dataset documents ([foo.DatasetDocument.objects]) *)

Definition find_dataset_doc (name : string)
    (ds : list foo.DatasetDocument) : option foo.DatasetDocument :=
  find (fun d => String.eqb (foo.name d) name) ds.

(** [foo.DatasetDocument.objects.get(name=name)]; [None] is
    [DoesNotExist]. *)
Definition get_dataset_doc (name : string)
  : M (option foo.DatasetDocument) :=
  log (CallDatasetGet name) ;;;
  fun w => (Ok (find_dataset_doc name (dataset_docs w)), w).

Definition same_pk (a b : foo.DatasetDocument) : bool :=
  match foo.id a, foo.id b with
  | Some x, Some y => Nat.eqb x y
  | _, _ => false
  end.

Definition with_id (i : nat) (d : foo.DatasetDocument)
  : foo.DatasetDocument :=
  foo.mkDatasetDocument (Some i) (foo.name d) (foo.media_type d)
    (foo.sample_collection_name d) (foo.persistent d) (foo.sample_fields d)
    (foo.frame_fields d) (foo.evaluations d) (foo.brain_methods d)
    (foo.version d).

(** [doc.save()]: a document without primary key is inserted and receives
    one, another is replaced; the name is unique. *)
Definition save (d : foo.DatasetDocument) : M foo.DatasetDocument :=
  log (CallDatasetSave (foo.name d)) ;;;
  fun w =>
    if existsb (fun d' => String.eqb (foo.name d') (foo.name d)
                          && negb (same_pk d' d))
         (dataset_docs w)
    then (Raise (OperationFailure "duplicate key error"), w)
    else
      match foo.id d with
      | Some _ =>
          if existsb (same_pk d) (dataset_docs w) then
            (Ok d,
             with_dataset_docs
               (map (fun d' => if same_pk d' d then d else d')
                  (dataset_docs w)) w)
          else (Ok d, with_dataset_docs (dataset_docs w ++ [d])%list w)
      | None =>
          let d1 := with_id (next_oid (db w)) d in
          (Ok d1,
           mkWorld (mkDb (colls (db w)) (indexes (db w))
                      (S (next_oid (db w))))
             (dataset_docs w ++ [d1])%list (trace w) (now w) (expiries w))
      end.

(** [doc.reload()]: the persisted state of the document. *)
Definition reload_doc (d : foo.DatasetDocument) : M foo.DatasetDocument :=
  log (CallDatasetReload (foo.name d)) ;;;
  fun w =>
    match find (same_pk d) (dataset_docs w) with
    | Some d' => (Ok d', w)
    | None => (Raise (OperationFailure "Document does not exist"), w)
    end.

(** [doc.delete()] *)
Definition delete_doc (d : foo.DatasetDocument) : M unit :=
  log (CallDatasetDelete (foo.name d)) ;;;
  fun w =>
    (Ok tt,
     with_dataset_docs
       (filter (fun d' => negb (same_pk d' d)) (dataset_docs w)) w).

(** ** [class Dataset] *)

Record Dataset : Type :=
  mkDataset {
    _doc : foo.DatasetDocument;
    _sample_doc_cls : DocCls;
    _frame_doc_cls : DocCls;
    _deleted : bool
  }.

Definition media_type (self : Dataset) : option string :=
  foo.media_type (_doc self).

Definition _sample_collection_name (self : Dataset) : string :=
  collection (_sample_doc_cls self).

Definition _frame_collection_name (self : Dataset) : string :=
  "frames." ++ _sample_collection_name self.

Definition is_video (self : Dataset) : bool :=
  match media_type self with
  | Some m => String.eqb m fom.VIDEO
  | None => false
  end.

(** *** [Dataset.__getattribute__]

    Every attribute of a dataset is reached through
    [__getattribute__]; once the dataset is deleted, only the names
    beginning with a double underscore and [name], [deleted], [_deleted],
    [_doc] are served. *)

Definition name (self : Dataset) : string := foo.name (_doc self).

Definition deleted (self : Dataset) : bool := _deleted self.

Definition deleted_error (self : Dataset) : exn :=
  ValueError ("Dataset '" ++ name self ++ "' is deleted").

Definition startswith (prefix s : string) : bool := String.prefix prefix s.

Definition always_available (attr : string) : bool :=
  startswith "__" attr || mem attr ["name"; "deleted"; "_deleted"; "_doc"].

(** What [super().__getattribute__(name)] returns for the attributes set in
    [__init__] and the properties and methods defined in the class. *)
Inductive attribute : Type :=
| AttrStr (s : string)
| AttrBool (b : bool)
| AttrMediaType (m : option string)
| AttrDoc (d : foo.DatasetDocument)
| AttrCls (c : DocCls)
| AttrMethod (method : string).

Definition methods : list string :=
  ["__len__"; "__getitem__"; "__delitem__"; "__getattribute__"; "__init__";
   "summary"; "stats"; "first"; "last"; "head"; "tail"; "view";
   "get_field_schema"; "get_frame_field_schema"; "add_sample_field";
   "add_frame_field"; "rename_sample_field"; "clone_sample_field";
   "clear_sample_field"; "delete_sample_field"; "iter_samples";
   "_iter_samples"; "add_sample"; "add_samples"; "add_collection";
   "_add_samples_batch"; "_upsert_samples_batch"; "_bulk_write";
   "merge_samples"; "delete_samples"; "delete_labels"; "remove_sample";
   "remove_samples"; "save"; "_save"; "clone"; "_clone"; "clear"; "delete";
   "list_indexes"; "create_index"; "drop_index"; "_add_view_stage";
   "_pipeline"; "_aggregate"; "_expand_schema"; "_expand_frame_schema";
   "_validate_media_type"; "_sample_dict_to_doc"; "_frame_dict_to_doc";
   "_validate_samples"; "reload"; "_reload"; "_reload_docs"; "_serialize"].

Definition super_getattribute (self : Dataset) (attr : string)
  : outcome attribute :=
  if String.eqb attr "_doc" then Ok (AttrDoc (_doc self))
  else if String.eqb attr "_deleted" then Ok (AttrBool (_deleted self))
  else if String.eqb attr "_sample_doc_cls"
       then Ok (AttrCls (_sample_doc_cls self))
  else if String.eqb attr "_frame_doc_cls"
       then Ok (AttrCls (_frame_doc_cls self))
  else if String.eqb attr "name" then Ok (AttrStr (name self))
  else if String.eqb attr "deleted" then Ok (AttrBool (deleted self))
  else if String.eqb attr "media_type"
       then Ok (AttrMediaType (media_type self))
  else if String.eqb attr "persistent"
       then Ok (AttrBool (foo.persistent (_doc self)))
  else if String.eqb attr "version"
       then Ok (AttrStr (foo.version (_doc self)))
  else if String.eqb attr "_sample_collection_name"
       then Ok (AttrStr (_sample_collection_name self))
  else if String.eqb attr "_frame_collection_name"
       then Ok (AttrStr (_frame_collection_name self))
  else if mem attr methods then Ok (AttrMethod attr)
  else Raise (AttributeError
                ("'Dataset' object has no attribute '" ++ attr ++ "'")).

Definition __getattribute__ (self : Dataset) (attr : string)
  : outcome attribute :=
  if always_available attr then super_getattribute self attr
  else if _deleted self then Raise (deleted_error self)
  else super_getattribute self attr.

(** [self.x] inside a method, for an attribute [x] that is not always
    available: the value [a] the attribute has, behind the guard of
    [__getattribute__]. *)
Definition via_getattribute {A : Type} (self : Dataset) (a : A)
  : outcome A :=
  if _deleted self then Raise (deleted_error self) else Ok a.

(** [Dataset._pipeline] *)
Definition _pipeline (self : Dataset) (pipeline : option (list stage))
    (attach_frames detach_frames frames_only : bool)
  : outcome (list stage) :=
  bind_outcome (via_getattribute self (media_type self)) (fun media_type =>
  let not_video :=
    match media_type with
    | Some m => negb (String.eqb m fom.VIDEO)
    | None => true
    end in
  let '(attach_frames, detach_frames, frames_only) :=
    if not_video then (false, false, false)
    else (attach_frames, detach_frames, frames_only) in
  let detach_frames := if negb attach_frames then false else detach_frames in
  let attach_frames := if frames_only then true else attach_frames in
  let _pipeline :=
    if attach_frames then
      [Lookup (_frame_collection_name self)
         [("sample_id", EStr "$_id")]
         [MatchExpr (EEq (EStr "$$sample_id") (EStr "$_sample_id"));
          Sort [("frame_number", 1%Z)]]
         "frames"]
    else [] in
  let _pipeline :=
    match pipeline with
    | Some p => (_pipeline ++ p)%list
    | None => _pipeline
    end in
  Ok (if detach_frames then
        (_pipeline ++ [Project [("frames", PBool false)]])%list
      else if frames_only then
        (_pipeline ++ [Project [("frames", PBool true)];
                       Unwind "$frames";
                       ReplaceRoot (EStr "$frames")])%list
      else _pipeline)).

(** [Dataset.get_field_schema] / [get_frame_field_schema]; private fields
    start with an underscore. *)
Definition is_private (f : string) : bool :=
  match f with String "_" _ => true | _ => false end.

Definition get_field_schema (self : Dataset) (include_private : bool)
  : list (string * fof.Field) :=
  filter (fun kf => include_private || negb (is_private (fst kf)))
    (_fields (_sample_doc_cls self)).

Definition get_frame_field_schema (self : Dataset) (include_private : bool)
  : option (list (string * fof.Field)) :=
  if negb (is_video self) then None
  else Some (filter (fun kf => include_private || negb (is_private (fst kf)))
               (_fields (_frame_doc_cls self))).

(** ** Samples

    Modelled from the spec: a record "has an identity assigned on first
    persistence; arbitrary typed fields per schema; for video, owns an
    ordered, keyed-by-frame-number collection of Frame sub-records".
    [fiftyone.core.sample] is not part of the sources at hand; a sample is
    taken with the accessors [dataset.py] calls on it. *)

Record Sample : Type :=
  mkSample {
    sample_fields : list (string * value);  (* in field order; None is null *)
    sample_media_type : string;             (* [sample.media_type] *)
    _in_db : bool;
    frames : list (nat * list (string * value))
  }.

(** [sample._get_field_names(include_private=...)] *)
Definition _get_field_names (fields : list (string * value))
    (include_private : bool) : list string :=
  filter (fun f => include_private || negb (is_private f)) (keys fields).

(** [sample[field_name]] *)
Definition getitem (fields : list (string * value)) (field_name : string)
  : value :=
  match get field_name fields with Some v => v | None => VNull end.

(** [sample.iter_fields()] *)
Definition iter_fields (s : Sample) : list (string * value) :=
  filter (fun kv => negb (is_private (fst kv))) (sample_fields s).

Definition is_id_field (f : string) : bool :=
  String.eqb f "id" || String.eqb f "_id".

(** [sample.copy()]: the same fields, no identity, not in any dataset. *)
Definition copy_sample (s : Sample) : Sample :=
  mkSample
    (map (fun kv => if is_id_field (fst kv) then (fst kv, VNull) else kv)
       (sample_fields s))
    (sample_media_type s) false (frames s).

(** [sample.to_mongo_dict()]: the stored form, without [_id]. *)
Definition to_mongo_dict (s : Sample) : doc :=
  filter (fun kv => negb (is_id_field (fst kv))) (sample_fields s).

(** [fos.Sample.from_doc(doc, dataset=self)] *)
Definition from_doc (d : doc) : Sample :=
  mkSample d
    (match get "_media_type" d with Some (VStr m) => m | _ => fom.IMAGE end)
    true [].

(** ** Schemas *)

(** Modelled from the spec: "for every undeclared non-null field the
    registry infers a type descriptor from the runtime value (scalar,
    list-of-scalar, or structured/embedded type with full field
    introspection) and declares it".  [add_implied_field] belongs to the
    document classes of [fiftyone.core.odm], which are not part of the
    sources at hand. *)
Module fol.
Definition _LABEL_LIST_FIELDS : list (string * string) :=
  [("Classifications", "classifications");
   ("Detections", "detections");
   ("Keypoints", "keypoints");
   ("Polylines", "polylines")].
End fol.

Definition scalar_field (v : value) : option string :=
  match v with
  | VBool _ => Some "BooleanField"
  | VInt _ => Some "IntField"
  | VStr _ => Some "StringField"
  | VOid _ => Some "ObjectIdField"
  | _ => None
  end.

Definition get_implied_field (v : value) : option fof.Field :=
  match v with
  | VArr [] => Some (fof.ListField None)
  | VArr (x :: _) => Some (fof.ListField (scalar_field x))
  | VObj d =>
      match get "_cls" d with
      | Some (VStr c) =>
          Some (fof.EmbeddedDocumentField
                  (fof.mkClass c (get c fol._LABEL_LIST_FIELDS)))
      | _ => None
      end
  | VNull | VMissing => None
  | _ => option_map fof.ScalarField (scalar_field v)
  end.

(** [foo.SampleFieldDocument.from_field(field)] *)
Definition from_field (nf : string * fof.Field) : foo.SampleFieldDocument :=
  match snd nf with
  | fof.ListField sub =>
      foo.mkSampleField (fst nf) "ListField" sub None
  | fof.EmbeddedDocumentField c =>
      foo.mkSampleField (fst nf) "EmbeddedDocumentField" None
        (Some (fof.cls_name c))
  | fof.ScalarField t => foo.mkSampleField (fst nf) t None None
  end.

(** [doc_cls._declare_field(sample_field)]: the field a persisted
    descriptor stands for. *)
Definition to_field (f : foo.SampleFieldDocument) : string * fof.Field :=
  (foo.sf_name f,
   if String.eqb (foo.sf_ftype f) "ListField"
   then fof.ListField (foo.sf_subfield f)
   else if String.eqb (foo.sf_ftype f) "EmbeddedDocumentField"
   then let c := match foo.sf_embedded_doc_type f with
                 | Some c => c
                 | None => EmptyString
                 end in
        fof.EmbeddedDocumentField
          (fof.mkClass c (get c fol._LABEL_LIST_FIELDS))
   else fof.ScalarField (foo.sf_ftype f)).

(** Modelled from the spec: the fields every sample and every frame
    document class starts with: the identity, the required path field and
    the tags ("the identity path field is always retained", the frame key
    "(owning-record-id, frame-number)"), and the private fields [dataset.py]
    names next to them. *)
Definition default_sample_fields : list (string * fof.Field) :=
  [("id", fof.ScalarField "ObjectIdField");
   ("filepath", fof.ScalarField "StringField");
   ("tags", fof.ListField (Some "StringField"));
   ("metadata",
    fof.EmbeddedDocumentField (fof.mkClass "Metadata" None));
   ("_media_type", fof.ScalarField "StringField");
   ("_rand", fof.ScalarField "FloatField")].

Definition default_frame_fields : list (string * fof.Field) :=
  [("id", fof.ScalarField "ObjectIdField");
   ("frame_number", fof.ScalarField "FrameNumberField");
   ("_sample_id", fof.ScalarField "ObjectIdField")].

(** [_create_sample_document_cls], [_create_frame_document_cls] *)
Definition _create_sample_document_cls (sample_collection_name : string)
  : DocCls :=
  mkCls sample_collection_name default_sample_fields.

Definition _create_frame_document_cls (frame_collection_name : string)
  : DocCls :=
  mkCls frame_collection_name default_frame_fields.

Definition declare (f : string * fof.Field) (c : DocCls) : DocCls :=
  mkCls (collection c) (set (fst f) (snd f) (_fields c)).

(** ** Updating a dataset object *)

Definition with_doc (d : foo.DatasetDocument) (self : Dataset) : Dataset :=
  mkDataset d (_sample_doc_cls self) (_frame_doc_cls self) (_deleted self).

Definition with_sample_doc_cls (c : DocCls) (self : Dataset) : Dataset :=
  mkDataset (_doc self) c (_frame_doc_cls self) (_deleted self).

Definition with_frame_doc_cls (c : DocCls) (self : Dataset) : Dataset :=
  mkDataset (_doc self) (_sample_doc_cls self) c (_deleted self).

Definition with_deleted (b : bool) (self : Dataset) : Dataset :=
  mkDataset (_doc self) (_sample_doc_cls self) (_frame_doc_cls self) b.

Definition doc_with_media_type (m : option string)
    (d : foo.DatasetDocument) : foo.DatasetDocument :=
  foo.mkDatasetDocument (foo.id d) (foo.name d) m
    (foo.sample_collection_name d) (foo.persistent d) (foo.sample_fields d)
    (foo.frame_fields d) (foo.evaluations d) (foo.brain_methods d)
    (foo.version d).

Definition doc_with_sample_fields (fs : list foo.SampleFieldDocument)
    (d : foo.DatasetDocument) : foo.DatasetDocument :=
  foo.mkDatasetDocument (foo.id d) (foo.name d) (foo.media_type d)
    (foo.sample_collection_name d) (foo.persistent d) fs
    (foo.frame_fields d) (foo.evaluations d) (foo.brain_methods d)
    (foo.version d).

Definition doc_with_frame_fields (fs : list foo.SampleFieldDocument)
    (d : foo.DatasetDocument) : foo.DatasetDocument :=
  foo.mkDatasetDocument (foo.id d) (foo.name d) (foo.media_type d)
    (foo.sample_collection_name d) (foo.persistent d) (foo.sample_fields d)
    fs (foo.evaluations d) (foo.brain_methods d) (foo.version d).

Definition doc_with_persistent (b : bool) (d : foo.DatasetDocument)
  : foo.DatasetDocument :=
  foo.mkDatasetDocument (foo.id d) (foo.name d) (foo.media_type d)
    (foo.sample_collection_name d) b (foo.sample_fields d)
    (foo.frame_fields d) (foo.evaluations d) (foo.brain_methods d)
    (foo.version d).

(** ** Creating and loading datasets *)

(** [dataset_exists(name)] *)
Definition dataset_exists (name : string) : M bool :=
  d <- get_dataset_doc name ;;
  ret (match d with Some _ => true | None => false end).

(** [_list_datasets(include_private=True)] *)
Definition _list_datasets : M (list string) :=
  fun w => (Ok (map foo.name (dataset_docs w)), w).

(** [get_default_dataset_name()] *)
Definition get_default_dataset_name : M string :=
  names <- _list_datasets ;;
  fun w =>
    (Ok (if mem (fst (now w)) names then snd (now w) else fst (now w)), w).

(** [_make_sample_collection_name(patches=False, frames=False)] *)
Definition _make_sample_collection_name (patches frames : bool)
  : M string :=
  let prefix := if patches then "patches"
                else if frames then "frames" else "samples" in
  names <- list_collection_names ;;
  fun w =>
    let name := prefix ++ "." ++ fst (now w) in
    (Ok (if mem name names then prefix ++ "." ++ snd (now w) else name), w).

(** [_create_indexes(sample_collection_name, frame_collection_name)] *)
Definition _create_indexes (sample_collection_name
                            frame_collection_name : string) : M unit :=
  create_index sample_collection_name ["filepath"] false ;;;
  create_index frame_collection_name ["_sample_id"; "frame_number"] true ;;;
  ret tt.

(** [_create_dataset(name, persistent=False, patches=False, frames=False)] *)
Definition _create_dataset (name : string) (persistent patches
                                             frames : bool)
  : M (foo.DatasetDocument * DocCls * DocCls) :=
  exists_ <- dataset_exists name ;;
  if exists_ : bool then
    raise (ValueError
             ("Dataset '" ++ name ++ "' already exists; use "
              ++ "`fiftyone.load_dataset()` to load an existing dataset"))
  else
    sample_collection_name <- _make_sample_collection_name patches frames ;;
    let sample_doc_cls :=
      _create_sample_document_cls sample_collection_name in
    let sample_fields := map from_field (_fields sample_doc_cls) in
    let frame_collection_name := "frames." ++ sample_collection_name in
    let frame_doc_cls := _create_frame_document_cls frame_collection_name in
    dataset_doc <-
      save (foo.mkDatasetDocument None name None sample_collection_name
              persistent sample_fields [] [] [] "0.10.0") ;;
    _create_indexes sample_collection_name frame_collection_name ;;;
    ret (dataset_doc, sample_doc_cls, frame_doc_cls).

(** [_load_dataset(name, migrate=True)]; migrations are not modelled. *)
Definition _load_dataset (name : string)
  : M (foo.DatasetDocument * DocCls * DocCls) :=
  found <- get_dataset_doc name ;;
  match found with
  | None => raise (ValueError ("Dataset '" ++ name ++ "' not found"))
  | Some dataset_doc =>
      let declare_all defaults fields cls :=
        fold_left
          (fun c (f : foo.SampleFieldDocument) =>
             if has (foo.sf_name f) defaults then c
             else declare (to_field f) c)
          fields cls in
      let sample_doc_cls :=
        declare_all default_sample_fields (foo.sample_fields dataset_doc)
          (_create_sample_document_cls
             (foo.sample_collection_name dataset_doc)) in
      let frame_doc_cls :=
        _create_frame_document_cls
          ("frames." ++ foo.sample_collection_name dataset_doc) in
      let frame_doc_cls :=
        match foo.media_type dataset_doc with
        | Some m =>
            if String.eqb m fom.VIDEO then
              declare_all default_frame_fields
                (foo.frame_fields dataset_doc) frame_doc_cls
            else frame_doc_cls
        | None => frame_doc_cls
        end in
      ret (dataset_doc, sample_doc_cls, frame_doc_cls)
  end.

(** ** [class Dataset]: construction, properties *)

(** [Dataset.__init__(name, persistent, overwrite, _create)]; the registry
    of instances kept by the metaclass is not modelled, and [overwrite] is
    taken as [False]. *)
Definition Dataset__init__ (name : option string) (persistent : bool)
    (_create : bool) : M Dataset :=
  name <- match name with
          | Some n => ret n
          | None => if _create then get_default_dataset_name
                    else raise (ValueError "Dataset 'None' not found")
          end ;;
  '(doc, sample_doc_cls, frame_doc_cls) <-
     (if _create then _create_dataset name persistent false false
      else _load_dataset name) ;;
  ret (mkDataset doc sample_doc_cls frame_doc_cls false).

(** [load_dataset(name)] *)
Definition load_dataset (name : string) : M Dataset :=
  Dataset__init__ (Some name) false false.

(** [Dataset.__len__], through [self.count()] *)
Definition __len__ (self : Dataset) : M nat :=
  lift (via_getattribute self tt) ;;;
  count_documents (_sample_collection_name self).

(** The setter of [Dataset.media_type] *)
Definition set_media_type (self : Dataset) (media_type : string)
  : M Dataset :=
  n <- __len__ self ;;
  if negb (n =? 0)%nat then
    raise (ValueError "Cannot set media type of a non-empty dataset")
  else if negb (mem media_type fom.MEDIA_TYPES) then
    raise (ValueError
             ("media_type can only be one of image, video; received '"
              ++ media_type ++ "'"))
  else
    let doc := doc_with_media_type (Some media_type) (_doc self) in
    let doc :=
      if String.eqb media_type fom.VIDEO then
        doc_with_frame_fields
          (map from_field (_fields (_frame_doc_cls self))) doc
      else doc in
    doc' <- save doc ;;
    ret (with_doc doc' self).

(** The getter and the setter of [Dataset.persistent]; both read
    [self._doc] only, which [__getattribute__] serves on a deleted dataset
    too.  When [save()] raises, the setter puts the old value back: the
    dataset is as it was. *)
Definition persistent (self : Dataset) : bool := foo.persistent (_doc self).

Definition set_persistent (self : Dataset) (value : bool) : M Dataset :=
  doc' <- save (doc_with_persistent value (_doc self)) ;;
  ret (with_doc doc' self).

(** [Dataset._reload(hard=False)] *)
Definition _reload (self : Dataset) : M Dataset :=
  lift (via_getattribute self tt) ;;;
  doc' <- reload_doc (_doc self) ;;
  ret (with_doc doc' self).

(** ** Adding samples *)

(** [Dataset._validate_media_type] *)
Definition _validate_media_type (self : Dataset) (sample : Sample)
  : outcome unit :=
  bind_outcome (via_getattribute self (media_type self)) (fun mt =>
  match mt with
  | Some m =>
      if String.eqb m (sample_media_type sample) then Ok tt
      else Raise (MediaTypeError
                    ("Sample media type '" ++ sample_media_type sample
                     ++ "' does not match dataset media type '" ++ m ++ "'"))
  | None =>
      Raise (MediaTypeError
               ("Sample media type '" ++ sample_media_type sample
                ++ "' does not match dataset media type 'None'"))
  end).

(** [doc_cls.add_implied_field(field_name, value)]: the field is declared
    on the class and appended to the persisted dataset document. *)
Definition add_implied_field (frame : bool) (self : Dataset)
    (field_name : string) (v : value) : M Dataset :=
  match get_implied_field v with
  | None =>
      raise (ValueError ("Unsupported field value for '" ++ field_name ++ "'"))
  | Some f =>
      found <-
        (fun w =>
           (Ok (find (fun d => String.eqb (foo.sample_collection_name d)
                                 (_sample_collection_name self))
                  (dataset_docs w)), w)) ;;
      match found with
      | None => raise (OperationFailure "Document does not exist")
      | Some dataset_doc =>
          let fd := from_field (field_name, f) in
          save (if frame then
                  doc_with_frame_fields
                    (foo.frame_fields dataset_doc ++ [fd])%list dataset_doc
                else
                  doc_with_sample_fields
                    (foo.sample_fields dataset_doc ++ [fd])%list dataset_doc)
          ;;;
          ret (if frame then
                 with_frame_doc_cls
                   (declare (field_name, f) (_frame_doc_cls self)) self
               else
                 with_sample_doc_cls
                   (declare (field_name, f) (_sample_doc_cls self)) self)
      end
  end.

(** The loop over the field names of one sample or frame, shared by
    [_expand_schema] and [_expand_frame_schema]: a field that is not [_id],
    not yet in the schema and whose value is not [None] is added. *)
Fixpoint expand_fields (frame : bool) (values : list (string * value))
    (field_names : list string) (self : Dataset) (expanded : bool)
  : M (Dataset * bool) :=
  match field_names with
  | [] => ret (self, expanded)
  | field_name :: rest =>
      let fields := if frame then _fields (_frame_doc_cls self)
                    else _fields (_sample_doc_cls self) in
      if String.eqb field_name "_id" then
        expand_fields frame values rest self expanded
      else if has field_name fields then
        expand_fields frame values rest self expanded
      else
        match getitem values field_name with
        | VNull => expand_fields frame values rest self expanded
        | v =>
            self' <- add_implied_field frame self field_name v ;;
            expand_fields frame values rest self' true
        end
  end.

(** [Dataset._expand_frame_schema(frames)] *)
Fixpoint _expand_frame_schema (self : Dataset)
    (frames : list (nat * list (string * value))) (expanded : bool)
  : M (Dataset * bool) :=
  match frames with
  | [] => ret (self, expanded)
  | (_, frame) :: rest =>
      '(self', expanded') <-
         expand_fields true frame (_get_field_names frame true) self
           expanded ;;
      _expand_frame_schema self' rest expanded'
  end.

(** The loop of [_expand_schema] over the samples. *)
Fixpoint expand_samples (self : Dataset) (samples : list Sample)
    (expanded : bool) : M (Dataset * bool) :=
  match samples with
  | [] => ret (self, expanded)
  | sample :: rest =>
      lift (_validate_media_type self sample) ;;;
      '(self1, expanded1) <-
         (if is_video self then
            _expand_frame_schema self (frames sample) expanded
          else ret (self, expanded)) ;;
      '(self2, expanded2) <-
         expand_fields false (sample_fields sample)
           (_get_field_names (sample_fields sample) true) self1 expanded1 ;;
      expand_samples self2 rest expanded2
  end.

(** [Dataset._expand_schema(samples)] *)
Definition _expand_schema (self : Dataset) (samples : list Sample)
  : M Dataset :=
  lift (via_getattribute self tt) ;;;
  '(self', expanded) <- expand_samples self samples false ;;
  if expanded : bool then _reload self' else ret self'.

(** Modelled from the spec: "once declared, a field's type is fixed, and
    future value shapes that don't match fail validation".
    [field.validate(value)] belongs to the field classes. *)
Definition validate (f : fof.Field) (v : value) : bool :=
  match f, v with
  | fof.ListField _, VArr _ => true
  | fof.EmbeddedDocumentField c, VObj d =>
      match get "_cls" d with
      | Some (VStr c') => String.eqb c' (fof.cls_name c)
      | _ => false
      end
  | fof.ScalarField t, _ =>
      match scalar_field v with
      | Some t' =>
          String.eqb t' t
          || (String.eqb t' "IntField"
              && (String.eqb t "FloatField"
                  || String.eqb t "FrameNumberField"))
      | None => false
      end
  | _, _ => false
  end.

(** [Dataset._validate_samples(samples)]; the declared fields are
    nullable. *)
Fixpoint validate_samples (fields : list (string * fof.Field))
    (name : string) (samples : list Sample) : outcome unit :=
  match samples with
  | [] => Ok tt
  | sample :: rest =>
      if forallb
           (fun kv =>
              match get (fst kv) fields, snd kv with
              | Some f, VNull => true
              | Some f, v => validate f v
              | None, _ => true
              end)
           (iter_fields sample)
      then
        if existsb
             (fun kv =>
                match get (fst kv) fields, snd kv with
                | None, VNull => false
                | None, _ => true
                | Some _, _ => false
                end)
             (iter_fields sample)
        then Raise (ValueError
                      ("Fields do not exist on dataset '" ++ name ++ "'"))
        else validate_samples fields name rest
      else Raise (ValidationError "field value does not match its type")
  end.

Definition _validate_samples (self : Dataset) (samples : list Sample)
  : outcome unit :=
  bind_outcome (via_getattribute self (get_field_schema self true))
    (fun fields => validate_samples fields (name self) samples).

(** [Dataset._sample_dict_to_doc(d)] with [fos.Sample.from_doc]; a stored
    document is taken to decode. *)
Definition _sample_dict_to_doc (self : Dataset) (d : doc) : outcome Sample :=
  via_getattribute self (from_doc d).

(** [sample.frames.save()] for the samples just inserted: each frame is
    stored with the [_id] of its sample as [_sample_id]. *)
Definition frame_docs (sample : Sample) (d : doc) : list doc :=
  map (fun nf =>
         ("frame_number", VInt (Z.of_nat (fst nf)))
           :: ("_sample_id", field "_id" (VObj d))
           :: filter (fun kv => negb (is_id_field (fst kv)
                                      || String.eqb (fst kv) "frame_number"
                                      || String.eqb (fst kv) "_sample_id"))
                (snd nf))
    (frames sample).

(** [Dataset._add_samples_batch(samples, expand_schema, validate)]; returns
    the dataset as it has become and the [_id]s of the inserted samples. *)
Definition _add_samples_batch (self : Dataset) (samples : list Sample)
    (expand_schema validate_ : bool) : M (Dataset * list value) :=
  lift (via_getattribute self tt) ;;;
  let samples := map (fun s => if _in_db s then copy_sample s else s)
                   samples in
  self1 <-
    match media_type self, samples with
    | None, s :: _ => set_media_type self (sample_media_type s)
    | _, _ => ret self
    end ;;
  self2 <- (if expand_schema then _expand_schema self1 samples
            else ret self1) ;;
  (if validate_ then lift (_validate_samples self2 samples) else ret tt) ;;;
  let dicts := map to_mongo_dict samples in
  dicts' <-
    (fun w =>
       match insert_many (_sample_collection_name self2) dicts w with
       | (Raise (OperationFailure msg), w') => (Raise (ValueError msg), w')
       | r => r
       end) ;;
  for_each (combine samples dicts')
    (fun sd =>
       lift (_sample_dict_to_doc self2 (snd sd)) ;;;
       if is_video self2 then
         insert_many (_frame_collection_name self2)
           (frame_docs (fst sd) (snd sd)) ;;;
         ret tt
       else ret tt) ;;;
  ret (self2, map (fun d => field "_id" (VObj d)) dicts').

(** [Dataset.add_sample(sample, expand_schema=True, validate=True)] *)
Definition add_sample (self : Dataset) (sample : Sample)
    (expand_schema validate_ : bool) : M (Dataset * value) :=
  '(self', ids) <- _add_samples_batch self [sample] expand_schema validate_ ;;
  match ids with
  | i :: _ => ret (self', i)
  | [] => raise (ValueError "list index out of range")
  end.

(** [Dataset.add_samples(samples, expand_schema=True, validate=True)]; the
    batcher cuts the samples into [batches] as the latencies it measures
    tell it to. *)
Fixpoint add_samples (self : Dataset) (batches : list (list Sample))
    (expand_schema validate_ : bool) : M (Dataset * list value) :=
  match batches with
  | [] => ret (self, [])
  | batch :: rest =>
      '(self1, ids) <-
         _add_samples_batch self batch expand_schema validate_ ;;
      '(self2, ids') <- add_samples self1 rest expand_schema validate_ ;;
      ret (self2, (ids ++ ids')%list)
  end.

(** ** Reading samples *)

(** What [dataset[key]] may be given: an integer (or a bool, which is one),
    a slice, a string, an [ObjectId]. *)
Inductive key : Type :=
| KInt (n : Z)
| KBool (b : bool)
| KSlice (start stop step : option Z)
| KStr (s : string)
| KOid (n : nat).

Inductive item : Type :=
| ItemSample (s : Sample)
| ItemView (start stop step : option Z).   (* [self.view()[slice]] *)

Definition hex_digit (c : ascii) : option nat :=
  let n := nat_of_ascii c in
  if (48 <=? n)%nat && (n <=? 57)%nat then Some (n - 48)
  else if (97 <=? n)%nat && (n <=? 102)%nat then Some (n - 87)
  else if (65 <=? n)%nat && (n <=? 70)%nat then Some (n - 55)
  else None.

Fixpoint parse_hex (s : string) (acc : nat) : option nat :=
  match s with
  | EmptyString => Some acc
  | String c rest =>
      match hex_digit c with
      | Some d => parse_hex rest (16 * acc + d)
      | None => None
      end
  end.

(** [ObjectId(x)]: an [ObjectId], or a string of 24 hexadecimal digits;
    [None] when the constructor raises. *)
Definition ObjectId (k : key) : option nat :=
  match k with
  | KOid n => Some n
  | KStr s => if (String.length s =? 24)%nat then parse_hex s 0 else None
  | _ => None
  end.

Definition isinstance_Integral (k : key) : bool :=
  match k with KInt _ | KBool _ => true | _ => false end.

(** [Dataset.__getitem__] *)
Definition __getitem__ (self : Dataset) (id_filepath_slice : key) : M item :=
  if isinstance_Integral id_filepath_slice then
    raise (ValueError
             ("Accessing dataset samples by numeric index is not supported. "
              ++ "Use sample IDs, filepaths, or slices instead"))
  else
    match id_filepath_slice with
    | KSlice start stop step =>
        lift (via_getattribute self (ItemView start stop step))
    | _ =>
        let '(oid, query) :=
          match ObjectId id_filepath_slice with
          | Some n => (Some n, [("_id", VOid n)])
          | None =>
              (None,
               [("filepath",
                 match id_filepath_slice with
                 | KStr s => VStr s
                 | _ => VNull
                 end)])
          end in
        lift (via_getattribute self tt) ;;;
        d <- find_one (_sample_collection_name self) query ;;
        match d with
        | None =>
            raise (KeyError
                     (VStr ("No sample found with "
                            ++ match oid with
                               | Some _ => "ID"
                               | None => "filepath"
                               end)))
        | Some d =>
            sample <- lift (_sample_dict_to_doc self d) ;;
            ret (ItemSample sample)
        end
    end.

(** A generator, run to its end: what it yielded, and the exception that
    ended it, if one did. *)
Definition generator (A : Type) : Type :=
  world -> (list A * option exn) * world.

(** The cursor of [foo.aggregate]: the documents it delivers before the
    server forgets it ([CursorNotFound]), if it does. *)
Definition open_cursor (collection : string) (pipeline : list stage)
  : M (list doc * bool) :=
  ds <- aggregate_all collection pipeline ;;
  fun w =>
    match expiries w with
    | [] => (Ok (ds, false), w)
    | k :: rest =>
        let w' := mkWorld (db w) (dataset_docs w) (trace w) (now w) rest in
        if (k <=? List.length ds)%nat then (Ok (firstn k ds, true), w')
        else (Ok (ds, false), w')
    end.

(** [Dataset._iter_samples(pipeline)]; [depth] bounds the nesting of the
    recursive calls. *)
Fixpoint _iter_samples (depth : nat) (self : Dataset)
    (pipeline : list stage) : generator Sample :=
  fun w =>
    match via_getattribute self tt with
    | Raise e => (([], Some e), w)
    | Ok _ =>
        match open_cursor (_sample_collection_name self) pipeline w with
        | (Raise e, w1) => (([], Some e), w1)
        | (Ok (ds, expired), w1) =>
            let samples := map from_doc ds in
            let index := List.length samples in
            if expired : bool then
              match depth with
              | O => ((samples, Some RecursionError), w1)
              | S depth' =>
                  let '((rest, e), w2) :=
                    _iter_samples depth' self
                      (pipeline ++ [Skip index])%list w1 in
                  ((samples ++ rest)%list, e, w2)
              end
            else ((samples, None), w1)
        end
    end.

(** [Dataset.iter_samples()]; the nesting allowed is that of the cursors
    that will expire, so that it is never exhausted. *)
Definition iter_samples (self : Dataset) : generator Sample :=
  fun w =>
    match _pipeline self None false true false with
    | Raise e => (([], Some e), w)
    | Ok pipeline =>
        _iter_samples (List.length (expiries w)) self pipeline w
    end.

(** ** Deleting and cloning *)

(** [Dataset.clear()] *)
Definition clear (self : Dataset) : M unit :=
  lift (via_getattribute self tt) ;;;
  drop (_sample_collection_name self) ;;;
  drop (_frame_collection_name self).

(** [_delete_dataset_doc(dataset_doc)]; the results of the runs live in a
    blob store that is not modelled. *)
Definition _delete_dataset_doc (dataset_doc : foo.DatasetDocument)
  : M unit :=
  delete_doc dataset_doc.

(** [Dataset.delete()] *)
Definition delete (self : Dataset) : M Dataset :=
  clear self ;;;
  _delete_dataset_doc (_doc self) ;;;
  ret (with_deleted true self).

(** [_clone_runs(dst_dataset, src_doc)] *)
Definition _clone_runs (dst_dataset : Dataset)
    (src_doc : foo.DatasetDocument) : M Dataset :=
  lift (via_getattribute dst_dataset tt) ;;;
  let dst_doc := _doc dst_dataset in
  dst_doc' <-
    save (foo.mkDatasetDocument (foo.id dst_doc) (foo.name dst_doc)
            (foo.media_type dst_doc) (foo.sample_collection_name dst_doc)
            (foo.persistent dst_doc) (foo.sample_fields dst_doc)
            (foo.frame_fields dst_doc) (foo.evaluations src_doc)
            (foo.brain_methods src_doc) (foo.version dst_doc)) ;;
  ret (with_doc dst_doc' dst_dataset).

(** [_clone_dataset_or_view(dataset_or_view, name)] for a dataset; returns
    the source dataset as [_reload] leaves it, and the clone. *)
Definition _clone_dataset_or_view (dataset : Dataset) (name : string)
  : M (Dataset * Dataset) :=
  exists_ <- dataset_exists name ;;
  if exists_ : bool then
    raise (ValueError ("Dataset '" ++ name ++ "' already exists"))
  else
    dataset <- _reload dataset ;;
    sample_collection_name <- _make_sample_collection_name false false ;;
    let frame_collection_name := "frames." ++ sample_collection_name in
    let d := _doc dataset in
    let dataset_doc :=
      foo.mkDatasetDocument None name (foo.media_type d)
        sample_collection_name false (foo.sample_fields d)
        (foo.frame_fields d) [] [] (foo.version d) in
    save dataset_doc ;;;
    _create_indexes sample_collection_name frame_collection_name ;;;
    pipeline <- lift (_pipeline dataset None false true false) ;;
    aggregate_all (_sample_collection_name dataset)
      (pipeline ++ [Out sample_collection_name])%list ;;;
    (if is_video dataset then
       aggregate_all (_frame_collection_name dataset)
         [Out frame_collection_name] ;;;
       ret tt
     else ret tt) ;;;
    clone_dataset <- load_dataset name ;;
    clone_dataset <-
      (if negb (Nat.eqb (List.length (foo.evaluations d)) 0)
          || negb (Nat.eqb (List.length (foo.brain_methods d)) 0)
       then _clone_runs clone_dataset (_doc dataset)
       else ret clone_dataset) ;;
    ret (dataset, clone_dataset).

(** [Dataset._clone(name=None)] and [Dataset.clone(name=None)] *)
Definition _clone (self : Dataset) (name : option string)
  : M (Dataset * Dataset) :=
  lift (via_getattribute self tt) ;;;
  name <- match name with
          | Some n => ret n
          | None => get_default_dataset_name
          end ;;
  _clone_dataset_or_view self name.

Definition clone (self : Dataset) (name : option string)
  : M (Dataset * Dataset) :=
  _clone self name.

(** ** The merge expressions *)

(** [_merge_list_field(doc, list_field)]; [doc] is updated in place, here
    the updated dict is returned. *)
Definition _merge_list_field (doc : list (string * expr))
    (list_field : string) : list (string * expr) :=
  set list_field
    (ESwitch
       [(ENot (EGt (EStr ("$" ++ list_field)) ENone),
         EStr ("$$new." ++ list_field));
        (ENot (EGt (EStr ("$$new." ++ list_field)) ENone),
         EStr ("$" ++ list_field))]
       (EConcatArrays
          [EStr ("$" ++ list_field);
           EFilter (EStr ("$$new." ++ list_field)) "this"
             (ENot (EIn (EStr "$$this") (EStr ("$" ++ list_field))))]))
    doc.

(** The element list computed by [_merge_label_list_field]. *)
Definition label_list_elements (elem_field : string) (overwrite : bool)
  : expr :=
  if overwrite then
    EReverseArray
      (ELet
         [("new_ids",
           EMap (EStr ("$$new." ++ elem_field)) "this" (EStr "$$this._id"))]
         (EReduce
            (EReverseArray (EStr ("$" ++ elem_field)))
            (EReverseArray (EStr ("$$new." ++ elem_field)))
            (ECond
               (ENot (EIn (EStr "$$this._id") (EStr "$$new_ids")))
               (EConcatArrays [EStr "$$value"; EList [EStr "$$this"]])
               (EStr "$$value"))))
  else
    ELet
      [("existing_ids",
        EMap (EStr ("$" ++ elem_field)) "this" (EStr "$$this._id"))]
      (EReduce
         (EStr ("$$new." ++ elem_field))
         (EStr ("$" ++ elem_field))
         (ECond
            (ENot (EIn (EStr "$$this._id") (EStr "$$existing_ids")))
            (EConcatArrays [EStr "$$value"; EList [EStr "$$this"]])
            (EStr "$$value"))).

(** [_merge_label_list_field(doc, elem_field, overwrite=False)]; the
    unpacking [field, leaf = elem_field.split(".")] raises unless there are
    exactly two parts. *)
Definition _merge_label_list_field (doc : list (string * expr))
    (elem_field : string) (overwrite : bool)
  : outcome (list (string * expr)) :=
  match split "." elem_field with
  | [field; leaf] =>
      let root := if overwrite then "$$new." ++ field else "$" ++ field in
      let elements := label_list_elements elem_field overwrite in
      Ok (set field
            (ESwitch
               [(ENot (EGt (EStr ("$" ++ field)) ENone),
                 EStr ("$$new." ++ field));
                (ENot (EGt (EStr ("$$new." ++ field)) ENone),
                 EStr ("$" ++ field))]
               (EMergeObjects [EStr root; EDict [(leaf, elements)]]))
            doc)
  | _ => Raise (ValueError "wrong number of values to unpack")
  end.

(** The loop of [_merge_docs] over [schema.items()], collecting
    [list_fields] and [elem_fields]. *)
Fixpoint merge_docs_fields (schema : list (string * fof.Field))
    (fields : option (list (string * string)))
    (omit_fields : option (list string)) : list string * list string :=
  match schema with
  | [] => ([], [])
  | (field, field_type) :: schema' =>
      let '(list_fields, elem_fields) :=
        merge_docs_fields schema' fields omit_fields in
      let skip1 := match fields with
                   | Some fs => negb (has field fs)
                   | None => false
                   end in
      let skip2 := match omit_fields with
                   | Some os => mem field os
                   | None => false
                   end in
      if skip1 || skip2 then (list_fields, elem_fields)
      else
        let root := match fields with
                    | Some fs => match get field fs with
                                 | Some r => r
                                 | None => field
                                 end
                    | None => field
                    end in
        match field_type with
        | fof.ListField _ => (root :: list_fields, elem_fields)
        | fof.EmbeddedDocumentField cls =>
            match fof._LABEL_LIST_FIELD cls with
            | Some leaf => (list_fields, (root ++ "." ++ leaf) :: elem_fields)
            | None => (list_fields, elem_fields)
            end
        | fof.ScalarField _ => (list_fields, elem_fields)
        end
  end.

Fixpoint merge_label_list_fields (doc : list (string * expr))
    (elem_fields : list string) (overwrite : bool)
  : outcome (list (string * expr)) :=
  match elem_fields with
  | [] => Ok doc
  | elem_field :: rest =>
      bind_outcome (_merge_label_list_field doc elem_field overwrite)
        (fun doc' => merge_label_list_fields doc' rest overwrite)
  end.

Definition not_null_item : expr := ENe (EStr "$$item.v") ENone.

Definition not_deleted_item (delete_fields : list string) : expr :=
  ENot (EIn (EStr "$$item.k") (EList (map EStr delete_fields))).

Definition filter_items (input : string) (cond : expr) : expr :=
  EArrayToObject (EFilter (EObjectToArray (EStr input)) "item" cond).

(** [_merge_docs(sample_collection, merge_lists, fields, omit_fields,
    delete_fields, overwrite, frames)]: the [whenMatched] pipeline. *)
Definition _merge_docs (sample_collection : Dataset) (merge_lists : bool)
    (fields : option (list (string * string)))
    (omit_fields : option (list string))
    (delete_fields : list string) (overwrite frames : bool)
  : outcome (list stage) :=
  bind_outcome
    (via_getattribute sample_collection
       (if frames then get_frame_field_schema sample_collection false
        else Some (get_field_schema sample_collection false)))
    (fun schema =>
  bind_outcome
    (if merge_lists then
       match schema with
       | Some sch => Ok (merge_docs_fields sch fields omit_fields)
       | None => Raise (AttributeError "'NoneType' object has no attribute 'items'")
       end
     else Ok ([], []))
    (fun '(list_fields, elem_fields) =>
       let docs :=
         if overwrite then
           let cond :=
             match delete_fields with
             | _ :: _ => EAnd [not_null_item; not_deleted_item delete_fields]
             | [] => not_null_item
             end in
           [EStr "$$ROOT"; filter_items "$$new" cond]
         else
           let new_doc :=
             match delete_fields with
             | _ :: _ => filter_items "$$new" (not_deleted_item delete_fields)
             | [] => EStr "$$new"
             end in
           [new_doc; filter_items "$$ROOT" not_null_item] in
       match list_fields, elem_fields with
       | [], [] => Ok [ReplaceWith (EMergeObjects docs)]
       | _, _ =>
           let doc := fold_left _merge_list_field list_fields [] in
           bind_outcome (merge_label_list_fields doc elem_fields overwrite)
             (fun doc' =>
                Ok [ReplaceWith (EMergeObjects (docs ++ [EDict doc'])%list)])
       end)).

(** ** Label lists, in the words of the specification

    A label list is merged "at the element level by element id". *)






(** A value that can sit in a stored array. *)
Definition stored (v : value) : Prop := v <> VMissing.


(** The example of the specification: a sample whose [ground_truth] field
    holds detections. *)
Module LabelListExample.

Definition Detections : fof.doc_class :=
  fof.mkClass "Detections" (Some "detections").

Definition dataset : Dataset :=
  mkDataset
    (foo.mkDatasetDocument (Some 1) "example" (Some fom.IMAGE) "samples.1" false
       [] [] [] [] "0.10.0")
    (mkCls "samples.1"
       [("filepath", fof.ScalarField "StringField");
        ("tags", fof.ListField (Some "StringField"));
        ("ground_truth", fof.EmbeddedDocumentField Detections)])
    (mkCls "frames.samples.1" [])
    false.

Definition label (id : nat) (l : string) : value :=
  VObj [("_id", VOid id); ("label", VStr l)].

Definition sample (id : nat) (labels : list value) : doc :=
  [("_id", VOid id);
   ("filepath", VStr "a.jpg");
   ("tags", VArr []);
   ("ground_truth",
    VObj [("_cls", VStr "Detections"); ("detections", VArr labels)])].

Definition destination : doc := sample 10 [label 1 "a"].
Definition incoming : doc :=
  remove "_id" (sample 11 [label 1 "b"; label 2 "c"]).

(** The destination collection after the [$merge] step whose
    [whenMatched] pipeline is that of [_merge_docs], reduced to the
    detections of its documents. *)
Definition store : database :=
  mkDb [("samples.1", [destination])]
       [("samples.1", [mkIndex "filepath_1" ["filepath"] true])]
       100.

Definition merged (overwrite : bool) : option (list value) :=
  match _merge_docs dataset true None None [] overwrite false with
  | Ok p =>
      match run_stage store []
              (Merge "samples.1" ["filepath"] (inr p) "insert")
              [incoming] with
      | (Some _, db') =>
          Some (map (fun d => get_path ["ground_truth"; "detections"] (VObj d))
                  (coll db' "samples.1"))
      | (None, _) => None
      end
  | Raise _ => None
  end.

End LabelListExample.

(** ** The pieces of a compiled pipeline, named *)

(** The join step: each sample with its frames, matched on the equality of
    the sample's [_id] and the frame's [_sample_id], sorted by ascending
    [frame_number], as the array [frames]. *)
Definition frames_lookup (self : Dataset) : stage :=
  Lookup (_frame_collection_name self)
    [("sample_id", EStr "$_id")]
    [MatchExpr (EEq (EStr "$$sample_id") (EStr "$_sample_id"));
     Sort [("frame_number", 1%Z)]]
    "frames".

Definition detach_projection : stage := Project [("frames", PBool false)].

Definition frames_only_suffix : list stage :=
  [Project [("frames", PBool true)];
   Unwind "$frames";
   ReplaceRoot (EStr "$frames")].

Definition user_stages (pipeline : option (list stage)) : list stage :=
  match pipeline with Some p => p | None => [] end.

Module VideoExample.

Definition dataset : Dataset :=
  mkDataset
    (foo.mkDatasetDocument (Some 2) "clips" (Some fom.VIDEO) "samples.2" false
       [] [] [] [] "0.10.0")
    (mkCls "samples.2" [("filepath", fof.ScalarField "StringField")])
    (mkCls "frames.samples.2"
       [("frame_number", fof.ScalarField "FrameNumberField")])
    false.

End VideoExample.

(** ** A small world for the examples *)

Module Example.

Definition empty_world : world :=
  mkWorld (mkDb [] [] 1000) [] []
    ("2021.05.01.10.00.00", "2021.05.01.10.00.00.000000") [].

Definition image_sample (filepath : string) (extra : list (string * value))
  : Sample :=
  mkSample
    ([("id", VNull); ("filepath", VStr filepath); ("tags", VArr []);
      ("metadata", VNull); ("_media_type", VStr fom.IMAGE);
      ("_rand", VInt 1)] ++ extra)%list
    fom.IMAGE false [].

Definition video_sample (filepath : string)
    (frames : list (nat * list (string * value))) : Sample :=
  mkSample
    [("id", VNull); ("filepath", VStr filepath); ("tags", VArr []);
     ("metadata", VNull); ("_media_type", VStr fom.VIDEO);
     ("_rand", VInt 1)]
    fom.VIDEO false frames.

(** What a computation leaves when it does not raise. *)
Definition result {A : Type} (r : outcome A * world) : option (A * world) :=
  match r with
  | (Ok a, w) => Some (a, w)
  | (Raise _, _) => None
  end.

(** A fresh, empty dataset named [name], and the world that holds it. *)
Definition created (name : string) (persistent : bool) (w : world)
  : option (Dataset * world) :=
  result (Dataset__init__ (Some name) persistent true w).

(** A dataset named [name] holding [samples], and the world that holds
    it. *)
Definition populated (name : string) (samples : list Sample) (w : world)
  : option (Dataset * world) :=
  result ((ds <- Dataset__init__ (Some name) false true ;;
           '(ds', _) <- _add_samples_batch ds samples true true ;;
           ret ds') w).

End Example.

(** ** Frame conditions *)

(** Computations that leave the dataset documents alone, and computations
    that leave the store alone. *)
Definition keeps_docs {A : Type} (m : M A) : Prop :=
  forall w r w', m w = (r, w') -> dataset_docs w' = dataset_docs w.

Definition keeps_db {A : Type} (m : M A) : Prop :=
  forall w r w', m w = (r, w') -> db w' = db w.

(** Every persisted dataset document has a primary key, drawn from the
    store's counter. *)
Definition pk_fresh (w : world) : Prop :=
  Forall (fun d => match foo.id d with
                   | Some i => i < next_oid (db w)
                   | None => False
                   end) (dataset_docs w).

(** Concrete datasets, computed once. *)
Module Photos.

(** A persistent image dataset with two samples; the second has a field
    [note] that the first lacks. *)
Definition made : Dataset * world :=
  Eval vm_compute in
    match
      Example.result
        ((ds <- Dataset__init__ (Some "photos") true true ;;
          '(ds', _) <-
             _add_samples_batch ds
               [Example.image_sample "a.jpg" [("weather", VStr "sunny")];
                Example.image_sample "b.jpg" [("note", VStr "blurred")]]
               true true ;;
          ret ds') Example.empty_world)
    with
    | Some p => p
    | None => (LabelListExample.dataset, Example.empty_world)
    end.

Definition dataset : Dataset := Eval vm_compute in fst made.
Definition world0 : world := Eval vm_compute in snd made.

(** The outcome of [dataset.clone("copy")]. *)
Definition cloned : outcome (Dataset * Dataset) * world :=
  Eval vm_compute in clone dataset (Some "copy") world0.

End Photos.

(** ** Cursor recovery, in the words of the specification

    "resume from the last successfully consumed offset by re-issuing the
    pipeline with an added skip count": the requests an iteration makes
    when [remaining] documents are still to come and the cursors expire
    after [expiries] documents. *)
Fixpoint reissued (collection : string) (pipeline : list stage)
    (remaining : nat) (expiries : list nat) : list call :=
  CallAggregate collection pipeline
    :: match expiries with
       | [] => []
       | k :: rest =>
           if (k <=? remaining)%nat
           then reissued collection (pipeline ++ [Skip k]) (remaining - k) rest
           else []
       end.

Module Expiring.

(** The world of [Photos], with a first cursor that expires after one
    sample and a second that expires at once. *)
Definition world0 : world :=
  Eval vm_compute in
    mkWorld (db Photos.world0) (dataset_docs Photos.world0) []
      (now Photos.world0) [1; 0].

End Expiring.

(** ** Schema expansion, stated *)

(** The declared sample fields only grow. *)
Definition schema_grows (self self' : Dataset) : Prop :=
  forall f, has f (_fields (_sample_doc_cls self)) = true ->
            has f (_fields (_sample_doc_cls self')) = true.

(** The same dataset document and the same [deleted] flag. *)
Definition same_object (self self' : Dataset) : Prop :=
  _doc self' = _doc self /\ _deleted self' = _deleted self.

(** A sample as [_add_samples_batch] inserts it: a sample that already
    belongs to a dataset is copied first. *)
Definition as_inserted (s : Sample) : Sample :=
  if _in_db s then copy_sample s else s.


Module Notes.

(** An empty dataset, and a sample whose field [note] is [None]. *)
Definition made : Dataset * world :=
  Eval vm_compute in
    match Example.created "notes" false Example.empty_world with
    | Some p => p
    | None => (LabelListExample.dataset, Example.empty_world)
    end.

Definition dataset : Dataset := Eval vm_compute in fst made.
Definition world0 : world := Eval vm_compute in snd made.

Definition sample : Sample :=
  Example.image_sample "a.jpg" [("note", VNull); ("weather", VStr "sunny")].

End Notes.

(** ** Merging collections *)

(** Python sets of strings, as lists without repetition. *)
Definition set_add (x : string) (s : list string) : list string :=
  if mem x s then s else (s ++ [x])%list.

Definition set_discard (x : string) (s : list string) : list string :=
  filter (fun y => negb (String.eqb x y)) s.

Definition set_difference (s t : list string) : list string :=
  filter (fun y => negb (mem y t)) s.

Definition set_of (l : list string) : list string :=
  fold_left (fun s x => set_add x s) l [].

(** [d.get(k, k)] *)
Definition get_default (d : list (string * string)) (k : string) : string :=
  match get k d with Some v => v | None => k end.

(** Dicts keyed by values. *)
Fixpoint vget (k : value) (d : list (value * value)) : option value :=
  match d with
  | [] => None
  | (k', v) :: d' => if eqb k k' then Some v else vget k d'
  end.

(** [{k: v for k, v in zip(ks, vs)}]: a later pair overrides. *)
Definition vdict (ks vs : list value) : list (value * value) :=
  rev (combine ks vs).

(** A list comprehension whose element expression may raise. *)
Fixpoint map_outcome {A B : Type} (f : A -> outcome B) (l : list A)
  : outcome (list B) :=
  match l with
  | [] => Ok []
  | a :: l' =>
      bind_outcome (f a) (fun b =>
      bind_outcome (map_outcome f l') (fun bs => Ok (b :: bs)))
  end.

(** Modelled from the spec: [sample_collection.values(paths)], the values
    of each path over the samples of the collection, frames attached when
    a path reaches into them ("joined ... sorted ascending by frame
    number").  [values] and [set_values] belong to
    [fiftyone.core.collections], which is not part of the sources at
    hand. *)
Definition values (self : Dataset) (paths : list string)
  : M (list (list value)) :=
  let attach := existsb (startswith "frames.") paths in
  pipeline <- lift (_pipeline self None attach false false) ;;
  ds <- aggregate_all (_sample_collection_name self) pipeline ;;
  ret (map (fun path =>
              map (fun d => null_if_missing
                              (get_path (split "." path) (VObj d))) ds)
         paths).

(** Modelled from the spec: [sample_collection.set_values("frames." +
    field, values)]: "stamp every frame ... into a temporary merge-key
    field"; the n-th value of a sample goes to its n-th frame. *)
Definition set_frame_values (self : Dataset) (field : string)
    (vs : list value) : M unit :=
  frame_ids <- values self ["frames._id"] ;;
  for_each (combine (List.concat frame_ids) vs)
    (fun iv =>
       match fst iv, snd iv with
       | VArr ids, VArr xs =>
           for_each (combine ids xs)
             (fun ix =>
                update_many_set (_frame_collection_name self)
                  [("_id", fst ix)] [(field, snd ix)])
       | _, _ => ret tt
       end).

(** [_index_frames(sample_collection, key_field, frame_key_field)] *)
Definition _index_frames (sample_collection : Dataset)
    (key_field frame_key_field : string) : M unit :=
  r <- values sample_collection ["_id"; key_field; "frames._sample_id"] ;;
  match r with
  | [ids; keys; all_sample_ids] =>
      let keys_map := vdict ids keys in
      frame_keys <-
        lift
          (map_outcome
             (fun sample_ids =>
                match sample_ids with
                | VArr ((_ :: _) as l) =>
                    bind_outcome
                      (map_outcome
                         (fun _id =>
                            match vget _id keys_map with
                            | Some k => Ok k
                            | None => Raise (KeyError _id)
                            end) l)
                      (fun sample_keys => Ok (VArr sample_keys))
                | other => Ok other
                end)
             all_sample_ids) ;;
      set_frame_values sample_collection frame_key_field frame_keys
  | _ => raise (ValueError "not enough values to unpack")
  end.

(** [_finalize_frames(sample_collection, key_field, frame_key_field)] *)
Definition _finalize_frames (sample_collection : Dataset)
    (key_field frame_key_field : string) : M unit :=
  results <- values sample_collection [key_field; "_id"] ;;
  match results with
  | [ks; ids] =>
      let ids_map := vdict ks ids in
      let frame_coll := _frame_collection_name sample_collection in
      keys <- distinct frame_coll frame_key_field ;;
      ops <-
        lift
          (map_outcome
             (fun key =>
                match vget key ids_map with
                | Some i => Ok (key, i)
                | None => Raise (KeyError key)
                end)
             keys) ;;
      log (CallBulkWrite frame_coll) ;;;
      for_each ops
        (fun op =>
           update_many_set frame_coll [(frame_key_field, fst op)]
             [("_sample_id", snd op)])
  | _ => raise (ValueError "not enough values to unpack")
  end.

(** [{v["key"][0][0]: ... for k, v in index_info.items()}]: the indexes by
    their first key field. *)
Definition index_map (index_info : list index) : list (string * index) :=
  fold_left
    (fun m i => match idx_key i with
                | f :: _ => set f i m
                | [] => m
                end)
    index_info [].

(** [_ensure_index(dataset, field, unique=False)]; returns
    [(new, dropped)]. *)
Definition _ensure_index (dataset : Dataset) (field : string)
    (unique : bool) : M (bool * bool) :=
  lift (via_getattribute dataset tt) ;;;
  let coll := _sample_collection_name dataset in
  index_info <- index_information coll ;;
  match get field (index_map index_info) with
  | Some i =>
      if idx_unique i || Bool.eqb (idx_unique i) unique then
        ret (false, false)
      else
        drop_index coll (idx_name i) ;;;
        create_index coll [field] true ;;;
        ret (true, true)
  | None =>
      create_index coll [field] true ;;;
      ret (true, false)
  end.

(** [Dataset.drop_index(field_name)] *)
Definition Dataset_drop_index (self : Dataset) (field_name : string)
  : M unit :=
  lift (via_getattribute self tt) ;;;
  index_info <- index_information (_sample_collection_name self) ;;
  match get field_name (index_map index_info) with
  | None =>
      if (List.length (split "." field_name) =? 1)%nat
         && negb (has field_name (get_field_schema self false))
      then raise (ValueError ("Dataset has no field '" ++ field_name ++ "'"))
      else raise (ValueError
                    ("Dataset field '" ++ field_name ++ "' is not indexed"))
  | Some i => drop_index (_sample_collection_name self) (idx_name i)
  end.

(** [Dataset.create_index(field_name, unique=False)] *)
Definition Dataset_create_index (self : Dataset) (field_name : string)
    (unique : bool) : M unit :=
  lift (via_getattribute self tt) ;;;
  let root := match split "." field_name with r :: _ => r | [] => field_name
              end in
  if negb (has root (get_field_schema self true)) then
    raise (ValueError ("Dataset has no field '" ++ root ++ "'"))
  else
    index_info <- index_information (_sample_collection_name self) ;;
    match get field_name (index_map index_info) with
    | Some i =>
        if idx_unique i || Bool.eqb unique (idx_unique i) then ret tt
        else
          Dataset_drop_index self field_name ;;;
          create_index (_sample_collection_name self) [field_name] unique ;;;
          ret tt
    | None =>
        create_index (_sample_collection_name self) [field_name] unique ;;;
        ret tt
    end.

(** [Dataset._aggregate(pipeline=pipeline)] *)
Definition _aggregate (self : Dataset) (pipeline : list stage)
  : M (list doc) :=
  _pipeline <- lift (_pipeline self (Some pipeline) false false false) ;;
  aggregate_all (_sample_collection_name self) _pipeline.

(** The [fields] argument: a list of field names or a dict that renames
    them. *)
Inductive fields_arg : Type :=
| FieldList (l : list string)
| FieldDict (d : list (string * string)).

(** The [$project] dict built from [fields]. *)
Definition project_fields (db_fields_map : list (string * string))
    (fields : list (string * string)) : list (string * proj) :=
  fold_left
    (fun project kv =>
       let k := get_default db_fields_map (fst kv) in
       let v := get_default db_fields_map (snd kv) in
       if String.eqb k v then set k (PBool true) project
       else set v (PExpr (EStr ("$" ++ k))) project)
    fields [].

Section MergeSamples.

(** The helpers of the source collection and of [fiftyone.core.utils] that
    [_merge_samples_pipeline] calls and that are not part of the sources at
    hand: [_get_db_fields_map(frames=...)], the map from the field names to
    the names they are stored under where these differ;
    [_get_default_sample_fields(include_private=True)]; and
    [fou.split_frame_fields] on a dict and on a list. *)
Variable _get_db_fields_map : Dataset -> bool -> list (string * string).
Variable _get_default_sample_fields : Dataset -> list string.
Variable split_frame_fields_dict :
  list (string * string) -> list (string * string) * list (string * string).
Variable split_frame_fields_list :
  list string -> list string * list string.

(** [_merge_samples_pipeline(src_collection, dst_dataset, key_field,
    skip_existing, insert_new, fields, omit_fields, merge_lists,
    overwrite)], for a source that is a dataset. *)
Definition _merge_samples_pipeline (src_collection dst_dataset : Dataset)
    (key_field : string) (skip_existing insert_new : bool)
    (fields : option fields_arg) (omit_fields : option (list string))
    (merge_lists overwrite : bool) : M unit :=
  (* Prepare for merge *)
  db_fields_map <-
    lift (via_getattribute src_collection
            (_get_db_fields_map src_collection false)) ;;
  let key_field := get_default db_fields_map key_field in
  is_video <- lift (via_getattribute dst_dataset (is_video dst_dataset)) ;;
  let src_dataset := src_collection in
  '(new_src_index, dropped_src_index, new_dst_index, dropped_dst_index) <-
     (if negb (String.eqb key_field "_id") then
        '(ns, ds) <- _ensure_index src_dataset key_field true ;;
        '(nd, dd) <- _ensure_index dst_dataset key_field true ;;
        ret (ns, ds, nd, dd)
      else ret (false, false, false, false)) ;;
  let frame_fields : option (list (string * string)) := None in
  let omit_frame_fields : option (list string) := None in
  let fields :=
    match fields with
    | Some (FieldList l) => Some (map (fun f => (f, f)) l)
    | Some (FieldDict d) => Some d
    | None => None
    end in
  let '(fields, frame_fields) :=
    match fields with
    | Some d =>
        if is_video : bool then
          let '(a, b) := split_frame_fields_dict d in (Some a, Some b)
        else (Some d, frame_fields)
    | None => (None, frame_fields)
    end in
  let '(fields, omit_fields, frame_fields, omit_frame_fields) :=
    match omit_fields with
    | Some o =>
        let '(o, ofr) :=
          if is_video : bool then
            let '(a, b) := split_frame_fields_list o in (a, Some b)
          else (o, omit_frame_fields) in
        let '(fields, omit_fields) :=
          match fields with
          | Some d =>
              (Some (filter (fun kv => negb (mem (fst kv) o)) d), None)
          | None => (None, Some o)
          end in
        let '(frame_fields, ofr) :=
          match is_video, frame_fields, ofr with
          | true, Some d, Some o' =>
              (Some (filter (fun kv => negb (mem (fst kv) o')) d), None)
          | _, _, _ => (frame_fields, ofr)
          end in
        (fields, omit_fields, frame_fields, ofr)
    | None => (fields, None, frame_fields, omit_frame_fields)
    end in
  let frame_key_field := "_merge_key" in
  '(dst_frame_index, src_frame_index) <-
     (if is_video : bool then
        _index_frames dst_dataset key_field frame_key_field ;;;
        _index_frames src_collection key_field frame_key_field ;;;
        (* Must create unique indexes in order to use $merge *)
        let frame_index_spec := [frame_key_field; "frame_number"] in
        d <- create_index (_frame_collection_name dst_dataset)
               frame_index_spec true ;;
        s <- create_index (_frame_collection_name src_dataset)
               frame_index_spec true ;;
        ret (d, s)
      else ret (EmptyString, EmptyString)) ;;
  (* Merge samples *)
  let default_fields :=
    set_discard "id" (set_of (_get_default_sample_fields src_collection)) in
  sample_pipeline <- lift (_pipeline src_collection None false true false) ;;
  let sample_pipeline :=
    match fields with
    | Some d =>
        let project := project_fields db_fields_map d in
        let project :=
          if insert_new then
            let project := set "filepath" (PBool true) project in
            let project := set "_rand" (PBool true) project in
            let project := set "_media_type" (PBool true) project in
            if negb (has "tags" project)
            then set "tags" (PExpr (EList [])) project
            else project
          else project in
        (sample_pipeline ++ [Project project])%list
    | None => sample_pipeline
    end in
  let _omit_fields :=
    match omit_fields with Some o => set_of o | None => [] end in
  let _omit_fields := set_add "id" _omit_fields in
  let _omit_fields := set_discard key_field _omit_fields in
  let _omit_fields :=
    if insert_new then set_difference _omit_fields default_fields
    else _omit_fields in
  let sample_pipeline :=
    match _omit_fields with
    | _ :: _ =>
        (sample_pipeline
           ++ [Unset (map (get_default db_fields_map) _omit_fields)])%list
    | [] => sample_pipeline
    end in
  when_matched <-
    (if skip_existing then ret (inl "keepExisting")
     else
       let delete_fields :=
         if insert_new then
           let d1 :=
             match fields with
             | Some d =>
                 filter (fun f => negb (mem f (map snd d))) default_fields
             | None => []
             end in
           match omit_fields with
           | Some o =>
               fold_left (fun s f => set_add f s)
                 (filter (fun f => mem f o) default_fields) d1
           | None => d1
           end
         else [] in
       p <- lift (_merge_docs src_collection merge_lists fields omit_fields
                    delete_fields overwrite false) ;;
       ret (inr p)) ;;
  let when_not_matched := if insert_new then "insert" else "discard" in
  let sample_pipeline :=
    (sample_pipeline
       ++ [Merge (_sample_collection_name dst_dataset) [key_field]
             when_matched when_not_matched])%list in
  _aggregate src_dataset sample_pipeline ;;;
  (* Cleanup indexes *)
  (if new_src_index : bool
   then Dataset_drop_index src_collection key_field else ret tt) ;;;
  (if dropped_src_index : bool
   then Dataset_create_index src_collection key_field false else ret tt) ;;;
  (if new_dst_index : bool
   then Dataset_drop_index dst_dataset key_field else ret tt) ;;;
  (if dropped_dst_index : bool
   then Dataset_create_index dst_dataset key_field false else ret tt) ;;;
  (* Merge frames *)
  if is_video : bool then
    let db_fields_map := _get_db_fields_map src_collection true in
    frame_pipeline <- lift (_pipeline src_collection None false false true) ;;
    let frame_pipeline :=
      match frame_fields with
      | Some d =>
          let project := project_fields db_fields_map d in
          let project := set frame_key_field (PBool true) project in
          let project := set "frame_number" (PBool true) project in
          (frame_pipeline ++ [Project project])%list
      | None => frame_pipeline
      end in
    let _omit_frame_fields :=
      match omit_frame_fields with Some o => set_of o | None => [] end in
    let _omit_frame_fields :=
      set_add "_sample_id" (set_add "id" _omit_frame_fields) in
    let _omit_frame_fields := set_discard frame_key_field _omit_frame_fields in
    let _omit_frame_fields := set_discard "frame_number" _omit_frame_fields in
    let frame_pipeline :=
      (frame_pipeline
         ++ [Unset (map (get_default db_fields_map) _omit_frame_fields)])%list
    in
    when_frame_matched <-
      (if skip_existing then ret (inl "keepExisting")
       else
         p <- lift (_merge_docs src_collection merge_lists frame_fields
                      omit_frame_fields [] overwrite true) ;;
         ret (inr p)) ;;
    let frame_pipeline :=
      (frame_pipeline
         ++ [Merge (_frame_collection_name dst_dataset)
               [frame_key_field; "frame_number"]
               when_frame_matched "insert"])%list in
    _aggregate src_dataset frame_pipeline ;;;
    (* Drop indexes *)
    drop_index (_frame_collection_name dst_dataset) dst_frame_index ;;;
    drop_index (_frame_collection_name src_dataset) src_frame_index ;;;
    (* Finalize IDs *)
    _finalize_frames dst_dataset key_field frame_key_field ;;;
    (* Cleanup merge key *)
    update_many_unset (_frame_collection_name src_dataset) frame_key_field ;;;
    update_many_unset (_frame_collection_name dst_dataset) frame_key_field
  else ret tt.

End MergeSamples.

(** ** Frame consistency, in the words of the specification

    "every frame's back-reference resolves to an existing record in the
    destination, and no frame exists for a record absent from the
    destination". *)
Definition frames_consistent (d : database) (self : Dataset) : bool :=
  forallb
    (fun frame =>
       existsb
         (fun sample =>
            eqb (field "_id" (VObj sample)) (field "_sample_id" (VObj frame)))
         (coll d (_sample_collection_name self)))
    (coll d (_frame_collection_name self)).

(** The collaborators of [_merge_samples_pipeline], as the function itself
    shows them to be: it maps the key ["id"] through the field map and
    then compares it with ["_id"], and it names ["filepath"], ["_rand"],
    ["_media_type"] and ["tags"] as default fields. *)
Module Merging.

Definition _get_db_fields_map (_ : Dataset) (frames : bool)
  : list (string * string) :=
  [("id", "_id")].

Definition _get_default_sample_fields (_ : Dataset) : list string :=
  keys default_sample_fields.

Definition frames_prefix : string := "frames.".

Definition strip_frames (f : string) : string :=
  String.substring (String.length frames_prefix)
    (String.length f - String.length frames_prefix) f.

Definition split_frame_fields_dict (d : list (string * string))
  : list (string * string) * list (string * string) :=
  (filter (fun kv => negb (startswith frames_prefix (fst kv))) d,
   map (fun kv => (strip_frames (fst kv), strip_frames (snd kv)))
     (filter (fun kv => startswith frames_prefix (fst kv)) d)).

Definition split_frame_fields_list (l : list string)
  : list string * list string :=
  (filter (fun f => negb (startswith frames_prefix f)) l,
   map strip_frames (filter (startswith frames_prefix) l)).

(** [_merge_samples_pipeline] with these. *)
Definition merge : Dataset -> Dataset -> string -> bool -> bool ->
                   option fields_arg -> option (list string) ->
                   bool -> bool -> M unit :=
  _merge_samples_pipeline _get_db_fields_map _get_default_sample_fields
    split_frame_fields_dict split_frame_fields_list.

End Merging.

(** Two video datasets: [clips] holds [a.mp4], [more] holds [b.mp4], each
    with one frame. *)
Module Clips.

Definition made : Dataset * Dataset * world :=
  Eval vm_compute in
    match
      Example.result
        ((dst <- Dataset__init__ (Some "clips") false true ;;
          '(dst, _) <-
             _add_samples_batch dst
               [Example.video_sample "a.mp4"
                  [(1, [("frame_number", VInt 1); ("weather", VStr "rain")])]]
               true true ;;
          src <- Dataset__init__ (Some "more") false true ;;
          '(src, _) <-
             _add_samples_batch src
               [Example.video_sample "b.mp4"
                  [(1, [("frame_number", VInt 1); ("weather", VStr "sun")])]]
               true true ;;
          ret (dst, src)) Example.empty_world)
    with
    | Some p => p
    | None =>
        (LabelListExample.dataset, LabelListExample.dataset,
         Example.empty_world)
    end.

Definition clips : Dataset := Eval vm_compute in fst (fst made).
Definition more : Dataset := Eval vm_compute in snd (fst made).
Definition world0 : world := Eval vm_compute in snd made.

End Clips.

(** * Further functions of [dataset.py] *)

(** ** What the merge pipeline does to a matched document *)

(** A field name that can be used in a path: no dot in it, no dollar sign
    in front. *)
Fixpoint no_dot (f : string) : bool :=
  match f with
  | EmptyString => true
  | String c rest => negb (Ascii.eqb c ".") && no_dot rest
  end.

Definition plain_field (f : string) : bool :=
  negb (startswith "$" f) && no_dot f.

(** The value [_merge_list_field] gives the field [list_field] when the
    existing document [root] is matched by the incoming document [new]. *)
Definition merged_list_field (root new : doc) (list_field : string)
  : option value :=
  match get list_field (_merge_list_field [] list_field) with
  | Some e => eval (mkEnv (VObj root) [("new", VObj new)]) e
  | None => None
  end.

(** What [_merge_docs] leaves in the field [k] of an existing document
    [root] matched by the incoming document [new], the list fields
    aside. *)
Definition merged_value (overwrite : bool) (delete_fields : list string)
    (k : string) (root new : doc) : option value :=
  let incoming := if mem k delete_fields then None else get k new in
  if overwrite then
    match incoming with
    | Some v => if is_nullish v then get k root else Some v
    | None => get k root
    end
  else
    match get k root with
    | Some v => if is_nullish v then incoming else Some v
    | None => incoming
    end.

(** A document as the store holds it: no field twice, no field without a
    value. *)
Definition well_formed (d : doc) : Prop :=
  NoDup (keys d) /\ Forall (fun kv => stored (snd kv)) d.

(** What merging two lists comes to: the list that is there when the other
    is null or missing; else the existing elements, then the incoming ones
    that are not among them. *)
Definition union_lists (existing incoming : value) : option value :=
  if is_nullish existing then Some incoming
  else if is_nullish incoming then Some existing
  else
    match existing, incoming with
    | VArr xs, VArr ys =>
        Some (VArr (xs ++ filter (fun y => negb (existsb (eqb y) xs)) ys))
    | _, _ => None
    end.

(** ** Dataset names *)

(** [string.ascii_lowercase + string.digits] *)
Definition alphabet : list ascii :=
  list_ascii_of_string "abcdefghijklmnopqrstuvwxyz0123456789".

(** The random source: the [n]-th call of [random.choice] picks the element
    at position [choices n], modulo the length of the sequence. *)
Definition random_choice (choices : nat -> nat) (n : nat) : ascii :=
  nth (choices n mod List.length alphabet) alphabet "a"%char.

(** [_get_random_characters(n)], after [drawn] choices have been made. *)
Fixpoint _get_random_characters (choices : nat -> nat) (drawn n : nat)
  : string :=
  match n with
  | O => EmptyString
  | S n' =>
      String (random_choice choices drawn)
        (_get_random_characters choices (S drawn) n')
  end.

(** The loop [while name in dataset_names: name +=
    _get_random_characters(1)] of [make_unique_dataset_name]; [None] when
    it has not ended after [fuel] rounds. *)
Fixpoint extend_name (fuel : nat) (choices : nat -> nat) (drawn : nat)
    (dataset_names : list string) (name : string) : option string :=
  if mem name dataset_names then
    match fuel with
    | O => None
    | S fuel' =>
        extend_name fuel' choices (S drawn) dataset_names
          (name ++ _get_random_characters choices drawn 1)
    end
  else Some name.

(** [make_unique_dataset_name(root)] *)
Definition make_unique_dataset_name (fuel : nat) (choices : nat -> nat)
    (root : string) : M (option string) :=
  dataset_names <- _list_datasets ;;
  let '(name, drawn) :=
    if mem root dataset_names
    then (root ++ "_" ++ _get_random_characters choices 0 6, 6)
    else (root, 0) in
  ret (extend_name fuel choices drawn dataset_names name).

(** ** Deleting datasets by name *)

(** [delete_dataset(name)] *)
Definition delete_dataset (name : string) : M unit :=
  dataset <- load_dataset name ;;
  delete dataset ;;;
  ret tt.

(** Python's [sorted] on a list of strings. *)
Fixpoint insert_name (s : string) (l : list string) : list string :=
  match l with
  | [] => [s]
  | t :: l' => if String.leb s t then s :: l else t :: insert_name s l'
  end.

Definition sorted (l : list string) : list string :=
  fold_right insert_name [] l.

(** [delete_non_persistent_datasets()]: each dataset is loaded with
    [Dataset(name, _create=False, _migrate=False)].  The names come in the
    order [_list_datasets(include_private=True)] sorts them in; [distinct]
    changes nothing where no two datasets have the same name. *)
Definition delete_non_persistent_datasets : M unit :=
  names <- _list_datasets ;;
  for_each (sorted names)
    (fun name =>
       dataset <- Dataset__init__ (Some name) false false ;;
       if negb (persistent dataset) && negb (deleted dataset)
       then delete dataset ;;; ret tt
       else ret tt).

(** The dataset documents as the store keeps them: every document has its
    primary key, no two have the same key, no two the same name. *)
Definition world_ok (w : world) : Prop :=
  pk_fresh w
  /\ NoDup (map foo.id (dataset_docs w))
  /\ NoDup (map foo.name (dataset_docs w)).

(** ** Indexes *)

(** [field_name.split(".", 1)[0]] *)
Definition root_of (field_name : string) : string :=
  match split "." field_name with r :: _ => r | [] => field_name end.

(** The indexes of the sample collection of a dataset, by first key
    field, as [create_index] and [drop_index] look them up. *)
Definition sample_indexes (self : Dataset) (w : world) : list index :=
  coll_indexes (db w) (_sample_collection_name self).

Definition indexed (self : Dataset) (w : world) (field_name : string)
  : option index :=
  get field_name (index_map (sample_indexes self w)).

(** ** Deleting samples *)

(** [collection.delete_many({field: {"$in": values}})]; the request is not
    entered in the trace. *)
Definition delete_many_in (collection field : string) (vs : list value)
  : M unit :=
  fun w =>
    let d := db w in
    (Ok tt,
     with_db
       (mkDb (set collection
                (filter (fun doc =>
                           negb (existsb
                                   (eqb (get_path (split "." field)
                                           (VObj doc))) vs))
                   (coll d collection))
                (colls d))
          (indexes d) (next_oid d)) w).

(** [Dataset.delete_samples(samples_or_ids)], for an iterable of
    [ObjectId]s: [_get_sample_ids] returns them as a list and
    [ObjectId(_id)] is the identity on them. *)
Definition delete_samples (self : Dataset) (sample_ids : list nat)
  : M unit :=
  let _sample_ids := map VOid sample_ids in
  lift (via_getattribute self tt) ;;;
  delete_many_in (_sample_collection_name self) "_id" _sample_ids ;;;
  video <- lift (via_getattribute self (is_video self)) ;;
  if video : bool then
    delete_many_in (_frame_collection_name self) "_sample_id" _sample_ids
  else ret tt.

(** The documents [insert_many] stores for [dicts] when the store's
    counter stands at [next]. *)
Fixpoint with_ids (next : nat) (dicts : list doc) : list doc :=
  match dicts with
  | [] => []
  | d :: dicts' =>
      (if has "_id" d then d else ("_id", VOid next) :: d)
        :: with_ids (if has "_id" d then next else S next) dicts'
  end.

(** ** Merges that do not insert *)

(** Computations that leave every document of every collection alone,
    whether they return or raise. *)
Definition keeps_colls {A : Type} (m : M A) : Prop :=
  forall w r w',
    m w = (r, w') ->
    colls (db w') = colls (db w) /\ dataset_docs w' = dataset_docs w.

(** The steps that do not write. *)
Definition read_only (s : stage) : bool :=
  match s with
  | Merge _ _ _ _ | Out _ => false
  | _ => true
  end.

(** Computations that add no document to, and remove none from, any
    collection, whether they return or raise. *)
Definition keeps_counts {A : Type} (m : M A) : Prop :=
  forall w r w',
    m w = (r, w') ->
    forall c, List.length (coll (db w') c) = List.length (coll (db w) c).

(** * COCO utilities ([fiftyone/utils/coco.py]) *)

Module coco.

(** A binary mask: a two-dimensional array of shape [(height, width)];
    [pixel i j] is [mask[i, j]]. *)
Record Mask : Type :=
  mkMask { height : nat; width : nat; pixel : nat -> nat -> bool }.

(** [mask.ravel(order="F")]: the pixels column by column. *)
Definition ravel_F (mask : Mask) : list bool :=
  flat_map (fun j => map (fun i => pixel mask i j) (seq 0 (height mask)))
    (seq 0 (width mask)).

(** [itertools.groupby]: the runs of equal consecutive elements, each with
    its value. *)
Fixpoint groupby (l : list bool) : list (bool * list bool) :=
  match l with
  | [] => []
  | x :: l' =>
      match groupby l' with
      | (y, g) :: rest =>
          if Bool.eqb x y then (x, x :: g) :: rest
          else (x, [x]) :: (y, g) :: rest
      | [] => [(x, [x])]
      end
  end.

(** [_mask_to_rle(mask)]: the dict with ["counts"] and ["size"]. *)
Definition _mask_to_rle (mask : Mask) : list nat * list nat :=
  let groups := groupby (ravel_F mask) in
  (flat_map
     (fun ige : nat * (bool * list bool) =>
        let '(i, (value, elements)) := ige in
        ((if (i =? 0)%nat && value then [0%nat] else [])
           ++ [List.length elements])%list)
     (combine (seq 0 (List.length groups)) groups),
   [height mask; width mask]).

(** What the counts of an uncompressed RLE stand for: so many pixels of
    value [b], then so many of the other value, and so on; COCO starts with
    the zeros. *)
Fixpoint runs (b : bool) (counts : list nat) : list bool :=
  match counts with
  | [] => []
  | c :: counts' => (repeat b c ++ runs (negb b) counts')%list
  end.






End coco.

(** Groups of alternating value, none of them empty, starting with [v]. *)
Fixpoint alternating (v : bool) (groups : list (bool * list bool)) : Prop :=
  match groups with
  | [] => True
  | (v', g) :: rest =>
      v' = v /\ g = repeat v (List.length g) /\ 0 < List.length g
      /\ alternating (negb v) rest
  end.

(** * Properties *)

(** ** Evaluation equations *)




Lemma eval_ESwitch2 r c1 t1 c2 t2 d :
  eval r (ESwitch [(c1, t1); (c2, t2)] d) =
  match eval r c1 with
  | Some v1 =>
      if truthy v1 then eval r t1
      else match eval r c2 with
           | Some v2 => if truthy v2 then eval r t2 else eval r d
           | None => None
           end
  | None => None
  end.
Proof. reflexivity. Qed.




Lemma get_set_same {A} k (v : A) d : get k (set k v d) = Some v.
Proof.
  induction d as [|[k' v'] d IH]; cbn.
  - now rewrite String.eqb_refl.
  - destruct (String.eqb k k') eqn:E; cbn; rewrite ?String.eqb_refl, ?E; auto.
Qed.


(** ** Label-list merge *)

Section LabelListMerge.

Variables (root new gold gnew : doc) (existing incoming : list value).
Hypothesis Hroot : get "ground_truth" root = Some (VObj gold).
Hypothesis Hgold : get "detections" gold = Some (VArr existing).
Hypothesis Hnew : get "ground_truth" new = Some (VObj gnew).
Hypothesis Hgnew : get "detections" gnew = Some (VArr incoming).
Hypothesis Hex : Forall stored existing.
Hypothesis Hin : Forall stored incoming.










End LabelListMerge.



(** ** Pipeline compilation *)

(** C4, as stated, fails: on a video dataset, [frames_only=True] together
    with [attach_frames=True] and [detach_frames=True] compiles to the join
    followed by the projection that removes [frames]; the pipeline does not
    end with the frames-only suffix. *)
Lemma pipeline_frames_only_with_detach :
  is_video VideoExample.dataset = true
  /\ _pipeline VideoExample.dataset None true true true
     = Ok [frames_lookup VideoExample.dataset; detach_projection]
  /\ ~ (exists front,
           _pipeline VideoExample.dataset None true true true
           = Ok (front ++ frames_only_suffix)%list).
Proof.
  split; [reflexivity|split; [reflexivity|]].
  intros [front H].
  assert (L : List.length [frames_lookup VideoExample.dataset;
                           detach_projection]
              = List.length (front ++ frames_only_suffix)%list)
    by (change (_pipeline VideoExample.dataset None true true true)
          with (Ok [frames_lookup VideoExample.dataset; detach_projection])
          in H;
        injection H as H; now rewrite H).
  rewrite length_app in L. cbn in L. lia.
Qed.

(** C4, amended.  On a dataset that is not a video dataset the compiled
    pipeline is the caller's stages and nothing else, whatever the three
    frame flags are.  On a video dataset with [frames_only=True] the
    pipeline begins with the join of each sample with its frames, goes on
    with the caller's stages, and ends with the frames-only suffix
    (projection to [frames], [$unwind], [$replaceRoot]) unless
    [attach_frames] and [detach_frames] are both set, in which case it ends
    with the projection that removes [frames]. *)
Theorem pipeline_flag_rules :
  forall (self : Dataset) (pipeline : option (list stage))
         (attach_frames detach_frames frames_only : bool),
    _deleted self = false ->
    (is_video self = false ->
     _pipeline self pipeline attach_frames detach_frames frames_only
     = Ok (user_stages pipeline))
    /\ (is_video self = true ->
        frames_only = true ->
        _pipeline self pipeline attach_frames detach_frames frames_only
        = Ok (frames_lookup self :: user_stages pipeline
                ++ (if attach_frames && detach_frames
                    then [detach_projection]
                    else frames_only_suffix))%list).
Proof.
  intros self pipeline a d f Hlive.
  unfold _pipeline, via_getattribute, is_video. rewrite Hlive. cbn.
  split.
  - intros Hv.
    assert (E : match media_type self with
                | Some m => negb (m =? fom.VIDEO)
                | None => true
                end = true)
      by (destruct (media_type self); [now rewrite Hv|reflexivity]).
    rewrite E. cbn. destruct pipeline; reflexivity.
  - intros Hv ->.
    assert (E : match media_type self with
                | Some m => negb (m =? fom.VIDEO)
                | None => true
                end = false)
      by (destruct (media_type self); [now rewrite Hv|discriminate]).
    rewrite E. cbn.
    destruct a, d, pipeline; cbn; rewrite ?app_nil_r; reflexivity.
Qed.

Lemma pipeline_flag_rules_example :
  _pipeline LabelListExample.dataset (Some [Skip 5]) true true true
  = Ok [Skip 5]
  /\ _pipeline VideoExample.dataset (Some [Skip 5]) false true true
     = Ok (frames_lookup VideoExample.dataset :: Skip 5 :: frames_only_suffix).
Proof.
  split.
  - exact (proj1 (pipeline_flag_rules LabelListExample.dataset
                    (Some [Skip 5]) true true true eq_refl) eq_refl).
  - exact (proj2 (pipeline_flag_rules VideoExample.dataset
                    (Some [Skip 5]) false true true eq_refl)
             eq_refl eq_refl).
Defined.

(** ** Reasoning about computations *)

Lemma bind_Ok {A B : Type} (m : M A) (k : A -> M B) w b w' :
  bind m k w = (Ok b, w') ->
  exists a w1, m w = (Ok a, w1) /\ k a w1 = (Ok b, w').
Proof.
  unfold bind. destruct (m w) as [[a|e] w1]; [eauto|discriminate].
Qed.

Lemma bind_Raise {A B : Type} (m : M A) (k : A -> M B) w e w' :
  m w = (Raise e, w') -> bind m k w = (Raise e, w').
Proof. intros H. unfold bind. now rewrite H. Qed.

Lemma bind_step {A B : Type} (m : M A) (k : A -> M B) w a w1 :
  m w = (Ok a, w1) -> bind m k w = k a w1.
Proof. intros H. unfold bind. now rewrite H. Qed.

Lemma lift_Ok {A : Type} (o : outcome A) w a w' :
  lift o w = (Ok a, w') -> o = Ok a /\ w' = w.
Proof. unfold lift. intros H. inversion H. auto. Qed.

Lemma via_getattribute_Ok {A : Type} (self : Dataset) (a b : A) :
  via_getattribute self a = Ok b -> _deleted self = false /\ b = a.
Proof.
  unfold via_getattribute. destruct (_deleted self); [discriminate|].
  intros H. inversion H. auto.
Qed.

Lemma via_getattribute_live {A : Type} (self : Dataset) (a : A) :
  _deleted self = false -> via_getattribute self a = Ok a.
Proof. intros H. unfold via_getattribute. now rewrite H. Qed.

(** ** Numeric indexing *)

(** C9.  For every integer argument (a Python [bool] is one),
    [Dataset.__getitem__] raises a [ValueError]; it makes no request to the
    store and leaves the world as it is. *)
Theorem getitem_integer_raises :
  forall (self : Dataset) (w : world) (k : key),
    isinstance_Integral k = true ->
    exists msg, __getitem__ self k w = (Raise (ValueError msg), w).
Proof.
  intros self w k Hk. unfold __getitem__. rewrite Hk.
  eexists. reflexivity.
Qed.

Lemma getitem_integer_raises_example :
  exists msg,
    __getitem__ LabelListExample.dataset (KInt 3) Example.empty_world
    = (Raise (ValueError msg), Example.empty_world).
Proof.
  exact (getitem_integer_raises LabelListExample.dataset
           Example.empty_world (KInt 3) eq_refl).
Defined.

(** ** Deleted datasets *)

Lemma log_run c w :
  log c w
  = (Ok tt,
     mkWorld (db w) (dataset_docs w) (trace w ++ [c])%list (now w)
       (expiries w)).
Proof. reflexivity. Qed.

Lemma delete_live (self : Dataset) (w : world) :
  _deleted self = false ->
  exists w', delete self w = (Ok (with_deleted true self), w').
Proof.
  intros Hlive. unfold delete, clear, _delete_dataset_doc, drop, delete_doc.
  unfold bind, lift, log, ret. rewrite (via_getattribute_live _ _ Hlive).
  eexists. reflexivity.
Qed.

Lemma getattribute_deleted (self : Dataset) (attr : string) :
  _deleted self = true ->
  always_available attr = false ->
  __getattribute__ self attr = Raise (deleted_error self).
Proof.
  intros Hd Ha. unfold __getattribute__. now rewrite Ha, Hd.
Qed.

Lemma mem_cases (s : string) (l : list string) :
  mem s l = true -> In s l.
Proof.
  unfold mem. rewrite existsb_exists. intros (x & Hx & E).
  apply String.eqb_eq in E. now subst.
Qed.

(** C5, as stated, fails: once a dataset is deleted, its [_doc] attribute
    (which is neither [name] nor [deleted]) is still served, and with it
    the whole dataset document. *)
Lemma deleted_dataset_still_serves_doc :
  exists self' w',
    delete LabelListExample.dataset Example.empty_world = (Ok self', w')
    /\ ~ (forall attr,
             attr <> "name" -> attr <> "deleted" ->
             exists e, __getattribute__ self' attr = Raise e).
Proof.
  do 2 eexists. split; [reflexivity|].
  intros H. destruct (H "_doc") as [e He]; try discriminate.
Qed.

(** C5, amended.  When [Dataset.delete()] has completed (it does on any
    dataset that is not yet deleted), reading any attribute of the
    instance, hence calling any of its methods, fails at once with the
    [ValueError] "Dataset '...' is deleted", except for [name] and
    [deleted], which are still read, for the private [_deleted] and [_doc]
    and for the names that begin with a double underscore.  No method is
    reachable any more under a name that does not begin with a double
    underscore, [delete] included, so nothing can make the instance usable
    again. *)
Theorem deleted_dataset_is_unusable :
  forall (self : Dataset) (w : world),
    _deleted self = false ->
    exists self' w',
      delete self w = (Ok self', w')
      /\ (forall attr,
             always_available attr = false ->
             __getattribute__ self' attr = Raise (deleted_error self'))
      /\ __getattribute__ self' "name" = Ok (AttrStr (name self))
      /\ __getattribute__ self' "deleted" = Ok (AttrBool true)
      /\ (forall attr method,
             startswith "__" attr = false ->
             __getattribute__ self' attr <> Ok (AttrMethod method))
      /\ (forall w1, delete self' w1 = (Raise (deleted_error self'), w1)).
Proof.
  intros self w Hlive.
  destruct (delete_live self w Hlive) as [w' Hdel].
  exists (with_deleted true self), w'.
  split; [exact Hdel|].
  split; [intros attr Ha; now apply getattribute_deleted|].
  split; [reflexivity|]. split; [reflexivity|]. split.
  - intros attr method Hdunder.
    destruct (always_available attr) eqn:Ha.
    + unfold always_available in Ha. rewrite Hdunder in Ha. cbn [orb] in Ha.
      apply mem_cases in Ha.
      destruct Ha as [<-|[<-|[<-|[<-|[]]]]]; discriminate.
    + rewrite getattribute_deleted by (reflexivity || assumption).
      discriminate.
  - intros w1. reflexivity.
Qed.

Lemma deleted_dataset_is_unusable_example :
  exists self' w',
    delete LabelListExample.dataset Example.empty_world = (Ok self', w')
    /\ __getattribute__ self' "clone" = Raise (deleted_error self')
    /\ __getattribute__ self' "media_type" = Raise (deleted_error self').
Proof.
  destruct (deleted_dataset_is_unusable LabelListExample.dataset
              Example.empty_world eq_refl)
    as (self' & w' & Hdel & Hattr & _).
  exists self', w'.
  split; [exact Hdel|].
  split; apply Hattr; reflexivity.
Defined.

(** ** Cloning *)

Lemma keeps_docs_bind {A B : Type} (m : M A) (k : A -> M B) :
  keeps_docs m -> (forall a, keeps_docs (k a)) -> keeps_docs (bind m k).
Proof.
  intros Hm Hk w r w'. unfold bind.
  destruct (m w) as [[a|e] w1] eqn:E.
  - intros H. rewrite (Hk a _ _ _ H). exact (Hm _ _ _ E).
  - intros H. inversion H; subst. exact (Hm _ _ _ E).
Qed.

Lemma keeps_docs_ret {A : Type} (a : A) : keeps_docs (ret a).
Proof. intros w r w' H. now inversion H. Qed.

Lemma keeps_docs_raise {A : Type} (e : exn) : keeps_docs (@raise A e).
Proof. intros w r w' H. now inversion H. Qed.

Lemma keeps_docs_lift {A : Type} (o : outcome A) : keeps_docs (lift o).
Proof. intros w r w' H. now inversion H. Qed.

Lemma keeps_docs_log c : keeps_docs (log c).
Proof. intros w r w' H. now inversion H. Qed.

Lemma keeps_docs_aggregate_all c p : keeps_docs (aggregate_all c p).
Proof.
  apply keeps_docs_bind; [apply keeps_docs_log|]. intros _ w r w'.
  destruct (aggregate (db w) c p) as [[ds|] d']; intros H; inversion H; reflexivity.
Qed.

Lemma keeps_docs_create_index c k u : keeps_docs (create_index c k u).
Proof.
  apply keeps_docs_bind; [apply keeps_docs_log|]. intros _ w r w'.
  cbv beta zeta.
  repeat match goal with |- context [if ?b then _ else _] => destruct b end;
    intros H; inversion H; reflexivity.
Qed.

Lemma keeps_docs_list_collection_names : keeps_docs list_collection_names.
Proof.
  apply keeps_docs_bind; [apply keeps_docs_log|]. intros _ w r w' H.
  inversion H; reflexivity.
Qed.

Lemma keeps_db_bind {A B : Type} (m : M A) (k : A -> M B) :
  keeps_db m -> (forall a, keeps_db (k a)) -> keeps_db (bind m k).
Proof.
  intros Hm Hk w r w'. unfold bind.
  destruct (m w) as [[a|e] w1] eqn:E.
  - intros H. rewrite (Hk a _ _ _ H). exact (Hm _ _ _ E).
  - intros H. inversion H; subst. exact (Hm _ _ _ E).
Qed.

Lemma keeps_db_log c : keeps_db (log c).
Proof. intros w r w' H. now inversion H. Qed.

Lemma keeps_db_get_dataset_doc n : keeps_db (get_dataset_doc n).
Proof.
  apply keeps_db_bind; [apply keeps_db_log|]. intros _ w r w' H.
  inversion H; reflexivity.
Qed.

Lemma keeps_docs_get_dataset_doc n : keeps_docs (get_dataset_doc n).
Proof.
  apply keeps_docs_bind; [apply keeps_docs_log|]. intros _ w r w' H.
  inversion H; reflexivity.
Qed.

Lemma get_dataset_doc_Ok n w r w' :
  get_dataset_doc n w = (Ok r, w') ->
  r = find_dataset_doc n (dataset_docs w)
  /\ db w' = db w /\ dataset_docs w' = dataset_docs w.
Proof.
  intros H. split; [|split].
  - unfold get_dataset_doc, bind, log in H. now inversion H.
  - exact (keeps_db_get_dataset_doc n _ _ _ H).
  - exact (keeps_docs_get_dataset_doc n _ _ _ H).
Qed.

Lemma dataset_exists_Ok n w b w' :
  dataset_exists n w = (Ok b, w') ->
  (b = false -> find_dataset_doc n (dataset_docs w) = None)
  /\ db w' = db w /\ dataset_docs w' = dataset_docs w.
Proof.
  unfold dataset_exists. intros H.
  apply bind_Ok in H. destruct H as (d & w1 & H1 & H2).
  apply get_dataset_doc_Ok in H1. destruct H1 as (-> & Hdb & Hdocs).
  inversion H2; subst. split; [|auto].
  destruct (find_dataset_doc n (dataset_docs w)); [discriminate|reflexivity].
Qed.

Lemma reload_doc_Ok d w d' w' :
  reload_doc d w = (Ok d', w') ->
  find (same_pk d) (dataset_docs w) = Some d'
  /\ db w' = db w /\ dataset_docs w' = dataset_docs w.
Proof.
  unfold reload_doc, bind, log. cbn.
  destruct (find (same_pk d) (dataset_docs w)); intros H; inversion H; auto.
Qed.

Lemma _reload_Ok self w self' w' :
  _reload self w = (Ok self', w') ->
  find (same_pk (_doc self)) (dataset_docs w) = Some (_doc self')
  /\ _deleted self' = false
  /\ _sample_doc_cls self' = _sample_doc_cls self
  /\ db w' = db w /\ dataset_docs w' = dataset_docs w.
Proof.
  unfold _reload. intros H.
  apply bind_Ok in H. destruct H as ([] & w1 & H1 & H).
  apply lift_Ok in H1. destruct H1 as [H1 ->].
  apply via_getattribute_Ok in H1. destruct H1 as [Hlive _].
  apply bind_Ok in H. destruct H as (d' & w2 & H2 & H).
  apply reload_doc_Ok in H2. destruct H2 as (Hf & Hdb & Hdocs).
  inversion H; subst. cbn. auto.
Qed.

Lemma _make_sample_collection_name_Ok p f w n w' :
  _make_sample_collection_name p f w = (Ok n, w') ->
  db w' = db w /\ dataset_docs w' = dataset_docs w.
Proof.
  unfold _make_sample_collection_name, list_collection_names, bind, log.
  cbn. intros H. inversion H. auto.
Qed.

Lemma keeps_docs__create_indexes a b : keeps_docs (_create_indexes a b).
Proof.
  unfold _create_indexes.
  repeat (apply keeps_docs_bind; [apply keeps_docs_create_index|intros _]).
  apply keeps_docs_ret.
Qed.

Lemma save_new_Ok d w d' w' :
  foo.id d = None ->
  save d w = (Ok d', w') ->
  d' = with_id (next_oid (db w)) d
  /\ dataset_docs w' = (dataset_docs w ++ [d'])%list.
Proof.
  unfold save, bind, log. cbn. intros Hid. rewrite Hid.
  destruct (existsb _ _); intros H; inversion H; auto.
Qed.

Lemma load_dataset_Ok n w cl w' :
  load_dataset n w = (Ok cl, w') ->
  find_dataset_doc n (dataset_docs w) = Some (_doc cl)
  /\ _deleted cl = false
  /\ dataset_docs w' = dataset_docs w.
Proof.
  unfold load_dataset, Dataset__init__. intros H.
  apply bind_Ok in H. destruct H as (n' & w1 & H1 & H).
  inversion H1; subst n' w1.
  apply bind_Ok in H. destruct H as ([[d sc] fc] & w2 & H2 & H).
  inversion H; subst. cbn.
  unfold _load_dataset in H2.
  apply bind_Ok in H2. destruct H2 as (found & w3 & H3 & H2).
  apply get_dataset_doc_Ok in H3. destruct H3 as (-> & Hdb & Hdocs).
  destruct (find_dataset_doc n (dataset_docs w)) as [dd|]; [|discriminate].
  inversion H2; subst. auto.
Qed.

Lemma find_app_some {A} (p : A -> bool) l l' a :
  find p l = Some a -> find p (l ++ l') = Some a.
Proof.
  induction l as [|x l IH]; cbn; [discriminate|].
  destruct (p x); auto.
Qed.

Lemma find_app_none {A} (p : A -> bool) l l' :
  find p l = None -> find p (l ++ l') = find p l'.
Proof.
  induction l as [|x l IH]; cbn; [reflexivity|].
  destruct (p x); [discriminate|auto].
Qed.

Lemma map_replace_fresh (d : foo.DatasetDocument) i docs :
  foo.id d = Some i ->
  Forall (fun x => match foo.id x with
                   | Some j => j < i
                   | None => False
                   end) docs ->
  map (fun x => if same_pk x d then d else x) docs = docs.
Proof.
  intros Hid. induction 1 as [|x l Hx Hl IH]; [reflexivity|].
  cbn. rewrite IH. unfold same_pk. rewrite Hid.
  destruct (foo.id x) as [j|]; [|contradiction].
  destruct (Nat.eqb_spec j i); [lia|reflexivity].
Qed.

Lemma same_pk_ids a b i :
  foo.id a = Some i -> foo.id b = Some i -> same_pk a b = true.
Proof. intros Ha Hb. unfold same_pk. now rewrite Ha, Hb, Nat.eqb_refl. Qed.

Lemma save_last_Ok d w d' w' i docs old :
  foo.id d = Some i ->
  foo.id old = Some i ->
  dataset_docs w = (docs ++ [old])%list ->
  Forall (fun x => match foo.id x with
                   | Some j => j < i
                   | None => False
                   end) docs ->
  save d w = (Ok d', w') ->
  d' = d /\ dataset_docs w' = (docs ++ [d])%list.
Proof.
  intros Hid Hold Hdocs Hfresh H.
  unfold save, bind, log in H. cbn [dataset_docs db] in H.
  destruct (existsb _ _) in H; [discriminate|].
  rewrite Hid in H.
  assert (E : existsb (same_pk d) (dataset_docs w) = true).
  { rewrite Hdocs, existsb_app. cbn.
    now rewrite (same_pk_ids d old i), orb_true_r. }
  rewrite E in H. inversion H; subst d' w'. split; [reflexivity|].
  cbn. rewrite Hdocs, map_app. cbn.
  rewrite (same_pk_ids old d i) by assumption.
  now rewrite (map_replace_fresh d i).
Qed.

Lemma _clone_runs_Ok cl src_doc w cl' w' docs i :
  foo.id (_doc cl) = Some i ->
  dataset_docs w = (docs ++ [_doc cl])%list ->
  Forall (fun x => match foo.id x with
                   | Some j => j < i
                   | None => False
                   end) docs ->
  _clone_runs cl src_doc w = (Ok cl', w') ->
  foo.persistent (_doc cl') = foo.persistent (_doc cl)
  /\ foo.name (_doc cl') = foo.name (_doc cl)
  /\ dataset_docs w' = (docs ++ [_doc cl'])%list.
Proof.
  intros Hid Hdocs Hfresh H. unfold _clone_runs in H.
  apply bind_Ok in H. destruct H as ([] & w1 & H1 & H).
  apply lift_Ok in H1. destruct H1 as [_ ->].
  apply bind_Ok in H. destruct H as (d' & w2 & H2 & H).
  inversion H; subst cl' w'. cbn [_doc with_doc].
  apply (save_last_Ok _ _ _ _ i docs (_doc cl)) in H2; auto.
  destruct H2 as [-> Hd]. cbn. auto.
Qed.

(** C10.  Whenever [Dataset.clone] returns, the clone's [persistent] flag is
    [False], in memory and in its persisted dataset document, whatever the
    flag of the source is; the persisted flag of the source is what it was
    before, and the source object, reloaded by the operation, carries that
    persisted flag (so its own flag has not changed if it agreed with the
    persisted one). *)
Theorem clone_is_not_persistent :
  forall (self : Dataset) (new_name : option string) (w : world)
         (source clone_dataset : Dataset) (w' : world),
    pk_fresh w ->
    clone self new_name w = (Ok (source, clone_dataset), w') ->
    persistent clone_dataset = false
    /\ option_map foo.persistent
         (find_dataset_doc (name clone_dataset) (dataset_docs w'))
       = Some false
    /\ option_map foo.persistent
         (find (same_pk (_doc self)) (dataset_docs w'))
       = option_map foo.persistent
           (find (same_pk (_doc self)) (dataset_docs w))
    /\ Some (persistent source)
       = option_map foo.persistent
           (find (same_pk (_doc self)) (dataset_docs w))
    /\ (option_map foo.persistent
          (find (same_pk (_doc self)) (dataset_docs w))
        = Some (persistent self) ->
        persistent source = persistent self).
Proof.
  intros self name0 w source cl w' Hfresh H.
  unfold clone, _clone in H.
  apply bind_Ok in H. destruct H as ([] & w1 & H1 & H).
  apply lift_Ok in H1. destruct H1 as [_ ->].
  apply bind_Ok in H. destruct H as (n & w1 & Hn & H).
  assert (Hw1 : db w1 = db w /\ dataset_docs w1 = dataset_docs w).
  { destruct name0; unfold ret, get_default_dataset_name, _list_datasets, bind in Hn;
      inversion Hn; auto. }
  destruct Hw1 as [Hdb1 Hdocs1]. clear Hn.
  unfold _clone_dataset_or_view in H.
  apply bind_Ok in H. destruct H as (ex & w2 & Hex & H).
  apply dataset_exists_Ok in Hex. destruct Hex as (Hnone & Hdb2 & Hdocs2).
  destruct ex; [discriminate|]. specialize (Hnone eq_refl).
  apply bind_Ok in H. destruct H as (ds & w3 & Hrel & H).
  apply _reload_Ok in Hrel.
  destruct Hrel as (Hfind & Hlive & Hcls & Hdb3 & Hdocs3).
  apply bind_Ok in H. destruct H as (scn & w4 & Hscn & H).
  apply _make_sample_collection_name_Ok in Hscn. destruct Hscn as [Hdb4 Hdocs4].
  apply bind_Ok in H. destruct H as (d1 & w5 & Hsave & H).
  apply save_new_Ok in Hsave; [|reflexivity]. destruct Hsave as [Hd1 Hdocs5].
  apply bind_Ok in H. destruct H as ([] & w6 & Hidx & H).
  apply keeps_docs__create_indexes in Hidx.
  apply bind_Ok in H. destruct H as (pl & w7 & Hpl & H).
  apply lift_Ok in Hpl. destruct Hpl as [_ ->].
  apply bind_Ok in H. destruct H as (r8 & w8 & Hagg & H).
  apply keeps_docs_aggregate_all in Hagg.
  apply bind_Ok in H. destruct H as ([] & w9 & Hfr & H).
  assert (Hdocs9 : dataset_docs w9 = dataset_docs w8).
  { destruct (is_video ds).
    - apply bind_Ok in Hfr. destruct Hfr as (r & w10 & Ha & Hr).
      inversion Hr; subst. now apply keeps_docs_aggregate_all in Ha.
    - now inversion Hfr. }
  clear Hfr.
  apply bind_Ok in H. destruct H as (cl0 & w10 & Hload & H).
  apply load_dataset_Ok in Hload. destruct Hload as (Hcl0 & Hcl0live & Hdocs10).
  apply bind_Ok in H. destruct H as (cl1 & w11 & Hruns & H).
  inversion H; subst source cl w'. clear H.
  (* the documents when the clone is loaded *)
  assert (Hall : dataset_docs w10 = (dataset_docs w ++ [d1])%list)
    by congruence.
  assert (Hnone' : find_dataset_doc n (dataset_docs w) = None) by congruence.
  assert (Hd1n : foo.name d1 = n) by (subst d1; reflexivity).
  assert (Hcl0doc : _doc cl0 = d1).
  { rewrite <- Hdocs10, Hall in Hcl0. unfold find_dataset_doc in *.
    rewrite find_app_none in Hcl0 by assumption. cbn in Hcl0.
    rewrite Hd1n, String.eqb_refl in Hcl0. congruence. }
  assert (Hsrc : find (same_pk (_doc self)) (dataset_docs w) = Some (_doc ds))
    by congruence.
  assert (Hfinal : foo.persistent (_doc cl1) = false
                   /\ foo.name (_doc cl1) = n
                   /\ dataset_docs w11 = (dataset_docs w ++ [_doc cl1])%list).
  { destruct (negb _ || negb _) in Hruns.
    - apply (_clone_runs_Ok _ _ _ _ _ (dataset_docs w) (next_oid (db w)))
        in Hruns.
      + destruct Hruns as (Hp & Hn & Hd). rewrite Hp, Hn, Hcl0doc.
        subst d1. cbn. repeat split; try reflexivity.
        rewrite Hd. reflexivity.
      + rewrite Hcl0doc. subst d1. cbn. congruence.
      + rewrite Hcl0doc. exact Hall.
      + exact Hfresh.
    - inversion Hruns; subst cl1 w11. rewrite Hcl0doc.
      subst d1. cbn. repeat split; try reflexivity. exact Hall. }
  destruct Hfinal as (Hp & Hn & Hd).
  split; [exact Hp|]. split; [|split; [|split]].
  - unfold name. rewrite Hn, Hd. unfold find_dataset_doc in *.
    rewrite find_app_none by assumption. cbn.
    rewrite Hn, String.eqb_refl. cbn. now rewrite Hp.
  - rewrite Hd. now rewrite (find_app_some _ _ _ _ Hsrc), Hsrc.
  - rewrite Hsrc. reflexivity.
  - rewrite Hsrc. cbn. intros E. now inversion E.
Qed.

Lemma clone_is_not_persistent_example :
  persistent Photos.dataset = true
  /\ exists source clone_dataset w',
       clone Photos.dataset (Some "copy") Photos.world0
       = (Ok (source, clone_dataset), w')
       /\ persistent clone_dataset = false
       /\ persistent source = true.
Proof.
  split; [reflexivity|].
  assert (Hfresh : pk_fresh Photos.world0).
  { unfold pk_fresh. cbn. repeat constructor. }
  assert (Hclone : clone Photos.dataset (Some "copy") Photos.world0
                   = Photos.cloned) by (vm_compute; reflexivity).
  unfold Photos.cloned in Hclone.
  destruct (clone_is_not_persistent _ _ _ _ _ _ Hfresh Hclone)
    as (Hp & _ & _ & _ & Hsame).
  do 3 eexists. split; [exact Hclone|]. split; [exact Hp|].
  rewrite (Hsame eq_refl). reflexivity.
Defined.

(** ** Iteration *)

Lemma run_pipeline_app db p q ds :
  run_pipeline db (p ++ q) ds =
  match run_pipeline db p ds with
  | (Some ds', db') => run_pipeline db' q ds'
  | (None, db') => (None, db')
  end.
Proof.
  revert db ds. induction p as [|s p IH]; intros db ds; cbn [app run_pipeline].
  - reflexivity.
  - destruct (run_stage db [] s ds) as [[ds'|] db']; [apply IH|reflexivity].
Qed.

Lemma aggregate_skip db c p ds k :
  aggregate db c p = (Some ds, db) ->
  aggregate db c (p ++ [Skip k]) = (Some (skipn k ds), db).
Proof.
  unfold aggregate. intros H. rewrite run_pipeline_app, H. reflexivity.
Qed.

Lemma iter_samples_resumes :
  forall (depth : nat) (self : Dataset),
    _deleted self = false ->
    forall (pipeline : list stage) (ds : list doc) (w : world),
      List.length (expiries w) <= depth ->
      aggregate (db w) (_sample_collection_name self) pipeline
      = (Some ds, db w) ->
      exists w',
        _iter_samples depth self pipeline w = ((map from_doc ds, None), w')
        /\ db w' = db w
        /\ dataset_docs w' = dataset_docs w
        /\ trace w'
           = (trace w
                ++ reissued (_sample_collection_name self) pipeline
                     (List.length ds) (expiries w))%list.
Proof.
  induction depth as [|depth IH]; intros self Hlive pipeline ds w Hd Hagg.
  - destruct (expiries w) as [|k rest] eqn:Ex; [|cbn in Hd; lia].
    cbn [_iter_samples]. rewrite (via_getattribute_live _ _ Hlive).
    unfold open_cursor, aggregate_all, bind, log. cbn [db expiries].
    rewrite Hagg. cbn. rewrite Ex.
    eexists. split; [reflexivity|]. cbn. auto.
  - cbn [_iter_samples]. rewrite (via_getattribute_live _ _ Hlive).
    unfold open_cursor, aggregate_all, bind, log. cbn [db expiries].
    rewrite Hagg. cbn [with_db db dataset_docs trace now expiries].
    destruct (expiries w) as [|k rest] eqn:Ex.
    + eexists. split; [reflexivity|]. cbn. auto.
    + destruct (Nat.leb_spec k (List.length ds)) as [Hk|Hk].
      * set (w1 := mkWorld (db w) (dataset_docs w)
                     (trace w ++ [CallAggregate (_sample_collection_name self) pipeline])
                     (now w) rest).
        rewrite length_map, length_firstn, Nat.min_l by assumption.
        destruct (IH self Hlive (pipeline ++ [Skip k])%list (skipn k ds) w1)
          as (w' & Hrun & Hdb & Hdocs & Htr).
        { cbn in Hd |- *. lia. }
        { cbn. now apply aggregate_skip. }
        rewrite Hrun. exists w'. split; [|split; [|split]].
        -- rewrite <- map_app, firstn_skipn. reflexivity.
        -- exact Hdb.
        -- exact Hdocs.
        -- rewrite Htr. cbn [trace expiries w1]. rewrite length_skipn.
           rewrite <- app_assoc. cbn [reissued app].
           apply Nat.leb_le in Hk. now rewrite Hk.
      * eexists. split; [reflexivity|]. cbn.
        apply Nat.leb_gt in Hk. rewrite Hk. auto.
Qed.

Lemma iter_samples_pipeline (self : Dataset) :
  _deleted self = false -> _pipeline self None false true false = Ok [].
Proof.
  intros Hlive. unfold _pipeline. rewrite (via_getattribute_live _ _ Hlive).
  cbn. destruct (media_type self) as [m|]; [|reflexivity].
  destruct (negb (m =? fom.VIDEO)); reflexivity.
Qed.

(** C7.  When cursors expire during an iteration, whatever the moments at
    which they do, the iteration ends without an exception and has yielded
    every sample of the pipeline's result, in order and once: the same
    sequence as an iteration that is not interrupted.  Each expiry is
    answered by re-issuing the pipeline with one more [$skip] step, whose
    count is the number of samples consumed from the cursor that expired,
    so that the skip counts of the pipeline add up to the number of samples
    consumed so far.  This holds for [_iter_samples] on any pipeline that
    only reads, and for [iter_samples]. *)
Theorem cursor_expiry_is_recovered :
  forall (self : Dataset) (pipeline : list stage) (ds : list doc)
         (w : world),
    _deleted self = false ->
    aggregate (db w) (_sample_collection_name self) pipeline
    = (Some ds, db w) ->
    (exists w',
        _iter_samples (List.length (expiries w)) self pipeline w
        = ((map from_doc ds, None), w')
        /\ db w' = db w
        /\ trace w'
           = (trace w
                ++ reissued (_sample_collection_name self) pipeline
                     (List.length ds) (expiries w))%list)
    /\ (exists w',
           iter_samples self w
           = ((map from_doc (coll (db w) (_sample_collection_name self)),
               None), w')
           /\ db w' = db w
           /\ trace w'
              = (trace w
                   ++ reissued (_sample_collection_name self) []
                        (List.length
                           (coll (db w) (_sample_collection_name self)))
                        (expiries w))%list).
Proof.
  intros self pipeline ds w Hlive Hagg. split.
  - destruct (iter_samples_resumes _ self Hlive pipeline ds w (le_n _) Hagg)
      as (w' & Hrun & Hdb & _ & Htr).
    exists w'. auto.
  - unfold iter_samples. rewrite (iter_samples_pipeline _ Hlive).
    destruct (iter_samples_resumes _ self Hlive []
                (coll (db w) (_sample_collection_name self)) w (le_n _)
                eq_refl)
      as (w' & Hrun & Hdb & _ & Htr).
    exists w'. auto.
Qed.

Lemma cursor_expiry_is_recovered_example :
  exists w',
    iter_samples Photos.dataset Expiring.world0
    = ((map from_doc
          (coll (db Expiring.world0)
             (_sample_collection_name Photos.dataset)), None), w')
    /\ trace w'
       = [CallAggregate (_sample_collection_name Photos.dataset) [];
          CallAggregate (_sample_collection_name Photos.dataset) [Skip 1];
          CallAggregate (_sample_collection_name Photos.dataset)
            [Skip 1; Skip 0]].
Proof.
  destruct (cursor_expiry_is_recovered Photos.dataset []
              (coll (db Expiring.world0)
                 (_sample_collection_name Photos.dataset))
              Expiring.world0 eq_refl eq_refl)
    as (_ & w' & Hrun & _ & Htr).
  exists w'. split; [exact Hrun|]. rewrite Htr. reflexivity.
Defined.

(** ** Schema expansion *)

Lemma has_set {A} k (v : A) d f :
  has f (set k v d) = (String.eqb f k || has f d).
Proof.
  unfold has. induction d as [|[k' v'] d IH]; cbn.
  - destruct (String.eqb f k); reflexivity.
  - destruct (String.eqb k k') eqn:E.
    + apply String.eqb_eq in E. subst k'. cbn.
      destruct (String.eqb f k); reflexivity.
    + cbn. destruct (String.eqb f k') eqn:E'.
      * now rewrite orb_true_r.
      * exact IH.
Qed.

Lemma add_implied_field_Ok fr self f v w self' w' :
  add_implied_field fr self f v w = (Ok self', w') ->
  same_object self self'
  /\ schema_grows self self'
  /\ (fr = false -> has f (_fields (_sample_doc_cls self')) = true)
  /\ colls (db w') = colls (db w).
Proof.
  unfold add_implied_field. destruct (get_implied_field v) as [fld|];
    [|discriminate].
  intros H. apply bind_Ok in H. destruct H as (found & w1 & H1 & H).
  inversion H1; subst found w1. clear H1.
  destruct (find _ _) as [dd|]; [|discriminate].
  apply bind_Ok in H. destruct H as (d' & w2 & H2 & H).
  inversion H; subst self' w'. clear H.
  assert (Hc : colls (db w2) = colls (db w)).
  { unfold save, bind, log in H2. cbn in H2.
    repeat match type of H2 with
           | context [if ?b then _ else _] => destruct b
           | context [match ?x with Some _ => _ | None => _ end] => destruct x
           end; inversion H2; reflexivity. }
  destruct fr; cbn.
  - repeat split; auto. intros g Hg. exact Hg. discriminate.
  - repeat split; auto.
    + intros g Hg. cbn. rewrite has_set. now rewrite Hg, orb_true_r.
    + intros _. rewrite has_set. now rewrite String.eqb_refl.
Qed.

Lemma same_object_refl self : same_object self self.
Proof. split; reflexivity. Qed.

Lemma same_object_trans a b c :
  same_object a b -> same_object b c -> same_object a c.
Proof. intros [H1 H2] [H3 H4]. split; congruence. Qed.

Lemma schema_grows_refl self : schema_grows self self.
Proof. intros f H. exact H. Qed.

Lemma schema_grows_trans a b c :
  schema_grows a b -> schema_grows b c -> schema_grows a c.
Proof. intros H1 H2 f H. auto. Qed.

Lemma expand_fields_Ok fr values :
  forall names self exp w self' exp' w',
    expand_fields fr values names self exp w = (Ok (self', exp'), w') ->
    same_object self self'
    /\ schema_grows self self'
    /\ colls (db w') = colls (db w)
    /\ (fr = false ->
        forall f, In f names -> f <> "_id" -> getitem values f <> VNull ->
                  has f (_fields (_sample_doc_cls self')) = true).
Proof.
  induction names as [|n names IH]; intros self exp w self' exp' w' H.
  - inversion H; subst.
    split; [apply same_object_refl|].
    split; [apply schema_grows_refl|]. split; [reflexivity|].
    intros _ f [].
  - cbn [expand_fields] in H.
    destruct (String.eqb n "_id") eqn:Eid.
    { apply IH in H. destruct H as (Hs & Hg & Hc & Hf).
      split; [exact Hs|]. split; [exact Hg|]. split; [exact Hc|].
      intros Hfr f [<-|Hin] Hne Hv; [|now apply Hf].
      apply String.eqb_neq in Hne. congruence. }
    destruct (has n (if fr then _fields (_frame_doc_cls self)
                     else _fields (_sample_doc_cls self))) eqn:Ehas.
    { apply IH in H. destruct H as (Hs & Hg & Hc & Hf).
      split; [exact Hs|]. split; [exact Hg|]. split; [exact Hc|].
      intros Hfr f [<-|Hin] Hne Hv; [|now apply Hf].
      subst fr. now apply Hg. }
    assert (Hadd : forall v,
               getitem values n = v -> v <> VNull ->
               (self1 <- add_implied_field fr self n v ;;
                expand_fields fr values names self1 true) w
               = (Ok (self', exp'), w') ->
               same_object self self'
               /\ schema_grows self self'
               /\ colls (db w') = colls (db w)
               /\ (fr = false ->
                   forall f, In f (n :: names) -> f <> "_id" ->
                             getitem values f <> VNull ->
                             has f (_fields (_sample_doc_cls self')) = true)).
    { intros v Ev Hv H'. apply bind_Ok in H'.
      destruct H' as (self1 & w1 & Ha & H').
      apply add_implied_field_Ok in Ha. destruct Ha as (Hs1 & Hg1 & Hn1 & Hc1).
      apply IH in H'. destruct H' as (Hs & Hg & Hc & Hf).
      split; [eauto using same_object_trans|].
      split; [eauto using schema_grows_trans|].
      split; [congruence|].
      intros Hfr f [<-|Hin] Hne Hv'; [|now apply Hf].
      apply Hg. now apply Hn1. }
    destruct (getitem values n) eqn:Ev;
      try (apply (Hadd _ eq_refl); [discriminate|exact H]).
    apply IH in H. destruct H as (Hs & Hg & Hc & Hf).
    split; [exact Hs|]. split; [exact Hg|]. split; [exact Hc|].
    intros Hfr f [<-|Hin] Hne Hv; [|now apply Hf].
    congruence.
Qed.

Lemma _expand_frame_schema_Ok :
  forall frs self exp w self' exp' w',
    _expand_frame_schema self frs exp w = (Ok (self', exp'), w') ->
    same_object self self'
    /\ schema_grows self self'
    /\ colls (db w') = colls (db w).
Proof.
  induction frs as [|[n fr] frs IH]; intros self exp w self' exp' w' H.
  - inversion H; subst.
    split; [apply same_object_refl|].
    split; [apply schema_grows_refl|reflexivity].
  - cbn [_expand_frame_schema] in H.
    apply bind_Ok in H. destruct H as ([self1 exp1] & w1 & H1 & H).
    apply expand_fields_Ok in H1. destruct H1 as (Hs1 & Hg1 & Hc1 & _).
    cbv beta iota zeta in H.
    apply IH in H. destruct H as (Hs & Hg & Hc).
    split; [eauto using same_object_trans|].
    split; [eauto using schema_grows_trans|congruence].
Qed.

Lemma _validate_media_type_Ok self s :
  _validate_media_type self s = Ok tt ->
  _deleted self = false /\ media_type self = Some (sample_media_type s).
Proof.
  unfold _validate_media_type, via_getattribute.
  destruct (_deleted self); [discriminate|]. cbn.
  destruct (media_type self) as [m|]; [|discriminate].
  destruct (String.eqb_spec m (sample_media_type s)); [|discriminate].
  subst. auto.
Qed.

Lemma expand_samples_Ok :
  forall samples self exp w self' exp' w',
    expand_samples self samples exp w = (Ok (self', exp'), w') ->
    same_object self self'
    /\ schema_grows self self'
    /\ colls (db w') = colls (db w)
    /\ Forall (fun s => media_type self = Some (sample_media_type s)) samples
    /\ (forall s, In s samples ->
          forall f, In f (_get_field_names (sample_fields s) true) ->
                    f <> "_id" -> getitem (sample_fields s) f <> VNull ->
                    has f (_fields (_sample_doc_cls self')) = true).
Proof.
  induction samples as [|s samples IH]; intros self exp w self' exp' w' H.
  - inversion H; subst.
    split; [apply same_object_refl|].
    split; [apply schema_grows_refl|]. split; [reflexivity|].
    split; [constructor|]. intros s [].
  - cbn [expand_samples] in H.
    apply bind_Ok in H. destruct H as ([] & w0 & Hv & H).
    apply lift_Ok in Hv. destruct Hv as [Hv ->].
    apply _validate_media_type_Ok in Hv. destruct Hv as [Hlive Hm].
    apply bind_Ok in H. destruct H as ([self1 exp1] & w1 & H1 & H).
    assert (Hfr : same_object self self1 /\ schema_grows self self1
                  /\ colls (db w1) = colls (db w)).
    { destruct (is_video self).
      - now apply _expand_frame_schema_Ok in H1.
      - inversion H1; subst.
        split; [apply same_object_refl|].
        split; [apply schema_grows_refl|reflexivity]. }
    clear H1. destruct Hfr as (Hs1 & Hg1 & Hc1).
    cbv beta iota zeta in H.
    apply bind_Ok in H. destruct H as ([self2 exp2] & w2 & H2 & H).
    apply expand_fields_Ok in H2. destruct H2 as (Hs2 & Hg2 & Hc2 & Hf2).
    cbv beta iota zeta in H.
    apply IH in H. destruct H as (Hs & Hg & Hc & Hall & Hf).
    assert (Hs12 : same_object self self2)
      by eauto using same_object_trans.
    split; [eauto using same_object_trans|].
    split; [eauto using schema_grows_trans|].
    split; [congruence|]. split.
    + constructor; [exact Hm|].
      eapply Forall_impl; [|exact Hall]. cbn. intros a Ha.
      unfold media_type in *. destruct Hs12 as [Hd _]. now rewrite <- Hd.
    + intros s' [<-|Hin] f Hfn Hne Hval.
      * apply Hg. now apply Hf2.
      * now apply (Hf s').
Qed.

Lemma _expand_schema_Ok self samples w self' w' :
  _expand_schema self samples w = (Ok self', w') ->
  _deleted self' = false
  /\ schema_grows self self'
  /\ colls (db w') = colls (db w)
  /\ Forall (fun s => media_type self = Some (sample_media_type s)) samples
  /\ (forall s, In s samples ->
        forall f, In f (_get_field_names (sample_fields s) true) ->
                  f <> "_id" -> getitem (sample_fields s) f <> VNull ->
                  has f (_fields (_sample_doc_cls self')) = true).
Proof.
  unfold _expand_schema. intros H.
  apply bind_Ok in H. destruct H as ([] & w0 & Hg & H).
  apply lift_Ok in Hg. destruct Hg as [Hg ->].
  apply via_getattribute_Ok in Hg. destruct Hg as [Hlive _].
  apply bind_Ok in H. destruct H as ([self1 exp1] & w1 & H1 & H).
  apply expand_samples_Ok in H1.
  destruct H1 as ([Hd Hdel] & Hgr & Hc & Hall & Hf).
  cbv beta iota zeta in H.
  destruct exp1.
  - apply _reload_Ok in H. destruct H as (_ & Hl & Hcls & Hdb & _).
    split; [exact Hl|].
    split; [intros f Hf'; rewrite Hcls; now apply Hgr|].
    split; [congruence|]. split; [exact Hall|].
    intros s Hin f Hfn Hne Hv. rewrite Hcls. now apply (Hf s).
  - inversion H; subst self' w'.
    split; [congruence|]. split; [exact Hgr|].
    split; [exact Hc|]. split; [exact Hall|exact Hf].
Qed.

Lemma as_inserted_media_type s :
  sample_media_type (as_inserted s) = sample_media_type s.
Proof. unfold as_inserted. destruct (_in_db s); reflexivity. Qed.

Lemma get_copy_fields f (fields : list (string * value)) :
  is_id_field f = false ->
  get f (map (fun kv => if is_id_field (fst kv) then (fst kv, VNull) else kv)
           fields)
  = get f fields.
Proof.
  intros Hf. induction fields as [|[k v] l IH]; [reflexivity|].
  cbn. destruct (is_id_field k) eqn:Ek; cbn.
  - destruct (String.eqb_spec f k); [congruence|exact IH].
  - destruct (String.eqb f k); [reflexivity|exact IH].
Qed.

Lemma as_inserted_get s f :
  is_id_field f = false ->
  get f (sample_fields (as_inserted s)) = get f (sample_fields s).
Proof.
  intros Hf. unfold as_inserted. destruct (_in_db s); [|reflexivity].
  now apply get_copy_fields.
Qed.

Lemma get_In_keys {A} f (l : list (string * A)) v :
  get f l = Some v -> In f (keys l).
Proof.
  induction l as [|[k x] l IH]; cbn; [discriminate|].
  destruct (String.eqb_spec f k); [subst; auto|auto].
Qed.

Lemma filter_all {A} (l : list A) : filter (fun _ => true) l = l.
Proof. induction l; cbn; congruence. Qed.

Lemma set_media_type_Ok self m w self' w' :
  set_media_type self m w = (Ok self', w') ->
  _sample_doc_cls self' = _sample_doc_cls self.
Proof.
  unfold set_media_type. intros H.
  apply bind_Ok in H. destruct H as (n & w1 & _ & H).
  destruct (negb (n =? 0)%nat); [discriminate|].
  destruct (negb (mem m fom.MEDIA_TYPES)); [discriminate|].
  apply bind_Ok in H. destruct H as (d & w2 & _ & H).
  inversion H; subst. reflexivity.
Qed.

Lemma _add_samples_batch_expanded self samples v w self' ids w' :
  _add_samples_batch self samples true v w = (Ok (self', ids), w') ->
  schema_grows self self'
  /\ (forall m, media_type self = Some m ->
             Forall (fun s => sample_media_type s = m) samples)
  /\ (forall s f x,
         In s samples -> get f (sample_fields s) = Some x -> x <> VNull ->
         is_id_field f = false ->
         has f (get_field_schema self' true) = true).
Proof.
  unfold _add_samples_batch. intros H.
  apply bind_Ok in H. destruct H as ([] & w0 & Hg & H).
  apply lift_Ok in Hg. destruct Hg as [_ ->].
  fold as_inserted in H.
  apply bind_Ok in H. destruct H as (self1 & w1 & H1 & H).
  apply bind_Ok in H. destruct H as (self2 & w2 & H2 & H).
  apply _expand_schema_Ok in H2. destruct H2 as (_ & Hgr & _ & Hall & Hf).
  assert (Hcls1 : _sample_doc_cls self1 = _sample_doc_cls self).
  { destruct (media_type self); [now inversion H1|].
    destruct (map _ samples); [now inversion H1|].
    now apply set_media_type_Ok in H1. }
  apply bind_Ok in H. destruct H as ([] & w3 & _ & H).
  apply bind_Ok in H. destruct H as (dicts & w4 & _ & H).
  apply bind_Ok in H. destruct H as ([] & w5 & _ & H).
  inversion H; subst self' ids w'. clear H.
  split; [intros f Hf'; apply Hgr; now rewrite Hcls1|].
  split.
  - intros m Hm. rewrite Hm in H1.
    inversion H1; subst self1 w1.
    rewrite Forall_map in Hall. eapply Forall_impl; [|exact Hall].
    cbn. intros s Hs. rewrite as_inserted_media_type in Hs. congruence.
  - intros s f x Hin Hget Hx Hid.
    unfold get_field_schema. cbn [orb]. rewrite filter_all.
    apply (Hf (as_inserted s)).
    + now apply in_map.
    + unfold _get_field_names. cbn [orb]. rewrite filter_all.
      apply (get_In_keys f _ x). now rewrite as_inserted_get.
    + intros ->. discriminate.
    + unfold getitem. rewrite as_inserted_get, Hget by assumption. exact Hx.
Qed.



(** *** Fields that are [None] are left alone *)













(** ** Media type *)

(** C8, as stated, fails on both counts: an empty dataset has its media
    type set to image and then to video; and a video sample is inserted
    into an image dataset with [expand_schema=False] without any error. *)
Lemma media_type_set_twice_and_unchecked :
  (exists ds1 w1 ds2 w2,
      set_media_type Notes.dataset fom.IMAGE Notes.world0 = (Ok ds1, w1)
      /\ media_type ds1 = Some fom.IMAGE
      /\ set_media_type ds1 fom.VIDEO w1 = (Ok ds2, w2)
      /\ media_type ds2 = Some fom.VIDEO)
  /\ (exists self' ids w',
         media_type Photos.dataset = Some fom.IMAGE
         /\ sample_media_type (Example.video_sample "c.mp4" []) = fom.VIDEO
         /\ _add_samples_batch Photos.dataset
              [Example.video_sample "c.mp4" []] false true Photos.world0
            = (Ok (self', ids), w')
         /\ List.length (coll (db w') (_sample_collection_name self')) = 3).
Proof.
  split.
  - do 4 eexists. split; [vm_compute; reflexivity|].
    split; [reflexivity|]. split; [vm_compute; reflexivity|reflexivity].
  - do 3 eexists. split; [reflexivity|]. split; [reflexivity|].
    split; [vm_compute; reflexivity|reflexivity].
Qed.

Lemma set_media_type_nonempty self m w :
  _deleted self = false ->
  coll (db w) (_sample_collection_name self) <> [] ->
  exists w',
    set_media_type self m w
    = (Raise (ValueError "Cannot set media type of a non-empty dataset"), w')
    /\ db w' = db w
    /\ dataset_docs w' = dataset_docs w.
Proof.
  intros Hlive Hne.
  unfold set_media_type, __len__, count_documents, read, bind, lift, log, ret.
  rewrite (via_getattribute_live _ _ Hlive). cbn [db].
  destruct (coll (db w) (_sample_collection_name self)) as [|d ds];
    [congruence|].
  cbn. eexists. split; [reflexivity|]. auto.
Qed.

Lemma add_sample_mismatch self s v w m :
  _deleted self = false ->
  media_type self = Some m ->
  sample_media_type s <> m ->
  exists msg, add_sample self s true v w = (Raise (MediaTypeError msg), w).
Proof.
  intros Hlive Hm Hne.
  unfold add_sample, _add_samples_batch, _expand_schema.
  unfold bind, lift, ret. rewrite (via_getattribute_live _ _ Hlive).
  rewrite Hm. cbn [map]. rewrite (via_getattribute_live _ _ Hlive).
  cbn [expand_samples]. unfold bind, lift.
  unfold _validate_media_type. rewrite (via_getattribute_live _ _ Hlive).
  cbn [bind_outcome]. rewrite Hm.
  fold (as_inserted s). rewrite as_inserted_media_type.
  destruct (String.eqb_spec m (sample_media_type s)); [congruence|].
  eexists. reflexivity.
Qed.

(** C8, amended.  The media type of a dataset can be set only while the
    dataset is empty: on a dataset that holds samples the setter raises a
    [ValueError] and changes neither the store nor the dataset documents.
    When samples are inserted with [expand_schema=True], the media type of
    every inserted sample is validated against the dataset's: the insertion
    completes only if every sample has the dataset's media type, and adding
    a sample of another media type raises a [MediaTypeError] and leaves the
    world as it is. *)
Theorem media_type_guarded :
  forall (self : Dataset) (w : world) (m : string),
    _deleted self = false ->
    media_type self = Some m ->
    (coll (db w) (_sample_collection_name self) <> [] ->
     forall m',
     exists w',
       set_media_type self m' w
       = (Raise (ValueError "Cannot set media type of a non-empty dataset"),
          w')
       /\ db w' = db w
       /\ dataset_docs w' = dataset_docs w)
    /\ (forall samples validate_ self' ids w',
           _add_samples_batch self samples true validate_ w
           = (Ok (self', ids), w') ->
           Forall (fun s => sample_media_type s = m) samples)
    /\ (forall sample validate_,
           sample_media_type sample <> m ->
           exists msg,
             add_sample self sample true validate_ w
             = (Raise (MediaTypeError msg), w)).
Proof.
  intros self w m Hlive Hm. split; [|split].
  - intros Hne m'. now apply set_media_type_nonempty.
  - intros samples v self' ids w' H.
    apply _add_samples_batch_expanded in H. destruct H as (_ & Hall & _).
    now apply Hall.
  - intros sample v Hne. now apply add_sample_mismatch with (m := m).
Qed.

Lemma media_type_guarded_example :
  (exists w',
      set_media_type Photos.dataset fom.VIDEO Photos.world0
      = (Raise (ValueError "Cannot set media type of a non-empty dataset"),
         w')
      /\ db w' = db Photos.world0
      /\ dataset_docs w' = dataset_docs Photos.world0)
  /\ (exists msg,
         add_sample Photos.dataset (Example.video_sample "c.mp4" []) true
           true Photos.world0
         = (Raise (MediaTypeError msg), Photos.world0)).
Proof.
  destruct (media_type_guarded Photos.dataset Photos.world0 fom.IMAGE
              eq_refl eq_refl) as (Hset & _ & Hadd).
  split.
  - apply Hset. discriminate.
  - apply Hadd. discriminate.
Defined.

(** ** Merging a collection into a dataset *)

(** C6 at its failing input.  The dataset [photos] holds two samples.
    Merged into itself on the identity key ([key_field="id"],
    [overwrite=True], [skip_existing=False], [insert_new=True] by default),
    it holds four: the pipeline removes [_id] from every incoming document
    before the [$merge] on [_id], so that nothing is matched and every
    sample is inserted once more under a fresh identity.  Merged into
    itself on [filepath], it is left as it was. *)
Lemma self_merge_on_id_duplicates_samples :
  let samples := _sample_collection_name Photos.dataset in
  exists w' w'',
    Merging.merge Photos.dataset Photos.dataset "id" false true None None
      true true Photos.world0 = (Ok tt, w')
    /\ List.length (coll (db Photos.world0) samples) = 2
    /\ List.length (coll (db w') samples) = 4
    /\ map (remove "_id") (coll (db w') samples)
       = (map (remove "_id") (coll (db Photos.world0) samples)
            ++ map (remove "_id") (coll (db Photos.world0) samples))%list
    /\ (exists when_matched,
           last (trace w') CallListCollectionNames
           = CallAggregate samples
               [Unset ["_id"];
                Merge samples ["_id"] when_matched "insert"])
    /\ Merging.merge Photos.dataset Photos.dataset "filepath" false true
         None None true true Photos.world0 = (Ok tt, w'')
    /\ coll (db w'') samples = coll (db Photos.world0) samples.
Proof.
  cbv zeta. do 2 eexists.
  split; [vm_compute; reflexivity|].
  split; [reflexivity|]. split; [reflexivity|]. split; [reflexivity|].
  split; [eexists; reflexivity|].
  split; [vm_compute; reflexivity|reflexivity].
Qed.

(** C2 at its failing input.  [clips] and [more] are video datasets whose
    frames all belong to a sample.  Merging [more] into [clips] on
    [filepath] with [insert_new=False] discards the sample [b.mp4] but
    inserts its frame into the frames of [clips]; [_finalize_frames] then
    raises [KeyError], and [clips] is left with a frame that has no
    [_sample_id] and no sample.  With [insert_new=True] the same merge
    completes and the frames of [clips] are consistent. *)
Lemma frames_of_discarded_samples_are_orphaned :
  frames_consistent (db Clips.world0) Clips.clips = true
  /\ frames_consistent (db Clips.world0) Clips.more = true
  /\ (exists w',
         Merging.merge Clips.more Clips.clips "filepath" false false None
           None true true Clips.world0
         = (Raise (KeyError (VStr "b.mp4")), w')
         /\ frames_consistent (db w') Clips.clips = false
         /\ map (fun f => (field "_sample_id" (VObj f),
                           field "_merge_key" (VObj f)))
              (coll (db w') (_frame_collection_name Clips.clips))
            = [(VOid 1001, VStr "a.mp4"); (VMissing, VStr "b.mp4")]
         /\ map (fun s => field "filepath" (VObj s))
              (coll (db w') (_sample_collection_name Clips.clips))
            = [VStr "a.mp4"])
  /\ (exists w',
         Merging.merge Clips.more Clips.clips "filepath" false true None
           None true true Clips.world0
         = (Ok tt, w')
         /\ frames_consistent (db w') Clips.clips = true).
Proof.
  split; [reflexivity|]. split; [reflexivity|]. split.
  - eexists. split; [vm_compute; reflexivity|].
    split; [reflexivity|]. split; reflexivity.
  - eexists. split; [vm_compute; reflexivity|reflexivity].
Qed.

(** * Properties of the further functions *)

Lemma split_no_dot f : no_dot f = true -> split "." f = [f].
Proof.
  induction f as [|c f IH]; [reflexivity|].
  cbn [no_dot split]. intros H. apply andb_true_iff in H. destruct H as [Hc Hf].
  apply negb_true_iff in Hc. rewrite Hc, (IH Hf). reflexivity.
Qed.

Lemma eval_str_field (rho : env) f :
  plain_field f = true ->
  eval_str rho ("$" ++ f) = Some (step (Agg.root rho) f).
Proof.
  unfold plain_field, startswith. intros H.
  apply andb_true_iff in H. destruct H as [H1 H2].
  change ("$" ++ f) with (String "$" f).
  unfold eval_str. rewrite (split_no_dot f H2).
  destruct f as [|c f']; [reflexivity|].
  destruct (Ascii.eqb_spec c "$") as [->|Hc].
  - cbn in H1. destruct f'; discriminate.
  - destruct c as [[] [] [] [] [] [] [] []]; try reflexivity.
    now elim Hc.
Qed.

Lemma eval_str_new_field (rho : env) f v :
  no_dot f = true ->
  get "new" (vars rho) = Some v ->
  eval_str rho ("$$new." ++ f) = Some (step v f).
Proof.
  intros Hf Hv.
  change ("$$new." ++ f) with (String "$" (String "$" ("new." ++ f))).
  unfold eval_str.
  replace (split "." ("new." ++ f)) with ("new" :: split "." f)
    by reflexivity.
  rewrite (split_no_dot f Hf).
  unfold lookup_var. cbn [String.eqb Ascii.eqb Bool.eqb]. rewrite Hv.
  reflexivity.
Qed.

Lemma gtb_null v : gtb v VNull = negb (is_nullish v).
Proof. destruct v; reflexivity. Qed.

Lemma eval_EStr rho s : eval rho (EStr s) = eval_str rho s.
Proof. reflexivity. Qed.

Lemma eval_not_gt_null rho e :
  eval rho (ENot (EGt e ENone))
  = option_map (fun v => VBool (is_nullish v)) (eval rho e).
Proof.
  cbn [eval]. destruct (eval rho e) as [v|]; [|reflexivity].
  cbn [option_map]. rewrite gtb_null. now destruct (is_nullish v).
Qed.

Lemma eval_EConcatArrays2 rho a b :
  eval rho (EConcatArrays [a; b])
  = match eval rho a with
    | Some (VArr xs) =>
        match eval rho b with
        | Some (VArr ys) => Some (VArr (xs ++ ys))
        | Some (VNull | VMissing) => Some VNull
        | _ => None
        end
    | Some (VNull | VMissing) =>
        match eval rho b with
        | Some (VArr _ | VNull | VMissing) => Some VNull
        | _ => None
        end
    | _ => None
    end.
Proof.
  cbn [eval].
  destruct (eval rho a) as [[]|]; destruct (eval rho b) as [[]|];
    rewrite ?app_nil_r; reflexivity.
Qed.

Lemma eval_EFilter_arr rho input x c xs :
  eval rho input = Some (VArr xs) ->
  forall p,
    (forall v, In v xs -> eval (bind_var x v rho) c = Some (VBool (p v))) ->
    eval rho (EFilter input x c) = Some (VArr (filter p xs)).
Proof.
  intros H p Hp. cbn [eval]. rewrite H.
  match goal with
  | |- option_map VArr ?t = _ => assert (t = Some (filter p xs)) as ->
  end; [clear H|reflexivity].
  induction xs as [|v l IH]; [reflexivity|].
  rewrite (Hp v) by (now left).
  rewrite IH by (intros; apply Hp; now right).
  cbn [truthy filter]. now destruct (p v).
Qed.

Lemma eval_EFilter_fails rho input x c v xs :
  eval rho input = Some (VArr (v :: xs)) ->
  eval (bind_var x v rho) c = None ->
  eval rho (EFilter input x c) = None.
Proof. intros H Hc. cbn [eval]. rewrite H, Hc. reflexivity. Qed.

Lemma eval_EFilter_other rho input x c v :
  eval rho input = Some v ->
  match v with VArr _ | VNull | VMissing => False | _ => True end ->
  eval rho (EFilter input x c) = None.
Proof. intros H Hv. cbn [eval]. rewrite H. now destruct v. Qed.

Lemma eval_not_in_this rho v e :
  eval (bind_var "this" v rho) (ENot (EIn (EStr "$$this") e))
  = match eval (bind_var "this" v rho) e with
    | Some (VArr ys) => Some (VBool (negb (existsb (eqb v) ys)))
    | _ => None
    end.
Proof.
  cbn [eval].
  change (eval_str (bind_var "this" v rho) "$$this") with (Some v).
  destruct (eval (bind_var "this" v rho) e) as [[]|]; try reflexivity.
  cbn [option_map truthy]. now destruct (existsb _ _).
Qed.

(** X1.  The expression [_merge_list_field] builds for a list field gives,
    for an existing document and an incoming one: the incoming value when
    the existing one is null or missing; the existing value when the
    incoming one is null or missing; otherwise, both being lists, the
    existing list followed by the incoming elements that are not in it, in
    their order.  When both are there and one of them is not a list, the
    expression has no value. *)
Theorem merge_list_field_is_union :
  forall (root new : doc) (f : string),
    plain_field f = true ->
    merged_list_field root new f
    = union_lists (field f (VObj root)) (field f (VObj new)).
Proof.
  intros root new f Hf.
  assert (Hd : no_dot f = true).
  { unfold plain_field in Hf. now apply andb_true_iff in Hf. }
  unfold merged_list_field, _merge_list_field.
  rewrite get_set_same, eval_ESwitch2, !eval_not_gt_null, !eval_EStr.
  rewrite (eval_str_field _ f Hf).
  rewrite (eval_str_new_field _ f (VObj new) Hd) by reflexivity.
  cbn [Agg.root step option_map truthy].
  unfold union_lists.
  destruct (is_nullish (field f (VObj root))) eqn:Er; [reflexivity|].
  destruct (is_nullish (field f (VObj new))) eqn:En; [reflexivity|].
  rewrite eval_EConcatArrays2, eval_EStr, (eval_str_field _ f Hf).
  cbn [Agg.root step].
  set (rho := {| Agg.root := VObj root; vars := [("new", VObj new)] |}).
  assert (Hnew : eval rho (EStr ("$$new." ++ f)) = Some (field f (VObj new))).
  { rewrite eval_EStr.
    now rewrite (eval_str_new_field rho f (VObj new) Hd eq_refl). }
  assert (Hin : forall v,
             eval (bind_var "this" v rho)
               (ENot (EIn (EStr "$$this") (EStr ("$" ++ f))))
             = match field f (VObj root) with
               | VArr xs => Some (VBool (negb (existsb (eqb v) xs)))
               | _ => None
               end).
  { intros v. rewrite eval_not_in_this, eval_EStr, (eval_str_field _ f Hf).
    reflexivity. }
  destruct (field f (VObj root)) as [| | | | |xs| |] eqn:Fr;
    try discriminate; try reflexivity.
  destruct (field f (VObj new)) as [| | | | |ys| |] eqn:Fn;
    try discriminate;
    try (rewrite (eval_EFilter_other _ _ _ _ _ Hnew I); reflexivity).
  rewrite (eval_EFilter_arr _ _ _ _ _ Hnew
             (fun y => negb (existsb (eqb y) xs))) by (intros; apply Hin).
  reflexivity.
Qed.

Lemma merge_list_field_is_union_example :
  merged_list_field
    [("tags", VArr [VStr "a"; VStr "b"])]
    [("tags", VArr [VStr "b"; VStr "c"])] "tags"
  = Some (VArr [VStr "a"; VStr "b"; VStr "c"]).
Proof.
  rewrite (merge_list_field_is_union _ _ "tags" eq_refl). reflexivity.
Defined.

(** ** Field maps *)

Lemma get_set {A} k k' (v : A) d :
  get k (set k' v d) = if String.eqb k k' then Some v else get k d.
Proof.
  induction d as [|[k1 v1] d IH]; cbn.
  - reflexivity.
  - destruct (String.eqb k' k1) eqn:E1; cbn.
    + apply String.eqb_eq in E1. subst k1. now destruct (String.eqb k k').
    + rewrite IH. destruct (String.eqb k k1) eqn:E2; [|reflexivity].
      apply String.eqb_eq in E2. subst k1.
      rewrite String.eqb_sym in E1. now rewrite E1.
Qed.

Lemma get_app {A} k (d d' : list (string * A)) :
  get k (d ++ d') = match get k d with Some v => Some v | None => get k d' end.
Proof.
  induction d as [|[k1 v1] d IH]; cbn; [reflexivity|].
  now destruct (String.eqb k k1).
Qed.

Lemma get_update {A} k (a b : list (string * A)) :
  get k (update a b)
  = match get k (rev b) with Some v => Some v | None => get k a end.
Proof.
  unfold update. revert a.
  induction b as [|[k1 v1] b IH]; intros a; cbn [fold_left rev fst snd].
  - reflexivity.
  - rewrite IH, get_app, get_set. cbn [get].
    destruct (get k (rev b)); [reflexivity|].
    now destruct (String.eqb k k1).
Qed.

Lemma get_In {A} k (v : A) d : get k d = Some v -> In (k, v) d.
Proof.
  induction d as [|[k1 v1] d IH]; cbn; [discriminate|].
  destruct (String.eqb k k1) eqn:E.
  - apply String.eqb_eq in E. intros H. inversion H; subst. now left.
  - intros H. right. auto.
Qed.

Lemma In_get {A} k (v : A) d :
  NoDup (keys d) -> In (k, v) d -> get k d = Some v.
Proof.
  induction d as [|[k1 v1] d IH]; cbn; [contradiction|].
  intros Hn [H|H].
  - inversion H; subst. now rewrite String.eqb_refl.
  - inversion Hn as [|? ? Hnot Hd]; subst.
    destruct (String.eqb k k1) eqn:E.
    + apply String.eqb_eq in E. subst k1. elim Hnot.
      change k with (fst (k, v)). now apply in_map.
    + auto.
Qed.

Lemma get_rev {A} k (d : list (string * A)) :
  NoDup (keys d) -> get k (rev d) = get k d.
Proof.
  intros Hn.
  assert (Hr : NoDup (keys (rev d))).
  { unfold keys. rewrite map_rev. now apply NoDup_rev. }
  destruct (get k d) as [v|] eqn:E.
  - apply In_get; [exact Hr|]. apply -> in_rev. now apply get_In.
  - destruct (get k (rev d)) as [v|] eqn:E'; [|reflexivity].
    apply get_In in E'. apply in_rev in E'.
    apply (In_get _ _ _ Hn) in E'. congruence.
Qed.

Lemma get_filter {A} k (p : string * A -> bool) d :
  NoDup (keys d) ->
  get k (filter p d)
  = match get k d with
    | Some v => if p (k, v) then Some v else None
    | None => None
    end.
Proof.
  induction d as [|[k1 v1] d IH]; cbn; [reflexivity|].
  intros Hn. inversion Hn as [|? ? Hnot Hd]; subst.
  destruct (String.eqb k k1) eqn:E.
  - apply String.eqb_eq in E. subst k1.
    destruct (p (k, v1)); cbn; [now rewrite String.eqb_refl|].
    rewrite (IH Hd).
    destruct (get k d) as [v|] eqn:G; [|reflexivity].
    elim Hnot. change k with (fst (k, v)). apply in_map. now apply get_In.
  - destruct (p (k1, v1)); cbn; rewrite ?E; auto.
Qed.

Lemma keys_filter_NoDup {A} (p : string * A -> bool) d :
  NoDup (keys d) -> NoDup (keys (filter p d)).
Proof.
  induction d as [|[k1 v1] d IH]; cbn; [auto|].
  intros Hn. inversion Hn as [|? ? Hnot Hd]; subst.
  destruct (p (k1, v1)); cbn; [|auto].
  constructor; [|auto]. intros Hin. apply Hnot.
  unfold keys in *. apply in_map_iff in Hin.
  destruct Hin as ([k v] & E & Hin). apply filter_In in Hin.
  cbn in E. subst. change k1 with (fst (k1, v)). apply in_map. tauto.
Qed.

(** ** The documents of [_merge_docs] *)

Lemma array_to_object_pairs (d acc : doc) :
  Forall (fun kv => stored (snd kv)) d ->
  array_to_object (map kv_pair d) acc = Some (update acc d).
Proof.
  revert acc. induction d as [|[k v] d IH]; intros acc Hs; [reflexivity|].
  inversion Hs as [|? ? Hv Hd]; subst. cbn [map array_to_object].
  assert (E : pair_kv (kv_pair (k, v)) = Some (k, v)).
  { unfold kv_pair, pair_kv, field. cbn. destruct v; try reflexivity.
    now elim Hv. }
  rewrite E. now rewrite IH.
Qed.

Lemma eqb_null v : stored v -> eqb v VNull = is_nullish v.
Proof. destruct v; try reflexivity. intros H. now elim H. Qed.

Lemma eqb_VStr a b : eqb (VStr a) (VStr b) = String.eqb a b.
Proof.
  unfold eqb. cbn [compare].
  destruct (String.eqb_spec a b) as [->|Hne].
  - pose proof (String.compare_antisym b b) as H.
    destruct (String.compare b b); (reflexivity || discriminate).
  - destruct (String.compare a b) eqn:E; try reflexivity.
    apply String.compare_eq_iff in E. contradiction.
Qed.

Lemma existsb_VStr k l : existsb (eqb (VStr k)) (map VStr l) = mem k l.
Proof.
  unfold mem. induction l as [|a l IH]; [reflexivity|].
  cbn [map existsb]. now rewrite eqb_VStr, IH.
Qed.

Lemma eval_literals rho (l : list string) :
  forallb (fun f => negb (startswith "$" f)) l = true ->
  eval rho (EList (map EStr l)) = Some (VArr (map VStr l)).
Proof.
  intros H. cbn [eval].
  match goal with
  | |- option_map VArr ?t = _ => assert (t = Some (map VStr l)) as ->
  end; [|reflexivity].
  induction l as [|a l IH]; [reflexivity|].
  cbn [forallb] in H. apply andb_true_iff in H. destruct H as [Ha Hl].
  cbn [map]. rewrite (IH Hl).
  assert (E : eval rho (EStr a) = Some (VStr a)).
  { cbn [eval]. unfold eval_str. destruct a as [|c a']; [reflexivity|].
    destruct (Ascii.eqb_spec c "$") as [->|Hc].
    - unfold startswith in Ha. cbn in Ha. destruct a'; discriminate.
    - destruct c as [[] [] [] [] [] [] [] []]; try reflexivity. now elim Hc. }
  rewrite E. reflexivity.
Qed.

Lemma eval_item_v rho k v :
  eval_str (bind_var "item" (kv_pair (k, v)) rho) "$$item.v" = Some v.
Proof.
  unfold eval_str. cbn [split Ascii.eqb Bool.eqb].
  unfold lookup_var, bind_var. cbn [String.eqb Ascii.eqb Bool.eqb vars get].
  unfold kv_pair, get_path. cbn. reflexivity.
Qed.

Lemma eval_item_k rho k v :
  eval_str (bind_var "item" (kv_pair (k, v)) rho) "$$item.k" = Some (VStr k).
Proof.
  unfold eval_str. cbn [split Ascii.eqb Bool.eqb].
  unfold lookup_var, bind_var. cbn [String.eqb Ascii.eqb Bool.eqb vars get].
  unfold kv_pair, get_path. cbn. reflexivity.
Qed.

Lemma eval_not_null_item rho k v :
  stored v ->
  eval (bind_var "item" (kv_pair (k, v)) rho) not_null_item
  = Some (VBool (negb (is_nullish v))).
Proof.
  intros Hv. unfold not_null_item. cbn [eval].
  rewrite eval_item_v. now rewrite (eqb_null v Hv).
Qed.

Lemma eval_not_deleted_item rho k v dfs :
  forallb (fun f => negb (startswith "$" f)) dfs = true ->
  eval (bind_var "item" (kv_pair (k, v)) rho) (not_deleted_item dfs)
  = Some (VBool (negb (mem k dfs))).
Proof.
  intros H. unfold not_deleted_item.
  change (eval ?r (ENot (EIn ?a ?b)))
    with (option_map (fun v => VBool (negb (truthy v)))
            (match eval r a, eval r b with
             | Some x, Some (VArr ys) => Some (VBool (existsb (eqb x) ys))
             | _, _ => None
             end)).
  rewrite (eval_literals _ dfs H), eval_EStr, eval_item_k.
  rewrite existsb_VStr. cbn [option_map truthy]. now destruct (mem k dfs).
Qed.

Lemma eval_filter_items rho input d (cond : expr) p :
  eval rho (EStr input) = Some (VObj d) ->
  Forall (fun kv => stored (snd kv)) d ->
  (forall k v, In (k, v) d ->
     eval (bind_var "item" (kv_pair (k, v)) rho) cond
     = Some (VBool (p (k, v)))) ->
  eval rho (filter_items input cond) = Some (VObj (update [] (filter p d))).
Proof.
  intros Hin Hs Hp. unfold filter_items.
  assert (E : eval rho (EFilter (EObjectToArray (EStr input)) "item" cond)
              = Some (VArr (map kv_pair (filter p d)))).
  { assert (Ho : eval rho (EObjectToArray (EStr input))
                 = Some (VArr (map kv_pair d))).
    { cbn [eval]. cbn [eval] in Hin. now rewrite Hin. }
    cbn [eval]. cbn [eval] in Ho. rewrite Ho.
    match goal with
    | |- option_map VArr ?t = _ =>
        assert (t = Some (map kv_pair (filter p d))) as ->
    end; [|reflexivity].
    clear Ho Hin Hs. induction d as [|[k v] d IH]; [reflexivity|].
    cbn [map]. rewrite (Hp k v) by (now left).
    rewrite IH by (intros; apply Hp; now right).
    cbn [truthy filter]. now destruct (p (k, v)). }
  change (eval rho (EArrayToObject ?e))
    with (match eval rho e with
          | Some (VArr xs) => option_map VObj (array_to_object xs [])
          | Some VNull | Some VMissing => Some VNull
          | _ => None
          end).
  rewrite E, array_to_object_pairs; [reflexivity|].
  apply Forall_forall. intros kv Hkv. apply filter_In in Hkv.
  rewrite Forall_forall in Hs. now apply Hs.
Qed.

Lemma eval_EMergeObjects2 rho a b da db_ :
  eval rho a = Some (VObj da) ->
  eval rho b = Some (VObj db_) ->
  eval rho (EMergeObjects [a; b]) = Some (VObj (update (update [] da) db_)).
Proof. intros Ha Hb. cbn [eval]. now rewrite Ha, Hb. Qed.

Lemma set_fresh {A} k (v : A) d :
  ~ In k (keys d) -> set k v d = (d ++ [(k, v)])%list.
Proof.
  induction d as [|[k1 v1] d IH]; cbn; [reflexivity|].
  intros H. destruct (String.eqb_spec k k1) as [->|Hne]; [tauto|].
  rewrite IH; [reflexivity|tauto].
Qed.

Lemma update_fresh {A} (acc d : list (string * A)) :
  NoDup (keys (acc ++ d)) -> update acc d = (acc ++ d)%list.
Proof.
  unfold update. revert acc.
  induction d as [|[k v] d IH]; intros acc Hn; cbn [fold_left fst snd].
  - now rewrite app_nil_r.
  - assert (Hk : ~ In k (keys acc)).
    { unfold keys in *. rewrite map_app in Hn. cbn in Hn.
      apply NoDup_remove_2 in Hn. intros Hin. apply Hn.
      apply in_or_app. now left. }
    rewrite (set_fresh _ _ _ Hk), IH; rewrite <- app_assoc; [reflexivity|].
    exact Hn.
Qed.

Lemma update_nil {A} (d : list (string * A)) :
  NoDup (keys d) -> update [] d = d.
Proof. intros H. now rewrite update_fresh. Qed.

(** X2.  With [merge_lists=False], [_merge_docs] returns one
    [$replaceWith] step.  Run on an existing document matched by an
    incoming one, it leaves a document whose fields are, with
    [overwrite=True], the incoming value unless that is null, missing or
    among [delete_fields], and the existing value then; with
    [overwrite=False], the existing value unless that is null or missing,
    and then the incoming value unless the field is among
    [delete_fields]. *)
Theorem merge_docs_field_by_field :
  forall (sample_collection : Dataset) (root new : doc)
         (delete_fields : list string) (overwrite : bool) (d : database),
    _deleted sample_collection = false ->
    well_formed root ->
    well_formed new ->
    forallb (fun f => negb (startswith "$" f)) delete_fields = true ->
    exists when_matched merged,
      _merge_docs sample_collection false None None delete_fields overwrite
        false = Ok [when_matched]
      /\ run_stage d [("new", VObj new)] when_matched [root]
         = (Some [merged], d)
      /\ forall k,
           get k merged = merged_value overwrite delete_fields k root new.
Proof.
  intros ds root new dfs overwrite d Hlive [Nr Sr] [Nn Sn] Hdfs.
  unfold _merge_docs. rewrite (via_getattribute_live _ _ Hlive).
  cbn [bind_outcome].
  set (rho := {| Agg.root := VObj root; vars := [("new", VObj new)] |}).
  assert (Hroot : eval rho (EStr "$$ROOT") = Some (VObj root)) by reflexivity.
  assert (Hnew : eval rho (EStr "$$new") = Some (VObj new)) by reflexivity.
  assert (Hdel : forall k v,
             eval (bind_var "item" (kv_pair (k, v)) rho)
               (not_deleted_item dfs)
             = Some (VBool (negb (mem k dfs)))).
  { intros. now apply eval_not_deleted_item. }
  destruct overwrite.
  - (* overwrite: the existing document, then the incoming fields that are
       neither null nor deleted *)
    set (p := fun kv : string * value =>
                negb (is_nullish (snd kv)) && negb (mem (fst kv) dfs)).
    set (cond := match dfs with
                 | [] => not_null_item
                 | _ :: _ => EAnd [not_null_item; not_deleted_item dfs]
                 end).
    assert (E : eval rho (filter_items "$$new" cond)
                = Some (VObj (update [] (filter p new)))).
    { apply eval_filter_items; [exact Hnew|exact Sn|].
      intros k v Hkv.
      assert (Hv : stored v).
      { rewrite Forall_forall in Sn. exact (Sn _ Hkv). }
      unfold p, cond. cbn [fst snd].
      destruct dfs as [|f0 dfs'].
      - rewrite (eval_not_null_item _ _ _ Hv). cbn [mem existsb negb].
        now rewrite andb_true_r.
      - change (eval ?r (EAnd [?a; ?b]))
          with (option_map VBool
                  (match eval r a with
                   | Some v1 =>
                       if truthy v1
                       then match eval r b with
                            | Some v2 => if truthy v2 then Some true
                                         else Some false
                            | None => None
                            end
                       else Some false
                   | None => None
                   end)).
        rewrite (eval_not_null_item _ _ _ Hv), Hdel.
        cbn [truthy].
        destruct (is_nullish v), (mem k (f0 :: dfs')); reflexivity. }
    exists (ReplaceWith
              (EMergeObjects [EStr "$$ROOT"; filter_items "$$new" cond])).
    exists (update root (filter p new)).
    split; [unfold cond; destruct dfs; reflexivity|].
    split.
    + cbn [run_stage map_opt]. fold rho.
      rewrite (eval_EMergeObjects2 rho _ _ root _ Hroot E).
      cbn [as_doc].
      rewrite (update_nil root Nr).
      rewrite (update_nil (filter p new)) by (now apply keys_filter_NoDup).
      reflexivity.
    + intros k. unfold merged_value.
      rewrite get_update, get_rev by (now apply keys_filter_NoDup).
      rewrite (get_filter k p new Nn). unfold p. cbn [fst snd].
      destruct (mem k dfs); destruct (get k new) as [v|];
        try reflexivity;
        rewrite ?andb_false_r, ?andb_true_r;
        destruct (is_nullish v); reflexivity.
  - (* no overwrite: the incoming document, then the existing fields that
       are not null *)
    set (p := fun kv : string * value => negb (is_nullish (snd kv))).
    set (q := fun kv : string * value => negb (mem (fst kv) dfs)).
    set (new_doc := match dfs with
                    | [] => EStr "$$new"
                    | _ :: _ => filter_items "$$new" (not_deleted_item dfs)
                    end).
    assert (Er : eval rho (filter_items "$$ROOT" not_null_item)
                 = Some (VObj (update [] (filter p root)))).
    { apply eval_filter_items; [exact Hroot|exact Sr|].
      intros k v Hkv. apply eval_not_null_item.
      rewrite Forall_forall in Sr. exact (Sr _ Hkv). }
    assert (En : eval rho new_doc = Some (VObj (filter q new))).
    { unfold new_doc, q. destruct dfs as [|f0 dfs'].
      - rewrite Hnew. f_equal. f_equal. symmetry.
        apply forallb_filter_id. apply forallb_forall. reflexivity.
      - rewrite (eval_filter_items rho "$$new" new _
                   (fun kv => negb (mem (fst kv) (f0 :: dfs'))) Hnew Sn).
        + rewrite update_nil by (now apply keys_filter_NoDup). reflexivity.
        + intros k v _. apply Hdel. }
    exists (ReplaceWith
              (EMergeObjects
                 [new_doc; filter_items "$$ROOT" not_null_item])).
    exists (update (filter q new) (filter p root)).
    split; [unfold new_doc; destruct dfs; reflexivity|].
    split.
    + cbn [run_stage map_opt]. fold rho.
      rewrite (eval_EMergeObjects2 rho _ _ _ _ En Er).
      cbn [as_doc].
      rewrite (update_nil (filter q new)) by (now apply keys_filter_NoDup).
      rewrite (update_nil (filter p root)) by (now apply keys_filter_NoDup).
      reflexivity.
    + intros k. unfold merged_value.
      rewrite get_update, get_rev by (now apply keys_filter_NoDup).
      rewrite (get_filter k p root Nr), (get_filter k q new Nn).
      unfold p, q. cbn [fst snd].
      destruct (get k root) as [v|];
        [destruct (is_nullish v)|]; cbn [negb];
        destruct (mem k dfs); destruct (get k new); reflexivity.
Qed.

Lemma merge_docs_field_by_field_example :
  let root := [("_id", VOid 1); ("filepath", VStr "a.jpg"); ("note", VNull)] in
  let new := [("filepath", VStr "b.jpg"); ("note", VStr "x");
              ("extra", VInt 3)] in
  exists when_matched merged,
    _merge_docs LabelListExample.dataset false None None ["extra"] true false
    = Ok [when_matched]
    /\ run_stage LabelListExample.store [("new", VObj new)] when_matched [root]
       = (Some [merged], LabelListExample.store)
    /\ get "filepath" merged = Some (VStr "b.jpg")
    /\ get "note" merged = Some (VStr "x")
    /\ get "extra" merged = None.
Proof.
  intros root new.
  assert (Wr : well_formed root).
  { split.
    - cbn. repeat constructor; cbn; intuition discriminate.
    - repeat constructor; discriminate. }
  assert (Wn : well_formed new).
  { split.
    - cbn. repeat constructor; cbn; intuition discriminate.
    - repeat constructor; discriminate. }
  destruct (merge_docs_field_by_field LabelListExample.dataset root new
              ["extra"] true LabelListExample.store eq_refl Wr Wn eq_refl)
    as (wm & merged & H1 & H2 & H3).
  exists wm, merged. split; [exact H1|]. split; [exact H2|].
  rewrite !H3. repeat split.
Defined.

Lemma mem_In (s : string) (l : list string) : mem s l = true <-> In s l.
Proof.
  unfold mem. rewrite existsb_exists. split.
  - intros (x & Hx & E). apply String.eqb_eq in E. now subst.
  - intros H. exists s. split; [exact H|apply String.eqb_refl].
Qed.

Lemma mem_length_le s l :
  mem s l = true -> String.length s <= list_max (map String.length l).
Proof.
  intros H. apply mem_In in H.
  pose proof (proj1 (list_max_le (map String.length l)
                       (list_max (map String.length l))) (le_n _)) as F.
  rewrite Forall_forall in F. apply F. now apply in_map.
Qed.

Lemma length_append (a b : string) :
  String.length (a ++ b) = String.length a + String.length b.
Proof. induction a as [|c a IH]; cbn; [reflexivity|now rewrite IH]. Qed.

Lemma prefix_append (a b : string) : String.prefix a (a ++ b) = true.
Proof.
  induction a as [|c a IH]; cbn.
  - now destruct b.
  - destruct (ascii_dec c c); [exact IH|contradiction].
Qed.

Lemma prefix_trans (a b c : string) :
  String.prefix a b = true -> String.prefix b c = true ->
  String.prefix a c = true.
Proof.
  revert b c. induction a as [|x a IH]; intros b c Hab Hbc.
  - now destruct c.
  - destruct b as [|y b]; [discriminate|]. destruct c as [|z c]; [discriminate|].
    cbn in *. destruct (ascii_dec x y); [|discriminate].
    destruct (ascii_dec y z); [|discriminate]. subst.
    destruct (ascii_dec z z); [|contradiction]. eauto.
Qed.

Lemma prefix_refl (a : string) : String.prefix a a = true.
Proof.
  induction a as [|c a IH]; [reflexivity|].
  cbn. destruct (ascii_dec c c); [exact IH|contradiction].
Qed.

Lemma extend_name_ends choices names :
  forall fuel drawn name,
    list_max (map String.length names) < fuel + String.length name ->
    exists name',
      extend_name fuel choices drawn names name = Some name'
      /\ mem name' names = false
      /\ String.prefix name name' = true
      /\ (mem name names = false -> name' = name).
Proof.
  induction fuel as [|fuel IH]; intros drawn name Hlen.
  - cbn [extend_name]. destruct (mem name names) eqn:E.
    + apply mem_length_le in E. cbn in Hlen. lia.
    + exists name. auto using prefix_refl.
  - cbn [extend_name]. destruct (mem name names) eqn:E.
    + destruct (IH (S drawn) (name ++ _get_random_characters choices drawn 1))
        as (name' & H1 & H2 & H3 & _).
      { rewrite length_append. cbn. lia. }
      exists name'. repeat split; auto; [|discriminate].
      eapply prefix_trans; [apply prefix_append|exact H3].
    + exists name. auto using prefix_refl.
Qed.

(** X3.  [make_unique_dataset_name(root)] ends, whatever the random choices
    are, after at most as many rounds as the longest dataset name has
    characters, plus one; the name it returns is not the name of any
    dataset, starts with [root], and is [root] itself when no dataset has
    that name.  The world is left as it is. *)
Theorem make_unique_dataset_name_is_unique :
  forall (choices : nat -> nat) (root : string) (w : world),
    let names := map foo.name (dataset_docs w) in
    exists name,
      make_unique_dataset_name (S (list_max (map String.length names)))
        choices root w = (Ok (Some name), w)
      /\ mem name names = false
      /\ String.prefix root name = true
      /\ (mem root names = false -> name = root).
Proof.
  intros choices root w names.
  unfold make_unique_dataset_name, _list_datasets, bind, ret. fold names.
  destruct (mem root names) eqn:E.
  - destruct (extend_name_ends choices names
                (S (list_max (map String.length names))) 6
                (root ++ "_" ++ _get_random_characters choices 0 6))
      as (name & H1 & H2 & H3 & _); [lia|].
    exists name. rewrite H1. repeat split; auto; [|discriminate].
    eapply prefix_trans; [apply prefix_append|exact H3].
  - destruct (extend_name_ends choices names
                (S (list_max (map String.length names))) 0 root)
      as (name & H1 & H2 & H3 & H4); [lia|].
    exists name. rewrite H1. auto.
Qed.



Lemma find_dataset_doc_Some n docs d :
  find_dataset_doc n docs = Some d -> In d docs /\ foo.name d = n.
Proof.
  unfold find_dataset_doc. intros H. apply find_some in H.
  destruct H as [H1 H2]. apply String.eqb_eq in H2. auto.
Qed.

Lemma find_dataset_doc_In n docs :
  In n (map foo.name docs) -> exists d, find_dataset_doc n docs = Some d.
Proof.
  intros H. apply in_map_iff in H. destruct H as (d & E & Hd).
  destruct (find_dataset_doc n docs) as [d'|] eqn:F; [eauto|].
  unfold find_dataset_doc in F.
  pose proof (find_none _ _ F d Hd) as N. cbn in N.
  rewrite E, String.eqb_refl in N. discriminate.
Qed.

Lemma find_dataset_doc_None n docs :
  ~ In n (map foo.name docs) -> find_dataset_doc n docs = None.
Proof.
  intros H. destruct (find_dataset_doc n docs) as [d|] eqn:F; [|reflexivity].
  apply find_dataset_doc_Some in F. destruct F as [Hd <-].
  elim H. now apply in_map.
Qed.

(** X4.  [Dataset(name, _create=True)] under the name of an existing
    dataset, and [Dataset(name, _create=False)] under a name no dataset
    has, both raise [ValueError]; the store and the dataset documents are
    left as they were. *)
Theorem dataset_name_mismatch_raises :
  forall (n : string) (p : bool) (w : world),
    exists msg w',
      Dataset__init__ (Some n) p (mem n (map foo.name (dataset_docs w))) w
      = (Raise (ValueError msg), w')
      /\ db w' = db w
      /\ dataset_docs w' = dataset_docs w.
Proof.
  intros n p w. unfold Dataset__init__.
  destruct (mem n (map foo.name (dataset_docs w))) eqn:E.
  - apply mem_In in E. apply find_dataset_doc_In in E. destruct E as [d Hd].
    unfold _create_dataset, dataset_exists, get_dataset_doc, bind, ret, log,
      raise. cbn [dataset_docs]. rewrite Hd.
    do 2 eexists. split; [reflexivity|]. split; reflexivity.
  - assert (N : find_dataset_doc n (dataset_docs w) = None).
    { apply find_dataset_doc_None. intros H. apply mem_In in H. congruence. }
    unfold _load_dataset, get_dataset_doc, bind, ret, log, raise.
    cbn [dataset_docs]. rewrite N.
    do 2 eexists. split; [reflexivity|]. split; reflexivity.
Qed.

Lemma _create_dataset_Ok n p w d sc fc w1 :
  _create_dataset n p false false w = (Ok (d, sc, fc), w1) ->
  exists scn,
    find_dataset_doc n (dataset_docs w) = None
    /\ d = with_id (next_oid (db w))
             (foo.mkDatasetDocument None n None scn p
                (map from_field default_sample_fields) [] [] [] "0.10.0")
    /\ sc = _create_sample_document_cls scn
    /\ fc = _create_frame_document_cls ("frames." ++ scn)
    /\ dataset_docs w1 = (dataset_docs w ++ [d])%list.
Proof.
  unfold _create_dataset. intros H.
  apply bind_Ok in H. destruct H as (ex & w2 & H1 & H).
  apply dataset_exists_Ok in H1. destruct H1 as (Hnone & Hdb2 & Hdocs2).
  destruct ex; [discriminate|]. specialize (Hnone eq_refl).
  apply bind_Ok in H. destruct H as (scn & w3 & H3 & H).
  apply _make_sample_collection_name_Ok in H3. destruct H3 as [Hdb3 Hdocs3].
  apply bind_Ok in H. destruct H as (d' & w4 & H4 & H).
  apply save_new_Ok in H4; [|reflexivity]. destruct H4 as [Hd Hdocs4].
  apply bind_Ok in H. destruct H as ([] & w5 & H5 & H).
  apply keeps_docs__create_indexes in H5.
  inversion H; subst. exists scn.
  split; [exact Hnone|]. split.
  - f_equal. congruence.
  - split; [reflexivity|]. split; [reflexivity|].
    rewrite H5, Hdocs4. congruence.
Qed.

(** X5.  A dataset that [Dataset(name, persistent, _create=True)] has
    created has no media type and the persistence asked for, and
    [load_dataset(name)] right afterwards returns the same dataset, without
    changing the store or the dataset documents. *)
Theorem created_dataset_loads :
  forall (n : string) (p : bool) (w : world) (ds : Dataset) (w1 : world),
    Dataset__init__ (Some n) p true w = (Ok ds, w1) ->
    foo.persistent (_doc ds) = p
    /\ media_type ds = None
    /\ exists w2,
         load_dataset n w1 = (Ok ds, w2)
         /\ db w2 = db w1
         /\ dataset_docs w2 = dataset_docs w1.
Proof.
  intros n p w ds w1 H. unfold Dataset__init__ in H.
  apply bind_Ok in H. destruct H as (n' & w0 & H0 & H).
  inversion H0; subst n' w0.
  apply bind_Ok in H. destruct H as ([[d sc] fc] & w2 & H2 & H).
  inversion H; subst ds w2.
  apply _create_dataset_Ok in H2.
  destruct H2 as (scn & Hnone & Hd & Hsc & Hfc & Hdocs).
  subst d sc fc. cbn [_doc foo.persistent with_id].
  split; [reflexivity|]. split; [reflexivity|].
  unfold load_dataset, Dataset__init__, _load_dataset, get_dataset_doc.
  unfold bind, ret, log. cbn [dataset_docs].
  rewrite Hdocs. unfold find_dataset_doc in *.
  rewrite (find_app_none _ _ _ Hnone).
  cbn [find with_id foo.name]. rewrite String.eqb_refl.
  eexists. split; [reflexivity|]. split; reflexivity.
Qed.

Lemma created_dataset_loads_example :
  exists ds w1 w2,
    Dataset__init__ (Some "photos") true true Example.empty_world
    = (Ok ds, w1)
    /\ load_dataset "photos" w1 = (Ok ds, w2)
    /\ foo.persistent (_doc ds) = true.
Proof.
  assert (H : exists r,
             Dataset__init__ (Some "photos") true true Example.empty_world
             = (Ok (fst r), snd r)).
  { eexists (_, _). vm_compute. reflexivity. }
  destruct H as [[ds w1] H]. cbn [fst snd] in H.
  destruct (created_dataset_loads _ _ _ _ _ H) as (Hp & _ & w2 & Hl & _).
  exists ds, w1, w2. auto.
Defined.

(** ** Deleting *)

Lemma NoDup_map_inj {A B} (f : A -> B) l a b :
  NoDup (map f l) -> In a l -> In b l -> f a = f b -> a = b.
Proof.
  induction l as [|x l IH]; cbn; [contradiction|].
  intros Hn Ha Hb E. inversion Hn as [|? ? Hnot Hl]; subst.
  destruct Ha as [->|Ha], Hb as [->|Hb]; auto.
  - elim Hnot. rewrite E. now apply in_map.
  - elim Hnot. rewrite <- E. now apply in_map.
Qed.

Lemma NoDup_map_filter {A B} (f : A -> B) (p : A -> bool) l :
  NoDup (map f l) -> NoDup (map f (filter p l)).
Proof.
  induction l as [|x l IH]; cbn; [auto|].
  intros Hn. inversion Hn as [|? ? Hnot Hl]; subst.
  destruct (p x); cbn; [|auto]. constructor; [|auto].
  intros Hin. apply Hnot. apply in_map_iff in Hin.
  destruct Hin as (y & E & Hy). apply filter_In in Hy.
  rewrite <- E. apply in_map. tauto.
Qed.

Lemma get_remove {A} k (d : list (string * A)) : get k (remove k d) = None.
Proof.
  unfold remove. induction d as [|[k1 v1] d IH]; cbn; [reflexivity|].
  destruct (String.eqb k k1) eqn:E; cbn; [exact IH|]. now rewrite E.
Qed.

Lemma get_remove_other {A} k k' (d : list (string * A)) :
  get k (remove k' d) = if String.eqb k' k then None else get k d.
Proof.
  unfold remove. induction d as [|[k1 v1] d IH]; cbn.
  - now destruct (String.eqb k' k).
  - destruct (String.eqb k' k1) eqn:E1; cbn.
    + rewrite IH. apply String.eqb_eq in E1. subst k1.
      destruct (String.eqb k' k) eqn:E2; [reflexivity|].
      rewrite String.eqb_sym in E2. now rewrite E2.
    + rewrite IH. destruct (String.eqb k k1) eqn:E2; [|reflexivity].
      apply String.eqb_eq in E2. subst k1. now rewrite E1.
Qed.

Lemma clear_run (self : Dataset) (w : world) :
  _deleted self = false ->
  exists w',
    clear self w = (Ok tt, w')
    /\ dataset_docs w' = dataset_docs w
    /\ next_oid (db w') = next_oid (db w)
    /\ colls (db w')
       = remove (_frame_collection_name self)
           (remove (_sample_collection_name self) (colls (db w))).
Proof.
  intros Hlive. unfold clear, drop, bind, lift, log.
  rewrite (via_getattribute_live _ _ Hlive).
  eexists. split; [reflexivity|]. cbn. auto.
Qed.

Lemma coll_removed d d' c c' :
  colls d' = remove c' (colls d) ->
  coll d' c = if String.eqb c' c then [] else coll d c.
Proof.
  intros H. unfold coll. rewrite H, get_remove_other.
  now destruct (String.eqb c' c).
Qed.

(** X6.  [Dataset.clear()] on a dataset that is not deleted succeeds and
    leaves the dataset without samples and without frames: its length is
    0; the dataset documents are untouched, so the dataset still exists. *)
Theorem clear_empties_dataset :
  forall (self : Dataset) (w : world),
    _deleted self = false ->
    exists w',
      clear self w = (Ok tt, w')
      /\ dataset_docs w' = dataset_docs w
      /\ coll (db w') (_sample_collection_name self) = []
      /\ coll (db w') (_frame_collection_name self) = []
      /\ exists w'', __len__ self w' = (Ok 0, w'').
Proof.
  intros self w Hlive.
  destruct (clear_run self w Hlive) as (w' & Hc & Hdocs & _ & Hcolls).
  exists w'. split; [exact Hc|]. split; [exact Hdocs|].
  assert (Hs : coll (db w') (_sample_collection_name self) = []).
  { unfold coll. rewrite Hcolls, get_remove_other, get_remove.
    now destruct (String.eqb _ _). }
  assert (Hf : coll (db w') (_frame_collection_name self) = []).
  { unfold coll. now rewrite Hcolls, get_remove. }
  split; [exact Hs|]. split; [exact Hf|].
  unfold __len__, count_documents, read, bind, lift, log, ret.
  rewrite (via_getattribute_live _ _ Hlive). cbn [db]. rewrite Hs.
  eexists. reflexivity.
Qed.

Lemma clear_empties_dataset_example :
  exists w',
    clear Photos.dataset Photos.world0 = (Ok tt, w')
    /\ coll (db w') (_sample_collection_name Photos.dataset) = []
    /\ List.length
         (coll (db Photos.world0) (_sample_collection_name Photos.dataset))
       = 2.
Proof.
  destruct (clear_empties_dataset Photos.dataset Photos.world0 eq_refl)
    as (w' & H & _ & Hs & _).
  exists w'. split; [exact H|]. split; [exact Hs|reflexivity].
Defined.

Lemma delete_run (self : Dataset) (w : world) :
  _deleted self = false ->
  exists w',
    delete self w = (Ok (with_deleted true self), w')
    /\ dataset_docs w'
       = filter (fun d' => negb (same_pk d' (_doc self))) (dataset_docs w)
    /\ next_oid (db w') = next_oid (db w)
    /\ colls (db w')
       = remove (_frame_collection_name self)
           (remove (_sample_collection_name self) (colls (db w))).
Proof.
  intros Hlive. unfold delete.
  destruct (clear_run self w Hlive) as (w1 & Hc & Hdocs & Hoid & Hcolls).
  rewrite (bind_step _ _ _ _ _ Hc).
  unfold _delete_dataset_doc, delete_doc, bind, log, ret.
  eexists. split; [reflexivity|]. cbn. rewrite Hdocs. auto.
Qed.

Lemma load_dataset_run n w d :
  find_dataset_doc n (dataset_docs w) = Some d ->
  exists ds w',
    load_dataset n w = (Ok ds, w')
    /\ _doc ds = d
    /\ _deleted ds = false
    /\ _sample_collection_name ds = foo.sample_collection_name d
    /\ db w' = db w
    /\ dataset_docs w' = dataset_docs w.
Proof.
  intros H. unfold load_dataset, Dataset__init__, _load_dataset,
    get_dataset_doc, bind, ret, log. cbn [dataset_docs]. rewrite H.
  do 2 eexists. split; [reflexivity|]. cbn [_doc _deleted db dataset_docs].
  repeat split.
  unfold _sample_collection_name. cbn [_sample_doc_cls].
  generalize (foo.sample_fields d). intros l.
  set (c0 := _create_sample_document_cls (foo.sample_collection_name d)).
  change (foo.sample_collection_name d) with (collection c0).
  generalize c0. induction l as [|f l IH]; intros c; [reflexivity|].
  cbn [fold_left]. rewrite IH. now destruct (has _ _).
Qed.

Lemma same_pk_by_name (w : world) d :
  world_ok w -> In d (dataset_docs w) ->
  filter (fun d' => negb (same_pk d' d)) (dataset_docs w)
  = filter (fun d' => negb (String.eqb (foo.name d') (foo.name d)))
      (dataset_docs w).
Proof.
  intros (Hpk & Hids & Hnames) Hd.
  apply filter_ext_in. intros d' Hd'. f_equal.
  unfold pk_fresh in Hpk. rewrite Forall_forall in Hpk.
  pose proof (Hpk d Hd) as P. pose proof (Hpk d' Hd') as P'.
  unfold same_pk.
  destruct (foo.id d) as [i|] eqn:Ei; [|contradiction].
  destruct (foo.id d') as [i'|] eqn:Ei'; [|contradiction].
  destruct (Nat.eqb_spec i' i) as [->|Hne].
  - assert (d' = d).
    { apply (NoDup_map_inj foo.id (dataset_docs w)); auto. congruence. }
    subst. symmetry. apply String.eqb_refl.
  - destruct (String.eqb_spec (foo.name d') (foo.name d)) as [E|]; auto.
    assert (d' = d) by (apply (NoDup_map_inj foo.name (dataset_docs w)); auto).
    subst. congruence.
Qed.

Lemma world_ok_filter (w w' : world) p :
  world_ok w ->
  dataset_docs w' = filter p (dataset_docs w) ->
  next_oid (db w') = next_oid (db w) ->
  world_ok w'.
Proof.
  intros (Hpk & Hids & Hnames) Hdocs Hoid. unfold world_ok, pk_fresh.
  rewrite Hdocs, Hoid. split; [|split].
  - unfold pk_fresh in Hpk. rewrite Forall_forall in *.
    intros d Hd. apply filter_In in Hd. now apply Hpk.
  - now apply NoDup_map_filter.
  - now apply NoDup_map_filter.
Qed.

(** X7.  [delete_dataset(name)] of an existing dataset succeeds; afterwards
    no dataset has that name, every other dataset document is as before,
    and the sample and frame collections of the dataset are gone. *)
Theorem delete_dataset_removes_it :
  forall (n : string) (w : world) (d : foo.DatasetDocument),
    world_ok w ->
    find_dataset_doc n (dataset_docs w) = Some d ->
    exists w',
      delete_dataset n w = (Ok tt, w')
      /\ dataset_docs w'
         = filter (fun d' => negb (String.eqb (foo.name d') n))
             (dataset_docs w)
      /\ find_dataset_doc n (dataset_docs w') = None
      /\ coll (db w') (foo.sample_collection_name d) = []
      /\ coll (db w') ("frames." ++ foo.sample_collection_name d) = []
      /\ world_ok w'.
Proof.
  intros n w d Hok Hfind.
  destruct (load_dataset_run n w d Hfind)
    as (ds & w1 & Hload & Hdoc & Hlive & Hscn & Hdb1 & Hdocs1).
  destruct (delete_run ds w1 Hlive) as (w2 & Hdel & Hdocs2 & Hoid2 & Hcolls2).
  destruct (find_dataset_doc_Some _ _ _ Hfind) as [Hin Hname].
  assert (Hdocs : dataset_docs w2
                  = filter (fun d' => negb (String.eqb (foo.name d') n))
                      (dataset_docs w)).
  { rewrite Hdocs2, Hdocs1, Hdoc, (same_pk_by_name w d Hok Hin).
    now rewrite Hname. }
  exists w2. split.
  - unfold delete_dataset. rewrite (bind_step _ _ _ _ _ Hload).
    rewrite (bind_step _ _ _ _ _ Hdel). reflexivity.
  - split; [exact Hdocs|]. split; [|split; [|split]].
    + apply find_dataset_doc_None. rewrite Hdocs. intros H.
      apply in_map_iff in H. destruct H as (d' & E & H).
      apply filter_In in H. destruct H as [_ H].
      rewrite E, String.eqb_refl in H. discriminate.
    + unfold coll. rewrite Hcolls2, get_remove_other.
      rewrite Hscn, get_remove. now destruct (String.eqb _ _).
    + unfold coll. rewrite Hcolls2. unfold _frame_collection_name.
      rewrite Hscn. now rewrite get_remove.
    + apply (world_ok_filter w w2 _ Hok Hdocs). now rewrite Hoid2, Hdb1.
Qed.

Lemma photos_world_ok : world_ok Photos.world0.
Proof.
  unfold world_ok, pk_fresh. cbn. repeat split; repeat constructor; cbn; tauto.
Qed.

Lemma delete_dataset_removes_it_example :
  exists w',
    delete_dataset "photos" Photos.world0 = (Ok tt, w')
    /\ dataset_docs w' = []
    /\ coll (db w') (_sample_collection_name Photos.dataset) = [].
Proof.
  assert (Hd : exists d,
             find_dataset_doc "photos" (dataset_docs Photos.world0) = Some d
             /\ foo.sample_collection_name d
                = _sample_collection_name Photos.dataset).
  { eexists. split; vm_compute; reflexivity. }
  destruct Hd as (d & Hd & Hn).
  destruct (delete_dataset_removes_it "photos" Photos.world0 d
              photos_world_ok Hd) as (w' & H & Hdocs & _ & Hs & _).
  exists w'. split; [exact H|]. split.
  - rewrite Hdocs. reflexivity.
  - rewrite <- Hn. exact Hs.
Defined.

(** ** Deleting the datasets that are not persistent *)

Lemma insert_name_perm s l : Permutation (insert_name s l) (s :: l).
Proof.
  induction l as [|t l IH]; cbn; [auto|].
  destruct (String.leb s t); [auto|].
  rewrite IH. apply perm_swap.
Qed.

Lemma sorted_perm l : Permutation (sorted l) l.
Proof.
  induction l as [|s l IH]; cbn; [auto|].
  rewrite insert_name_perm. now constructor.
Qed.

Lemma filter_filter {A} (p q : A -> bool) l :
  filter p (filter q l) = filter (fun x => q x && p x) l.
Proof.
  induction l as [|x l IH]; cbn; [reflexivity|].
  destruct (q x); cbn; [destruct (p x)|]; now rewrite IH.
Qed.

Lemma world_ok_same (w w' : world) :
  world_ok w ->
  dataset_docs w' = dataset_docs w ->
  next_oid (db w') = next_oid (db w) ->
  world_ok w'.
Proof.
  intros (Hpk & Hids & Hnames) Hdocs Hoid. unfold world_ok, pk_fresh.
  now rewrite Hdocs, Hoid.
Qed.

Lemma delete_loop (l : list string) :
  forall w,
    world_ok w ->
    NoDup l ->
    (forall n, In n l -> In n (map foo.name (dataset_docs w))) ->
    exists w',
      for_each l
        (fun name =>
           dataset <- Dataset__init__ (Some name) false false ;;
           if negb (persistent dataset) && negb (deleted dataset)
           then delete dataset ;;; ret tt
           else ret tt) w = (Ok tt, w')
      /\ dataset_docs w'
         = filter (fun d => foo.persistent d || negb (mem (foo.name d) l))
             (dataset_docs w)
      /\ next_oid (db w') = next_oid (db w).
Proof.
  induction l as [|n l IH]; intros w Hok Hnd Hin.
  - exists w. split; [reflexivity|]. split; [|reflexivity].
    symmetry. apply forallb_filter_id. apply forallb_forall. intros d _.
    cbn. apply orb_true_r.
  - inversion Hnd as [|? ? Hnot Hnd']; subst.
    destruct (find_dataset_doc_In n (dataset_docs w)) as [d Hfind].
    { apply Hin. now left. }
    destruct (find_dataset_doc_Some _ _ _ Hfind) as [Hd Hname].
    destruct (load_dataset_run n w d Hfind)
      as (ds & w1 & Hload & Hdoc & Hlive & _ & Hdb1 & Hdocs1).
    unfold load_dataset in Hload.
    assert (Hnames := proj2 (proj2 Hok)).
    cbn [for_each]. cbv beta.
    unfold bind at 1. unfold bind at 1. rewrite Hload.
    unfold persistent, deleted. rewrite Hdoc, Hlive. cbn [negb andb].
    destruct (foo.persistent d) eqn:Ep; cbn [negb andb].
    + (* a persistent dataset stays *)
      destruct (IH w1) as (w' & Hrun & Hdocs & Hoid).
      { apply (world_ok_same w w1 Hok Hdocs1). now rewrite Hdb1. }
      { exact Hnd'. }
      { intros n' Hn'. rewrite Hdocs1. apply Hin. now right. }
      exists w'. unfold ret at 1. split; [exact Hrun|].
      split; [|now rewrite Hoid, Hdb1].
      rewrite Hdocs, Hdocs1. apply filter_ext_in. intros d' Hd'.
      cbn [mem existsb].
      destruct (String.eqb_spec (foo.name d') n) as [E|_]; [|reflexivity].
      assert (d' = d).
      { apply (NoDup_map_inj foo.name (dataset_docs w)); auto. congruence. }
      subst d'. now rewrite Ep.
    + (* a dataset that is not persistent is deleted *)
      destruct (delete_run ds w1 Hlive)
        as (w2 & Hdel & Hdocs2 & Hoid2 & _).
      assert (Hdocs2' :
                dataset_docs w2
                = filter (fun d' => negb (String.eqb (foo.name d') n))
                    (dataset_docs w)).
      { rewrite Hdocs2, Hdocs1, Hdoc, (same_pk_by_name w d Hok Hd).
        now rewrite Hname. }
      destruct (IH w2) as (w' & Hrun & Hdocs & Hoid).
      { apply (world_ok_filter w w2 _ Hok Hdocs2'). now rewrite Hoid2, Hdb1. }
      { exact Hnd'. }
      { intros n' Hn'. rewrite Hdocs2'.
        assert (Hn : In n' (map foo.name (dataset_docs w)))
          by (apply Hin; now right).
        apply in_map_iff in Hn. destruct Hn as (d' & E & Hd').
        apply in_map_iff. exists d'. split; [exact E|].
        apply filter_In. split; [exact Hd'|].
        rewrite E. destruct (String.eqb_spec n' n) as [->|]; [|reflexivity].
        contradiction. }
      exists w'. unfold bind at 1. rewrite Hdel. unfold ret at 1.
      split; [exact Hrun|]. split; [|now rewrite Hoid, Hoid2, Hdb1].
      rewrite Hdocs, Hdocs2', filter_filter.
      apply filter_ext_in. intros d' Hd'. cbn [mem existsb].
      destruct (String.eqb_spec (foo.name d') n) as [E|_]; [|reflexivity].
      assert (d' = d).
      { apply (NoDup_map_inj foo.name (dataset_docs w)); auto. congruence. }
      subst d'. rewrite Ep. reflexivity.
Qed.

(** X8.  [delete_non_persistent_datasets()] succeeds and leaves exactly the
    persistent datasets, each with its document as it was. *)
Theorem only_persistent_datasets_remain :
  forall (w : world),
    world_ok w ->
    exists w',
      delete_non_persistent_datasets w = (Ok tt, w')
      /\ dataset_docs w' = filter foo.persistent (dataset_docs w).
Proof.
  intros w Hok. unfold delete_non_persistent_datasets, _list_datasets.
  unfold bind at 1.
  set (names := map foo.name (dataset_docs w)).
  destruct (delete_loop (sorted names) w Hok) as (w' & Hrun & Hdocs & _).
  - apply (Permutation_NoDup (Permutation_sym (sorted_perm names))).
    exact (proj2 (proj2 Hok)).
  - intros n Hn. apply (Permutation_in _ (sorted_perm names)). exact Hn.
  - exists w'. split; [exact Hrun|]. rewrite Hdocs.
    apply filter_ext_in. intros d Hd.
    assert (E : mem (foo.name d) (sorted names) = true).
    { apply mem_In. apply (Permutation_in _ (Permutation_sym (sorted_perm names))).
      now apply in_map. }
    rewrite E. apply orb_false_r.
Qed.

Lemma cloned_world_ok : world_ok (snd Photos.cloned).
Proof.
  unfold world_ok, pk_fresh. cbn.
  repeat split; repeat constructor; cbn; intuition (try discriminate; try lia).
Qed.

Lemma only_persistent_datasets_remain_example :
  map foo.name (dataset_docs (snd Photos.cloned)) = ["photos"; "copy"]
  /\ exists w',
       delete_non_persistent_datasets (snd Photos.cloned) = (Ok tt, w')
       /\ map foo.name (dataset_docs w') = ["photos"].
Proof.
  split; [reflexivity|].
  destruct (only_persistent_datasets_remain (snd Photos.cloned)
              cloned_world_ok) as (w' & H & Hdocs).
  exists w'. split; [exact H|]. rewrite Hdocs. reflexivity.
Defined.

Lemma index_information_run c w :
  index_information c w
  = (Ok (coll_indexes (db w) c),
     mkWorld (db w) (dataset_docs w)
       (trace w ++ [CallIndexInformation c])%list (now w) (expiries w)).
Proof. reflexivity. Qed.

(** X9.  [Dataset.create_index(field_name, unique)] on a field that already
    has a unique index returns without touching the store, whatever
    [unique] is. *)
Theorem create_index_keeps_unique_index :
  forall (self : Dataset) (field_name : string) (unique : bool) (w : world)
         (i : index),
    _deleted self = false ->
    has (root_of field_name) (get_field_schema self true) = true ->
    indexed self w field_name = Some i ->
    idx_unique i = true ->
    exists w',
      Dataset_create_index self field_name unique w = (Ok tt, w')
      /\ db w' = db w
      /\ dataset_docs w' = dataset_docs w.
Proof.
  intros self f u w i Hlive Hroot Hi Hu.
  unfold Dataset_create_index, bind, lift.
  rewrite (via_getattribute_live _ _ Hlive).
  unfold root_of in Hroot. rewrite Hroot. cbn [negb].
  rewrite index_information_run.
  unfold indexed, sample_indexes in Hi. cbn [db]. rewrite Hi, Hu.
  cbn [orb]. eexists. split; [reflexivity|]. split; reflexivity.
Qed.

Lemma create_index_keeps_unique_index_example :
  let w1 :=
    snd (Dataset_create_index Photos.dataset "filepath" true Photos.world0) in
  option_map idx_unique (indexed Photos.dataset w1 "filepath") = Some true
  /\ exists w',
       Dataset_create_index Photos.dataset "filepath" false w1 = (Ok tt, w')
       /\ db w' = db w1.
Proof.
  intros w1. split; [vm_compute; reflexivity|].
  assert (Hi : indexed Photos.dataset w1 "filepath"
               = Some (mkIndex "filepath_1" ["filepath"] true))
    by (vm_compute; reflexivity).
  destruct (create_index_keeps_unique_index Photos.dataset "filepath" false
              w1 _ eq_refl eq_refl Hi eq_refl) as (w' & H & Hdb & _).
  exists w'. split; [exact H|exact Hdb].
Defined.

Lemma drop_index_run c name w :
  existsb (fun j => String.eqb (idx_name j) name) (coll_indexes (db w) c)
  = true ->
  exists w',
    drop_index c name w = (Ok tt, w')
    /\ dataset_docs w' = dataset_docs w
    /\ colls (db w') = colls (db w)
    /\ next_oid (db w') = next_oid (db w)
    /\ indexes (db w')
       = set c (filter (fun j => negb (String.eqb (idx_name j) name))
                  (coll_indexes (db w) c))
           (indexes (db w)).
Proof.
  intros H. unfold drop_index, bind, log. cbn [db]. rewrite H.
  eexists. split; [reflexivity|]. cbn. auto.
Qed.

Lemma index_map_In_aux ixs :
  forall m0 f i,
    get f (fold_left
             (fun m i => match idx_key i with
                         | f :: _ => set f i m
                         | [] => m
                         end) ixs m0) = Some i ->
    In i ixs \/ get f m0 = Some i.
Proof.
  induction ixs as [|j ixs IH]; intros m0 f i H; cbn in H; [auto|].
  apply IH in H. destruct H as [H|H]; [left; now right|].
  destruct (idx_key j) as [|g ks]; [auto|].
  rewrite get_set in H.
  destruct (String.eqb f g); [|auto].
  inversion H; subst. left. now left.
Qed.

Lemma index_map_In ixs f i : get f (index_map ixs) = Some i -> In i ixs.
Proof.
  unfold index_map. intros H. apply index_map_In_aux in H.
  destruct H as [H|H]; [exact H|discriminate].
Qed.

Lemma index_map_app ixs j f :
  idx_key j = [f] ->
  get f (index_map (ixs ++ [j])) = Some j.
Proof.
  intros Hk. unfold index_map. rewrite fold_left_app. cbn [fold_left].
  rewrite Hk. apply get_set_same.
Qed.

Lemma coll_indexes_set d c c' ixs :
  coll_indexes (mkDb (colls d) (set c ixs (indexes d)) (next_oid d)) c'
  = if String.eqb c' c then ixs else coll_indexes d c'.
Proof.
  unfold coll_indexes. cbn [indexes]. rewrite get_set.
  now destruct (String.eqb c' c).
Qed.

Lemma existsb_name_In (ixs : list index) i :
  In i ixs ->
  existsb (fun j => String.eqb (idx_name j) (idx_name i)) ixs = true.
Proof.
  intros H. apply existsb_exists. exists i. split; [exact H|].
  apply String.eqb_refl.
Qed.

Lemma existsb_name_filtered (ixs : list index) n :
  existsb (fun j => String.eqb (idx_name j) n)
    (filter (fun j => negb (String.eqb (idx_name j) n)) ixs) = false.
Proof.
  induction ixs as [|j ixs IH]; [reflexivity|].
  cbn [filter]. destruct (String.eqb (idx_name j) n) eqn:E; cbn; [exact IH|].
  now rewrite E.
Qed.

Lemma Dataset_drop_index_run self f w i :
  _deleted self = false ->
  indexed self w f = Some i ->
  exists w',
    Dataset_drop_index self f w = (Ok tt, w')
    /\ dataset_docs w' = dataset_docs w
    /\ colls (db w') = colls (db w)
    /\ next_oid (db w') = next_oid (db w)
    /\ indexes (db w')
       = set (_sample_collection_name self)
           (filter (fun j => negb (String.eqb (idx_name j) (idx_name i)))
              (sample_indexes self w))
           (indexes (db w)).
Proof.
  intros Hlive Hi. unfold Dataset_drop_index.
  unfold bind at 1. unfold lift. rewrite (via_getattribute_live _ _ Hlive).
  unfold bind at 1. rewrite index_information_run.
  unfold indexed, sample_indexes in Hi. rewrite Hi.
  set (w1 := mkWorld _ _ _ _ _).
  destruct (drop_index_run (_sample_collection_name self) (idx_name i) w1)
    as (w' & Hrun & H1 & H2 & H3 & H4).
  { apply existsb_name_In. apply (index_map_In _ f). exact Hi. }
  exists w'. split; [exact Hrun|]. auto.
Qed.

(** X10.  [Dataset.create_index(field_name, unique=True)] on a field that has
    a non-unique index of its own drops that index and builds a unique one
    in its place.  When two samples share a value of the field the unique
    index cannot be built: the call raises, and the field is left without
    the index it had. *)
Theorem create_index_replaces_non_unique_index :
  forall (self : Dataset) (field_name : string) (w : world) (i : index),
    _deleted self = false ->
    has (root_of field_name) (get_field_schema self true) = true ->
    indexed self w field_name = Some i ->
    idx_unique i = false ->
    idx_name i = index_name [field_name] ->
    let others :=
      filter (fun j => negb (String.eqb (idx_name j) (idx_name i)))
        (sample_indexes self w) in
    let unique_index := mkIndex (index_name [field_name]) [field_name] true in
    exists r w',
      Dataset_create_index self field_name true w = (r, w')
      /\ colls (db w') = colls (db w)
      /\ dataset_docs w' = dataset_docs w
      /\ if unique_ok (unique_index :: others)
              (coll (db w) (_sample_collection_name self))
         then r = Ok tt
              /\ sample_indexes self w' = (others ++ [unique_index])%list
         else r = Raise (OperationFailure "duplicate key error")
              /\ sample_indexes self w' = others.
Proof.
  intros self f w i Hlive Hroot Hi Hu Hname others unique_index.
  unfold Dataset_create_index.
  unfold bind at 1. unfold lift. rewrite (via_getattribute_live _ _ Hlive).
  unfold root_of in Hroot. rewrite Hroot. cbn [negb].
  unfold bind at 1. rewrite index_information_run.
  pose proof Hi as Hi'. unfold indexed, sample_indexes in Hi'.
  rewrite Hi', Hu. cbn [orb Bool.eqb].
  set (w1 := mkWorld _ _ _ _ _).
  destruct (Dataset_drop_index_run self f w1 i Hlive Hi)
    as (w2 & Hdrop & Hdocs2 & Hcolls2 & Hoid2 & Hix2).
  unfold bind at 1. rewrite Hdrop.
  assert (Hixs2 : coll_indexes (db w2) (_sample_collection_name self)
                  = others).
  { unfold coll_indexes. rewrite Hix2, get_set_same. reflexivity. }
  assert (Hcoll2 : coll (db w2) (_sample_collection_name self)
                   = coll (db w) (_sample_collection_name self)).
  { unfold coll. now rewrite Hcolls2. }
  unfold bind at 1. unfold create_index, bind, log. cbn [db].
  rewrite Hixs2. cbn [idx_name].
  assert (Hnone : existsb
                    (fun j => String.eqb (idx_name j) (index_name [f]))
                    others = false).
  { unfold others. rewrite Hname. apply existsb_name_filtered. }
  rewrite Hnone. rewrite Hcoll2. fold unique_index.
  destruct (unique_ok (unique_index :: others) _).
  - do 2 eexists. split; [reflexivity|].
    cbn [db colls dataset_docs with_db].
    split; [exact Hcolls2|]. split; [exact Hdocs2|].
    split; [reflexivity|].
    unfold sample_indexes. cbn [db with_db].
    rewrite coll_indexes_set, String.eqb_refl. reflexivity.
  - do 2 eexists. split; [reflexivity|].
    cbn [db colls dataset_docs].
    split; [exact Hcolls2|]. split; [exact Hdocs2|].
    split; [reflexivity|]. exact Hixs2.
Qed.

Lemma create_index_replaces_non_unique_index_example :
  let w1 :=
    snd (Dataset_create_index Photos.dataset "metadata" false Photos.world0) in
  option_map idx_unique (indexed Photos.dataset w1 "metadata") = Some false
  /\ exists w',
       Dataset_create_index Photos.dataset "metadata" true w1
       = (Raise (OperationFailure "duplicate key error"), w')
       /\ indexed Photos.dataset w' "metadata" = None.
Proof.
  intros w1. split; [vm_compute; reflexivity|].
  assert (Hi : indexed Photos.dataset w1 "metadata"
               = Some (mkIndex "metadata_1" ["metadata"] false))
    by (vm_compute; reflexivity).
  destruct (create_index_replaces_non_unique_index Photos.dataset "metadata"
              w1 _ eq_refl eq_refl Hi eq_refl eq_refl)
    as (r & w' & H & _ & _ & Hif).
  assert (Hu : unique_ok
                 (mkIndex (index_name ["metadata"]) ["metadata"] true
                    :: filter
                         (fun j =>
                            negb (String.eqb (idx_name j)
                                    (idx_name
                                       (mkIndex "metadata_1" ["metadata"]
                                          false))))
                         (sample_indexes Photos.dataset w1))
                 (coll (db w1) (_sample_collection_name Photos.dataset))
               = false) by (vm_compute; reflexivity).
  rewrite Hu in Hif. destruct Hif as [-> Hixs].
  exists w'. split; [exact H|].
  unfold indexed. rewrite Hixs. vm_compute. reflexivity.
Defined.

(** X11.  Creating an index on a field that has none and dropping it again
    leaves every collection with the indexes (and the documents) it
    had. *)
Theorem create_then_drop_index_restores :
  forall (self : Dataset) (field_name : string) (unique : bool)
         (w w1 w2 : world),
    indexed self w field_name = None ->
    Dataset_create_index self field_name unique w = (Ok tt, w1) ->
    Dataset_drop_index self field_name w1 = (Ok tt, w2) ->
    (forall c, coll_indexes (db w2) c = coll_indexes (db w) c)
    /\ colls (db w2) = colls (db w)
    /\ dataset_docs w2 = dataset_docs w.
Proof.
  intros self f u w w1 w2 Hnone Hcreate Hdrop.
  unfold Dataset_create_index in Hcreate.
  apply bind_Ok in Hcreate. destruct Hcreate as ([] & w0 & H0 & Hcreate).
  apply lift_Ok in H0. destruct H0 as [H0 ->].
  apply via_getattribute_Ok in H0. destruct H0 as [Hlive _].
  destruct (negb (has _ _)); [discriminate|].
  apply bind_Ok in Hcreate. destruct Hcreate as (ixs & w3 & H3 & Hcreate).
  rewrite index_information_run in H3. inversion H3; subst ixs w3. clear H3.
  unfold indexed, sample_indexes in Hnone. rewrite Hnone in Hcreate.
  apply bind_Ok in Hcreate. destruct Hcreate as (nm & w4 & H4 & Hcreate).
  inversion Hcreate; subst w4. clear Hcreate.
  unfold create_index, bind, log in H4. cbn [db idx_name] in H4.
  set (c := _sample_collection_name self) in *.
  set (ixs := coll_indexes (db w) c) in *.
  destruct (existsb _ ixs) eqn:Ename.
  - (* an index of that name exists: nothing is created, nothing to drop *)
    inversion H4; subst nm w1. exfalso.
    unfold Dataset_drop_index, bind, lift in Hdrop.
    rewrite (via_getattribute_live _ _ Hlive) in Hdrop.
    rewrite index_information_run in Hdrop. cbn [db] in Hdrop.
    fold c in Hdrop. fold ixs in Hdrop. rewrite Hnone in Hdrop.
    destruct (_ && _); discriminate.
  - destruct (unique_ok _ _); [|discriminate].
    inversion H4; subst nm w1. clear H4.
    set (new := mkIndex (index_name [f]) [f] u) in *.
    set (w1 := with_db _ _) in *.
    assert (Hixs1 : sample_indexes self w1 = (ixs ++ [new])%list).
    { unfold sample_indexes, w1. cbn [db with_db]. fold c.
      now rewrite coll_indexes_set, String.eqb_refl. }
    assert (Hi1 : indexed self w1 f = Some new).
    { unfold indexed. rewrite Hixs1. now apply index_map_app. }
    destruct (Dataset_drop_index_run self f w1 new Hlive Hi1)
      as (w2' & Hdrop' & Hdocs & Hcolls & Hoid & Hix).
    rewrite Hdrop in Hdrop'. inversion Hdrop'; subst w2'. clear Hdrop'.
    split; [|split].
    + intros c'. unfold coll_indexes at 1. rewrite Hix, get_set.
      fold c. unfold w1 at 2. cbn [db with_db indexes]. rewrite get_set.
      destruct (String.eqb_spec c' c) as [->|Hne]; [|reflexivity].
      rewrite Hixs1, filter_app. cbn [filter idx_name new].
      rewrite String.eqb_refl. cbn [negb]. rewrite app_nil_r.
      apply forallb_filter_id. apply forallb_forall. intros j Hj.
      apply negb_true_iff.
      destruct (String.eqb (idx_name j) (index_name [f])) eqn:E;
        [|reflexivity].
      assert (X : existsb
                    (fun j0 => String.eqb (idx_name j0) (index_name [f]))
                    ixs = true).
      { apply existsb_exists. exists j. auto. }
      unfold new in Ename. cbn [idx_name] in Ename. congruence.
    + rewrite Hcolls. reflexivity.
    + rewrite Hdocs. reflexivity.
Qed.

Lemma create_then_drop_index_restores_example :
  let w1 :=
    snd (Dataset_create_index Photos.dataset "weather" false Photos.world0) in
  let w2 := snd (Dataset_drop_index Photos.dataset "weather" w1) in
  option_map idx_key (indexed Photos.dataset w1 "weather")
  = Some ["weather"]
  /\ indexes (db w1) <> indexes (db Photos.world0)
  /\ forall c, coll_indexes (db w2) c = coll_indexes (db Photos.world0) c.
Proof.
  intros w1 w2. split; [vm_compute; reflexivity|].
  split; [vm_compute; discriminate|].
  assert (H0 : indexed Photos.dataset Photos.world0 "weather" = None)
    by (vm_compute; reflexivity).
  assert (H1 : Dataset_create_index Photos.dataset "weather" false
                 Photos.world0 = (Ok tt, w1)) by (vm_compute; reflexivity).
  assert (H2 : Dataset_drop_index Photos.dataset "weather" w1 = (Ok tt, w2))
    by (vm_compute; reflexivity).
  exact (proj1 (create_then_drop_index_restores Photos.dataset "weather"
                  false Photos.world0 w1 w2 H0 H1 H2)).
Defined.

(** ** What adding samples stores *)

Lemma gen_ids_with_ids (ds : list doc) :
  forall d,
    exists n,
      gen_ids d ds = (mkDb (colls d) (indexes d) n, with_ids (next_oid d) ds).
Proof.
  induction ds as [|x ds IH]; intros d.
  - exists (next_oid d). now destruct d.
  - cbn [gen_ids with_ids]. unfold gen_id.
    destruct (has "_id" x).
    + destruct (IH d) as [n Hn]. rewrite Hn. eauto.
    + destruct (IH (mkDb (colls d) (indexes d) (S (next_oid d)))) as [n Hn].
      rewrite Hn. cbn. eauto.
Qed.

Lemma coll_set cs c c' ds ixs n :
  coll (mkDb (set c ds cs) ixs n) c'
  = if String.eqb c' c then ds else coll (mkDb cs ixs n) c'.
Proof.
  unfold coll. cbn [colls]. rewrite get_set. now destruct (String.eqb c' c).
Qed.

Lemma insert_many_Ok c dicts w dicts' w' :
  insert_many c dicts w = (Ok dicts', w') ->
  dicts' = with_ids (next_oid (db w)) dicts
  /\ dataset_docs w' = dataset_docs w
  /\ indexes (db w') = indexes (db w)
  /\ (forall c', coll (db w') c'
                 = if String.eqb c' c then (coll (db w) c ++ dicts')%list
                   else coll (db w) c')
  /\ unique_ok (coll_indexes (db w') c) (coll (db w') c) = true.
Proof.
  unfold insert_many, fresh_ids, read, write, bind, log, ret. cbn [db].
  destruct (gen_ids_with_ids dicts (db w)) as [n Hn]. rewrite Hn.
  cbn [db with_db]. unfold write_coll, coll_indexes. cbn [indexes].
  change (coll {| colls := colls (db w); indexes := indexes (db w);
                  next_oid := n |} c) with (coll (db w) c).
  destruct (unique_ok _ _) eqn:U; [|discriminate].
  intros H. inversion H; subst dicts' w'. clear H.
  cbn [db with_db dataset_docs indexes].
  split; [reflexivity|]. split; [reflexivity|]. split; [reflexivity|].
  split.
  - intros c'. rewrite coll_set. destruct (String.eqb c' c); reflexivity.
  - rewrite coll_set, String.eqb_refl. exact U.
Qed.

Lemma frames_name_differs c : String.eqb c ("frames." ++ c) = false.
Proof.
  apply String.eqb_neq. intros E.
  apply (f_equal String.length) in E. rewrite length_append in E.
  cbn in E. lia.
Qed.

Lemma save_colls d w r w' :
  save d w = (r, w') -> colls (db w') = colls (db w).
Proof.
  unfold save, bind, log. cbn.
  repeat match goal with
         | |- context [if ?b then _ else _] => destruct b
         | |- context [match ?x with Some _ => _ | None => _ end] =>
             destruct x
         end; intros H; inversion H; reflexivity.
Qed.

Lemma add_implied_field_collection fr self f v w self' w' :
  add_implied_field fr self f v w = (Ok self', w') ->
  _sample_collection_name self' = _sample_collection_name self.
Proof.
  unfold add_implied_field. destruct (get_implied_field v); [|discriminate].
  intros H. apply bind_Ok in H. destruct H as (found & w1 & H1 & H).
  destruct found; [|discriminate].
  apply bind_Ok in H. destruct H as (d' & w2 & H2 & H).
  inversion H; subst. now destruct fr.
Qed.

Lemma expand_fields_collection fr values :
  forall names self exp w self' exp' w',
    expand_fields fr values names self exp w = (Ok (self', exp'), w') ->
    _sample_collection_name self' = _sample_collection_name self.
Proof.
  induction names as [|n names IH]; intros self exp w self' exp' w' H.
  - now inversion H.
  - cbn [expand_fields] in H.
    destruct (String.eqb n "_id"); [eauto|].
    destruct (has n _); [eauto|].
    assert (Hadd : forall v,
               (self1 <- add_implied_field fr self n v ;;
                expand_fields fr values names self1 true) w
               = (Ok (self', exp'), w') ->
               _sample_collection_name self' = _sample_collection_name self).
    { intros v H'. apply bind_Ok in H'.
      destruct H' as (self1 & w1 & Ha & H').
      apply add_implied_field_collection in Ha. apply IH in H'. congruence. }
    destruct (getitem values n); eauto.
Qed.

Lemma _expand_frame_schema_collection :
  forall frs self exp w self' exp' w',
    _expand_frame_schema self frs exp w = (Ok (self', exp'), w') ->
    _sample_collection_name self' = _sample_collection_name self.
Proof.
  induction frs as [|[n fr] frs IH]; intros self exp w self' exp' w' H.
  - now inversion H.
  - cbn [_expand_frame_schema] in H.
    apply bind_Ok in H. destruct H as ([self1 exp1] & w1 & H1 & H).
    apply expand_fields_collection in H1.
    cbv beta iota zeta in H. apply IH in H. congruence.
Qed.

Lemma expand_samples_collection :
  forall samples self exp w self' exp' w',
    expand_samples self samples exp w = (Ok (self', exp'), w') ->
    _sample_collection_name self' = _sample_collection_name self.
Proof.
  induction samples as [|s samples IH]; intros self exp w self' exp' w' H.
  - now inversion H.
  - cbn [expand_samples] in H.
    apply bind_Ok in H. destruct H as ([] & w0 & _ & H).
    apply bind_Ok in H. destruct H as ([self1 exp1] & w1 & H1 & H).
    assert (E1 : _sample_collection_name self1 = _sample_collection_name self).
    { destruct (is_video self).
      - now apply _expand_frame_schema_collection in H1.
      - now inversion H1. }
    cbv beta iota zeta in H.
    apply bind_Ok in H. destruct H as ([self2 exp2] & w2 & H2 & H).
    apply expand_fields_collection in H2.
    cbv beta iota zeta in H. apply IH in H. congruence.
Qed.

Lemma _expand_schema_collection self samples w self' w' :
  _expand_schema self samples w = (Ok self', w') ->
  _sample_collection_name self' = _sample_collection_name self.
Proof.
  unfold _expand_schema. intros H.
  apply bind_Ok in H. destruct H as ([] & w0 & _ & H).
  apply bind_Ok in H. destruct H as ([self1 exp1] & w1 & H1 & H).
  apply expand_samples_collection in H1.
  cbv beta iota zeta in H.
  destruct exp1.
  - apply _reload_Ok in H. destruct H as (_ & _ & Hcls & _).
    unfold _sample_collection_name in *. congruence.
  - inversion H; subst. exact H1.
Qed.

Lemma set_media_type_colls self m w self' w' :
  set_media_type self m w = (Ok self', w') ->
  colls (db w') = colls (db w) /\ _deleted self' = _deleted self.
Proof.
  unfold set_media_type. intros H.
  apply bind_Ok in H. destruct H as (n & w1 & H1 & H).
  unfold __len__, count_documents, read in H1.
  apply bind_Ok in H1. destruct H1 as ([] & w0 & H0 & H1).
  apply lift_Ok in H0. destruct H0 as [H0 ->].
  apply via_getattribute_Ok in H0. destruct H0 as [Hlive _].
  unfold bind, log, ret in H1. inversion H1; subst n w1. clear H1.
  destruct (negb _); [discriminate|].
  destruct (negb _); [discriminate|].
  apply bind_Ok in H. destruct H as (d & w2 & H2 & H).
  inversion H; subst. apply save_colls in H2. cbn in H2. auto.
Qed.

Lemma frames_stored_apart (self2 : Dataset) :
  forall (l : list (Sample * doc)) w w',
    for_each l
      (fun sd =>
         lift (_sample_dict_to_doc self2 (snd sd)) ;;;
         if is_video self2 then
           insert_many (_frame_collection_name self2)
             (frame_docs (fst sd) (snd sd)) ;;;
           ret tt
         else ret tt) w = (Ok tt, w') ->
    coll (db w') (_sample_collection_name self2)
    = coll (db w) (_sample_collection_name self2)
    /\ indexes (db w') = indexes (db w).
Proof.
  induction l as [|sd l IH]; intros w w' H.
  - now inversion H.
  - cbn [for_each] in H.
    apply bind_Ok in H. destruct H as ([] & w1 & H1 & H).
    apply IH in H. destruct H as [Hc Hi].
    apply bind_Ok in H1. destruct H1 as (s & w0 & H0 & H1).
    apply lift_Ok in H0. destruct H0 as [_ ->].
    destruct (is_video self2).
    + apply bind_Ok in H1. destruct H1 as (r & w2 & H2 & H1).
      inversion H1; subst w2. clear H1.
      apply insert_many_Ok in H2. destruct H2 as (_ & _ & Hix & Hcoll & _).
      rewrite Hc, Hi, Hix, Hcoll. unfold _frame_collection_name.
      now rewrite frames_name_differs.
    + inversion H1; subst. auto.
Qed.

Lemma with_ids_In ds :
  forall n d',
    In d' (with_ids n ds) ->
    exists d, In d ds
              /\ ((has "_id" d = true /\ d' = d)
                  \/ (has "_id" d = false
                      /\ exists k, d' = ("_id", VOid k) :: d)).
Proof.
  induction ds as [|d ds IH]; intros n d' H; [contradiction|].
  cbn [with_ids] in H. destruct H as [H|H].
  - exists d. split; [now left|].
    destruct (has "_id" d); [now left|right; eauto].
  - apply IH in H. destruct H as (d0 & Hd0 & H). exists d0.
    split; [now right|exact H].
Qed.

Lemma frame_docs_sample_id sample d f :
  In f (frame_docs sample d) ->
  field "_sample_id" (VObj f) = field "_id" (VObj d)
  /\ has "_id" f = false.
Proof.
  unfold frame_docs. intros H. apply in_map_iff in H.
  destruct H as (nf & <- & _). split; [reflexivity|].
  unfold has. cbn [get String.eqb Ascii.eqb Bool.eqb].
  destruct (get "_id" (filter _ (snd nf))) as [x|] eqn:G; [|reflexivity].
  apply get_In in G. apply filter_In in G. destruct G as [_ G].
  discriminate.
Qed.

Lemma frames_stored (self2 : Dataset) :
  forall (l : list (Sample * doc)) w w',
    for_each l
      (fun sd =>
         lift (_sample_dict_to_doc self2 (snd sd)) ;;;
         if is_video self2 then
           insert_many (_frame_collection_name self2)
             (frame_docs (fst sd) (snd sd)) ;;;
           ret tt
         else ret tt) w = (Ok tt, w') ->
    forall f,
      In f (coll (db w') (_frame_collection_name self2)) ->
      In f (coll (db w) (_frame_collection_name self2))
      \/ exists sd, In sd l
                    /\ field "_sample_id" (VObj f)
                       = field "_id" (VObj (snd sd)).
Proof.
  induction l as [|sd l IH]; intros w w' H f Hf.
  - inversion H; subst. now left.
  - cbn [for_each] in H.
    apply bind_Ok in H. destruct H as ([] & w1 & H1 & H).
    destruct (IH _ _ H f Hf) as [Hold|(sd' & Hsd' & E)];
      [|right; exists sd'; split; [now right|exact E]].
    apply bind_Ok in H1. destruct H1 as (s & w0 & H0 & H1).
    apply lift_Ok in H0. destruct H0 as [_ ->].
    destruct (is_video self2).
    + apply bind_Ok in H1. destruct H1 as (r & w2 & H2 & H1).
      inversion H1; subst w2. clear H1.
      apply insert_many_Ok in H2. destruct H2 as (Hr & _ & _ & Hcoll & _).
      rewrite Hcoll, String.eqb_refl in Hold.
      apply in_app_or in Hold. destruct Hold as [Hold|Hnew]; [now left|].
      right. exists sd. split; [now left|].
      rewrite Hr in Hnew. apply with_ids_In in Hnew.
      destruct Hnew as (f0 & Hf0 & [[_ ->]|[_ [k ->]]]).
      * now apply frame_docs_sample_id in Hf0.
      * apply frame_docs_sample_id in Hf0. destruct Hf0 as [E _].
        rewrite <- E. reflexivity.
    + inversion H1; subst. now left.
Qed.

Lemma _add_samples_batch_stores self samples e v w self' ids w' :
  _add_samples_batch self samples e v w = (Ok (self', ids), w') ->
  exists next,
    let dicts' :=
      with_ids next (map to_mongo_dict (map as_inserted samples)) in
    _sample_collection_name self' = _sample_collection_name self
    /\ _deleted self = false
    /\ _deleted self' = false
    /\ coll (db w') (_sample_collection_name self)
       = (coll (db w) (_sample_collection_name self) ++ dicts')%list
    /\ ids = map (fun d => field "_id" (VObj d)) dicts'
    /\ unique_ok (coll_indexes (db w') (_sample_collection_name self))
         (coll (db w') (_sample_collection_name self)) = true
    /\ forall f,
         In f (coll (db w') (_frame_collection_name self)) ->
         In f (coll (db w) (_frame_collection_name self))
         \/ exists d', In d' dicts'
                       /\ field "_sample_id" (VObj f)
                          = field "_id" (VObj d').
Proof.
  unfold _add_samples_batch. intros H.
  apply bind_Ok in H. destruct H as ([] & w0 & Hg & H).
  apply lift_Ok in Hg. destruct Hg as [Hg ->].
  apply via_getattribute_Ok in Hg. destruct Hg as [Hlive _].
  fold as_inserted in H.
  apply bind_Ok in H. destruct H as (self1 & w1 & H1 & H).
  assert (E1 : _sample_collection_name self1 = _sample_collection_name self
               /\ colls (db w1) = colls (db w)
               /\ _deleted self1 = false).
  { destruct (media_type self); [inversion H1; subst; auto|].
    destruct (map as_inserted samples); [inversion H1; subst; auto|].
    pose proof (set_media_type_Ok _ _ _ _ _ H1) as Hc.
    apply set_media_type_colls in H1. unfold _sample_collection_name.
    rewrite Hc. destruct H1 as [? ->]. auto. }
  destruct E1 as (En1 & Ec1 & Hlive1). clear H1.
  apply bind_Ok in H. destruct H as (self2 & w2 & H2 & H).
  assert (E2 : _sample_collection_name self2 = _sample_collection_name self1
               /\ colls (db w2) = colls (db w1)
               /\ _deleted self2 = false).
  { destruct e.
    - pose proof (_expand_schema_collection _ _ _ _ _ H2) as Hc.
      apply _expand_schema_Ok in H2. tauto.
    - inversion H2; subst. auto. }
  destruct E2 as (En2 & Ec2 & Hlive2). clear H2.
  apply bind_Ok in H. destruct H as ([] & w3 & H3 & H).
  assert (E3 : w3 = w2).
  { destruct v; [now apply lift_Ok in H3|now inversion H3]. }
  subst w3. clear H3.
  apply bind_Ok in H. destruct H as (dicts' & w4 & H4 & H).
  assert (H4' : insert_many (_sample_collection_name self2)
                  (map to_mongo_dict (map as_inserted samples)) w2
                = (Ok dicts', w4)).
  { destruct (insert_many _ _ w2) as [[r|[]] wx]; inversion H4; reflexivity. }
  clear H4. apply insert_many_Ok in H4'.
  destruct H4' as (Hd & _ & Hix4 & Hcoll4 & Hu4).
  apply bind_Ok in H. destruct H as ([] & w5 & H5 & H).
  inversion H; subst self' ids w5. clear H.
  pose proof (frames_stored _ _ _ _ H5) as Hfr.
  apply frames_stored_apart in H5. destruct H5 as [Hc5 Hi5].
  exists (next_oid (db w2)). cbv zeta. rewrite <- Hd.
  assert (Efc : _frame_collection_name self2 = _frame_collection_name self).
  { unfold _frame_collection_name. now rewrite En2, En1. }
  rewrite Efc in Hfr. rewrite En2, En1 in *.
  split; [reflexivity|]. split; [exact Hlive|]. split; [exact Hlive2|].
  split; [|split; [reflexivity|split]].
  - rewrite Hc5, Hcoll4, String.eqb_refl. unfold coll. now rewrite Ec2, Ec1.
  - unfold coll_indexes. rewrite Hi5, Hc5. exact Hu4.
  - intros f Hf. destruct (Hfr f Hf) as [Hold|(sd & Hsd & E)].
    + left. rewrite Hcoll4 in Hold. unfold _frame_collection_name in Hold.
      rewrite String.eqb_sym, frames_name_differs in Hold.
      unfold coll in *. now rewrite Ec2, Ec1 in Hold.
    + right. exists (snd sd). split; [|exact E].
      destruct sd as [s0 d0]. now apply in_combine_r in Hsd.
Qed.

Lemma with_ids_length ds : forall n, List.length (with_ids n ds) = List.length ds.
Proof. induction ds as [|d ds IH]; intros n; cbn; [reflexivity|now rewrite IH]. Qed.

Lemma add_samples_stores :
  forall batches self e v w self' ids w',
    add_samples self batches e v w = (Ok (self', ids), w') ->
    _sample_collection_name self' = _sample_collection_name self
    /\ (_deleted self = false -> _deleted self' = false)
    /\ List.length (coll (db w') (_sample_collection_name self))
       = List.length (coll (db w) (_sample_collection_name self))
         + List.length (List.concat batches)
    /\ List.length ids = List.length (List.concat batches).
Proof.
  induction batches as [|b batches IH]; intros self e v w self' ids w' H.
  - inversion H; subst. cbn. auto.
  - cbn [add_samples] in H.
    apply bind_Ok in H. destruct H as ([self1 ids1] & w1 & H1 & H).
    cbv beta iota zeta in H.
    apply bind_Ok in H. destruct H as ([self2 ids2] & w2 & H2 & H).
    inversion H; subst self' ids w2. clear H.
    apply _add_samples_batch_stores in H1.
    destruct H1 as (next & Hn1 & _ & Hl1 & Hc1 & Hi1 & _).
    apply IH in H2. destruct H2 as (Hn2 & Hl2 & Hc2 & Hi2).
    rewrite Hn1 in *. split; [congruence|]. split; [auto|].
    cbn [List.concat]. rewrite !length_app, Hc2, Hc1, Hi2, Hi1.
    rewrite length_app, !length_map, !with_ids_length, !length_map.
    split; lia.
Qed.

(** X12.  When [add_samples] returns, the dataset has as many samples more
    as it was given, and one id is returned for each of them. *)
Theorem add_samples_grows_dataset :
  forall (batches : list (list Sample)) (self : Dataset)
         (expand_schema validate_ : bool) (w : world)
         (self' : Dataset) (ids : list value) (w' : world),
    _deleted self = false ->
    add_samples self batches expand_schema validate_ w
    = (Ok (self', ids), w') ->
    List.length ids = List.length (List.concat batches)
    /\ exists n w1 w2,
         __len__ self w = (Ok n, w1)
         /\ __len__ self' w'
            = (Ok (n + List.length (List.concat batches)), w2).
Proof.
  intros batches self e v w self' ids w' Hlive H.
  apply add_samples_stores in H. destruct H as (Hn & Hl & Hc & Hi).
  split; [exact Hi|].
  unfold __len__, count_documents, read, bind, lift, log, ret.
  rewrite (via_getattribute_live _ _ Hlive).
  rewrite (via_getattribute_live _ _ (Hl Hlive)).
  cbn [db]. rewrite Hn, Hc. do 3 eexists. split; reflexivity.
Qed.

Lemma add_samples_grows_dataset_example :
  exists self' ids w' w2,
    add_samples Photos.dataset
      [[Example.image_sample "c.jpg" []];
       [Example.image_sample "d.jpg" []; Example.image_sample "e.jpg" []]]
      true true Photos.world0
    = (Ok (self', ids), w')
    /\ List.length ids = 3
    /\ __len__ self' w' = (Ok 5, w2).
Proof.
  set (batches := [[Example.image_sample "c.jpg" []];
                   [Example.image_sample "d.jpg" [];
                    Example.image_sample "e.jpg" []]]).
  assert (H : exists r,
             add_samples Photos.dataset batches true true Photos.world0
             = (Ok (fst (fst r), snd (fst r)), snd r)).
  { eexists (_, _, _). vm_compute. reflexivity. }
  destruct H as [[[self' ids] w'] H]. cbn [fst snd] in H.
  destruct (add_samples_grows_dataset batches Photos.dataset true true
              Photos.world0 self' ids w' eq_refl H)
    as (Hlen & n & w1 & w2 & Hn & Hn').
  assert (E : n = 2).
  { assert (Hc : fst (__len__ Photos.dataset Photos.world0) = Ok 2)
      by (vm_compute; reflexivity).
    rewrite Hn in Hc. cbn [fst] in Hc. congruence. }
  subst n. exists self', ids, w', w2.
  split; [exact H|]. split; [exact Hlen|exact Hn'].
Defined.

(** ** Looking a sample up by its id *)

Lemma eqb_VOid a b : eqb (VOid a) (VOid b) = Nat.eqb a b.
Proof.
  unfold eqb. cbn [compare].
  destruct (Nat.compare_spec a b) as [->|L|L].
  - now rewrite Nat.eqb_refl.
  - symmetry. apply Nat.eqb_neq. lia.
  - symmetry. apply Nat.eqb_neq. lia.
Qed.

Lemma matches_id n d :
  matches [("_id", VOid n)] d
  = eqb (null_if_missing (field "_id" (VObj d))) (VOid n).
Proof. unfold matches. cbn. now rewrite andb_true_r. Qed.

Lemma find_by_id (ixs : list index) n :
  forall ds d,
    unique_ok ixs ds = true ->
    In d ds ->
    field "_id" (VObj d) = VOid n ->
    find (matches [("_id", VOid n)]) ds = Some d.
Proof.
  intros ds d U. unfold unique_ok in U. cbn [forallb] in U.
  apply andb_true_iff in U. destruct U as [U _]. revert d U.
  induction ds as [|x ds IH]; intros d U Hin Hid; [contradiction|].
  cbn [map distinct_keys] in U. apply andb_true_iff in U.
  destruct U as [Ux U]. cbn [find]. rewrite matches_id.
  destruct Hin as [->|Hin].
  - rewrite Hid. cbn [null_if_missing]. now rewrite eqb_VOid, Nat.eqb_refl.
  - destruct (eqb (null_if_missing (field "_id" (VObj x))) (VOid n)) eqn:E.
    + exfalso. apply negb_true_iff in Ux.
      assert (X : existsb (values_eqb (index_values ["_id"] x))
                    (map (index_values ["_id"]) ds) = true).
      { apply existsb_exists. exists (index_values ["_id"] d).
        split; [now apply in_map|].
        unfold index_values. cbn [map split Ascii.eqb Bool.eqb].
        unfold get_path. cbn [fold_left step]. rewrite Hid.
        cbn [null_if_missing values_eqb]. now rewrite E. }
      congruence.
    + now apply IH.
Qed.

(** X13.  The id [add_sample] returns finds the sample again:
    [dataset[id]] returns the sample with the fields it was stored with,
    its new id in front. *)
Theorem added_sample_is_found_by_id :
  forall (self : Dataset) (sample : Sample) (expand_schema validate_ : bool)
         (w : world) (self' : Dataset) (id : value) (w' : world),
    add_sample self sample expand_schema validate_ w = (Ok (self', id), w') ->
    exists n w'',
      id = VOid n
      /\ __getitem__ self' (KOid n) w'
         = (Ok (ItemSample
                  (from_doc (("_id", VOid n)
                               :: to_mongo_dict (as_inserted sample)))),
            w'').
Proof.
  intros self s e v w self' i w' H. unfold add_sample in H.
  apply bind_Ok in H. destruct H as ([self1 ids] & w1 & H1 & H).
  cbv beta iota zeta in H.
  apply _add_samples_batch_stores in H1.
  destruct H1 as (next & Hn & _ & Hlive & Hc & Hi & Hu & _).
  cbn [map with_ids] in Hc, Hi.
  assert (Hno : has "_id" (to_mongo_dict (as_inserted s)) = false).
  { unfold to_mongo_dict, has.
    destruct (get "_id" (filter _ _)) as [x|] eqn:G; [|reflexivity].
    apply get_In in G. apply filter_In in G. destruct G as [_ G].
    discriminate. }
  rewrite Hno in Hc, Hi. cbn [map] in Hi. subst ids.
  inversion H; subst self1 i w1. clear H.
  exists next.
  set (d := ("_id", VOid next) :: to_mongo_dict (as_inserted s)) in *.
  assert (Hid : field "_id" (VObj d) = VOid next) by reflexivity.
  unfold __getitem__. cbn [isinstance_Integral ObjectId].
  unfold bind at 1. unfold lift. rewrite (via_getattribute_live _ _ Hlive).
  unfold bind at 1. unfold find_one, bind, log, read, ret. cbn [db].
  rewrite Hn.
  rewrite (find_by_id _ next _ d Hu); [| |exact Hid].
  - unfold _sample_dict_to_doc. rewrite (via_getattribute_live _ _ Hlive).
    eexists. split; reflexivity.
  - rewrite Hc. apply in_or_app. right. now left.
Qed.

Lemma added_sample_is_found_by_id_example :
  exists self' n w' w'',
    add_sample Photos.dataset (Example.image_sample "c.jpg" []) true true
      Photos.world0
    = (Ok (self', VOid n), w')
    /\ __getitem__ self' (KOid n) w'
       = (Ok (ItemSample
                (from_doc
                   (("_id", VOid n)
                      :: to_mongo_dict
                           (as_inserted
                              (Example.image_sample "c.jpg" []))))),
          w'').
Proof.
  assert (H : exists r,
             add_sample Photos.dataset (Example.image_sample "c.jpg" [])
               true true Photos.world0
             = (Ok (fst (fst r), snd (fst r)), snd r)).
  { eexists (_, _, _). vm_compute. reflexivity. }
  destruct H as [[[self' i] w'] H]. cbn [fst snd] in H.
  destruct (added_sample_is_found_by_id _ _ _ _ _ _ _ _ H)
    as (n & w'' & -> & Hget).
  exists self', n, w', w''. split; [exact H|exact Hget].
Defined.

(** ** Deleting samples *)

Lemma eqb_VOid_r x n : eqb x (VOid n) = true -> x = VOid n.
Proof.
  destruct x; try discriminate. rewrite eqb_VOid. intros H.
  apply Nat.eqb_eq in H. now subst.
Qed.

Lemma eqb_VOid_l x n : eqb (VOid n) x = true -> x = VOid n.
Proof.
  destruct x; try discriminate. rewrite eqb_VOid. intros H.
  apply Nat.eqb_eq in H. now subst.
Qed.

Lemma existsb_VOid x ids :
  existsb (eqb x) (map VOid ids) = true -> exists n, In n ids /\ x = VOid n.
Proof.
  intros H. apply existsb_exists in H. destruct H as (y & Hy & E).
  apply in_map_iff in Hy. destruct Hy as (n & <- & Hn).
  apply eqb_VOid_r in E. eauto.
Qed.

Lemma existsb_VOid_In n ids :
  In n ids -> existsb (eqb (VOid n)) (map VOid ids) = true.
Proof.
  intros H. apply existsb_exists. exists (VOid n).
  split; [now apply in_map|]. now rewrite eqb_VOid, Nat.eqb_refl.
Qed.

(** X14.  [Dataset.delete_samples(ids)] on a video dataset removes the
    samples with these ids and every frame that refers to one of them;
    nothing else is removed, and if every frame referred to a sample of the
    dataset before, every frame does so afterwards. *)
Theorem delete_samples_takes_frames_along :
  forall (self : Dataset) (sample_ids : list nat) (w : world),
    _deleted self = false ->
    is_video self = true ->
    frames_consistent (db w) self = true ->
    exists w',
      delete_samples self sample_ids w = (Ok tt, w')
      /\ coll (db w') (_sample_collection_name self)
         = filter (fun d => negb (existsb (eqb (field "_id" (VObj d)))
                                    (map VOid sample_ids)))
             (coll (db w) (_sample_collection_name self))
      /\ coll (db w') (_frame_collection_name self)
         = filter (fun d => negb (existsb (eqb (field "_sample_id" (VObj d)))
                                    (map VOid sample_ids)))
             (coll (db w) (_frame_collection_name self))
      /\ frames_consistent (db w') self = true
      /\ dataset_docs w' = dataset_docs w.
Proof.
  intros self ids w Hlive Hvideo Hcons.
  unfold delete_samples, delete_many_in, bind, lift, ret.
  rewrite !(via_getattribute_live _ _ Hlive). rewrite Hvideo.
  eexists. split; [reflexivity|].
  cbn [db with_db dataset_docs colls indexes next_oid].
  set (c := _sample_collection_name self).
  set (fc := _frame_collection_name self).
  assert (Hne : String.eqb c fc = false) by apply frames_name_differs.
  assert (Hne' : String.eqb fc c = false)
    by (rewrite String.eqb_sym; exact Hne).
  rewrite !coll_set, String.eqb_refl, Hne, Hne'.
  change (coll {| colls := colls (db w); indexes := indexes (db w);
                  next_oid := next_oid (db w) |} ?x) with (coll (db w) x).
  rewrite String.eqb_refl.
  change (get_path (split "." "_id") (VObj ?d)) with (field "_id" (VObj d)).
  change (get_path (split "." "_sample_id") (VObj ?d))
    with (field "_sample_id" (VObj d)).
  split; [reflexivity|]. split; [reflexivity|]. split; [|reflexivity].
  unfold frames_consistent in *. fold c fc in Hcons |- *.
  rewrite !coll_set, String.eqb_refl, Hne, Hne'.
  change (coll {| colls := colls (db w); indexes := indexes (db w);
                  next_oid := next_oid (db w) |} ?x) with (coll (db w) x).
  rewrite String.eqb_refl.
  rewrite forallb_forall in *. intros f Hf. apply filter_In in Hf.
  destruct Hf as [Hf Hkept]. specialize (Hcons f Hf).
  apply existsb_exists in Hcons. destruct Hcons as (s & Hs & E).
  apply existsb_exists. exists s. split; [|exact E].
  apply filter_In. split; [exact Hs|].
  apply negb_true_iff.
  destruct (existsb (eqb (field "_id" (VObj s))) (map VOid ids)) eqn:X;
    [|reflexivity].
  exfalso. apply existsb_VOid in X. destruct X as (n & Hn & Hid).
  rewrite Hid in E. apply eqb_VOid_l in E.
  apply negb_true_iff in Hkept. rewrite E in Hkept.
  now rewrite (existsb_VOid_In n ids Hn) in Hkept.
Qed.

Lemma delete_samples_takes_frames_along_example :
  List.length (coll (db Clips.world0) (_frame_collection_name Clips.clips))
  = 1
  /\ exists w',
       delete_samples Clips.clips [1001] Clips.world0 = (Ok tt, w')
       /\ coll (db w') (_sample_collection_name Clips.clips) = []
       /\ coll (db w') (_frame_collection_name Clips.clips) = [].
Proof.
  split; [reflexivity|].
  destruct (delete_samples_takes_frames_along Clips.clips [1001] Clips.world0
              eq_refl eq_refl eq_refl) as (w' & H & Hs & Hf & _).
  exists w'. split; [exact H|]. rewrite Hs, Hf. split; reflexivity.
Defined.

(** ** Refusing undeclared fields *)

Lemma validate_samples_undeclared fields name :
  forall samples,
    Exists (fun s => exists f v,
                In (f, v) (iter_fields s) /\ v <> VNull
                /\ get f fields = None) samples ->
    exists e, validate_samples fields name samples = Raise e.
Proof.
  induction samples as [|s samples IH]; intros H; [inversion H|].
  cbn [validate_samples].
  destruct (forallb _ (iter_fields s)); [|eauto].
  destruct (existsb _ (iter_fields s)) eqn:E; [eauto|].
  inversion H as [? ? (f & v & Hin & Hv & Hf)|? ? Hrest]; subst.
  - exfalso.
    assert (X : existsb
                  (fun kv : string * value =>
                     match get (fst kv) fields, snd kv with
                     | None, VNull => false
                     | None, _ => true
                     | Some _, _ => false
                     end) (iter_fields s) = true).
    { apply existsb_exists. exists (f, v). split; [exact Hin|].
      cbn [fst snd]. rewrite Hf. destruct v; congruence. }
    congruence.
  - now apply IH.
Qed.

Lemma In_as_inserted f v s :
  is_id_field f = false ->
  In (f, v) (sample_fields s) ->
  In (f, v) (sample_fields (as_inserted s)).
Proof.
  intros Hf Hin. unfold as_inserted. destruct (_in_db s); [|exact Hin].
  cbn [copy_sample sample_fields]. apply in_map_iff. exists (f, v).
  cbn [fst]. now rewrite Hf.
Qed.

Lemma set_media_type_run self m w r w' :
  set_media_type self m w = (r, w') ->
  colls (db w') = colls (db w)
  /\ forall self', r = Ok self' ->
       _sample_doc_cls self' = _sample_doc_cls self
       /\ _deleted self' = _deleted self.
Proof.
  unfold set_media_type, __len__, count_documents, read.
  unfold bind at 1. unfold bind at 1. unfold lift at 1.
  destruct (via_getattribute self tt) as [[]|e].
  2:{ intros H. inversion H; subst. split; [reflexivity|discriminate]. }
  unfold bind at 1. unfold log at 1. unfold bind at 1. unfold ret at 1.
  cbn [db].
  destruct (negb _).
  { intros H. inversion H; subst. split; [reflexivity|discriminate]. }
  destruct (negb _).
  { intros H. inversion H; subst. split; [reflexivity|discriminate]. }
  unfold bind at 1.
  match goal with |- context [save ?d ?w0] =>
    destruct (save d w0) as [[d'|e] w1] eqn:Es end.
  - apply save_colls in Es. cbn [db colls] in Es.
    intros H. inversion H; subst. split; [exact Es|].
    intros self' E. inversion E; subst. auto.
  - apply save_colls in Es. cbn [db colls] in Es.
    intros H. inversion H; subst. split; [exact Es|discriminate].
Qed.

Lemma _validate_samples_undeclared self samples :
  Exists (fun s => exists f v,
              In (f, v) (sample_fields s) /\ v <> VNull
              /\ is_private f = false /\ is_id_field f = false
              /\ has f (get_field_schema self true) = false) samples ->
  exists e, _validate_samples self (map as_inserted samples) = Raise e.
Proof.
  intros Hex. unfold _validate_samples, via_getattribute.
  destruct (_deleted self); [eexists; reflexivity|]. cbn [bind_outcome].
  apply validate_samples_undeclared.
  apply Exists_exists in Hex.
  destruct Hex as (s & Hs & f & v & H1 & H2 & H3 & H4 & H5).
  apply Exists_exists. exists (as_inserted s). split; [now apply in_map|].
  exists f, v. split; [|split; [exact H2|]].
  - unfold iter_fields. apply filter_In. split.
    + now apply In_as_inserted.
    + cbn [fst]. now rewrite H3.
  - unfold has in H5. now destruct (get f (get_field_schema self true)).
Qed.

(** X15.  With [expand_schema=False] and [validate=True], a batch in which
    some sample carries a value other than [None] in a public field that
    the dataset does not declare is refused as a whole: [_add_samples_batch]
    raises and no sample of the batch is stored, no collection being
    touched.  On a dataset that has its media type already the world is
    left as it was. *)
Theorem undeclared_field_is_refused :
  forall (self : Dataset) (samples : list Sample) (w : world),
    Exists (fun s => exists f v,
                In (f, v) (sample_fields s) /\ v <> VNull
                /\ is_private f = false /\ is_id_field f = false
                /\ has f (get_field_schema self true) = false) samples ->
    exists e w',
      _add_samples_batch self samples false true w = (Raise e, w')
      /\ colls (db w') = colls (db w)
      /\ (media_type self <> None -> w' = w).
Proof.
  intros self samples w Hex.
  unfold _add_samples_batch. fold as_inserted.
  unfold bind at 1. unfold lift at 1.
  destruct (_deleted self) eqn:Hdel.
  { unfold via_getattribute. rewrite Hdel. eauto. }
  rewrite (via_getattribute_live _ _ Hdel).
  destruct (media_type self) as [m|] eqn:Hm.
  - unfold bind at 1. unfold ret at 1.
    unfold bind at 1. unfold ret at 1.
    unfold bind at 1. unfold lift at 1.
    destruct (_validate_samples_undeclared self samples Hex) as [e He].
    rewrite He. eauto.
  - destruct samples as [|s0 samples]; [inversion Hex|].
    cbn [map]. unfold bind at 1.
    destruct (set_media_type self (sample_media_type (as_inserted s0)) w)
      as [[self1|e] w1] eqn:Es;
      apply set_media_type_run in Es; destruct Es as [Hc Hs].
    + destruct (Hs self1 eq_refl) as [Hcls Hd].
      unfold bind at 1. unfold ret at 1.
      unfold bind at 1. unfold lift at 1.
      assert (Hex1 : Exists
                       (fun s => exists f v,
                            In (f, v) (sample_fields s) /\ v <> VNull
                            /\ is_private f = false /\ is_id_field f = false
                            /\ has f (get_field_schema self1 true) = false)
                       (s0 :: samples)).
      { eapply Exists_impl; [|exact Hex]. cbn beta.
        intros s (f & v & H1 & H2 & H3 & H4 & H5).
        exists f, v. repeat split; auto.
        unfold get_field_schema in *. now rewrite Hcls. }
      destruct (_validate_samples_undeclared self1 _ Hex1) as [e He].
      cbn [map] in He. rewrite He.
      exists e, w1. split; [reflexivity|]. split; [exact Hc|congruence].
    + exists e, w1. split; [reflexivity|]. split; [exact Hc|congruence].
Qed.

Lemma undeclared_field_is_refused_example :
  has "mood" (get_field_schema Photos.dataset true) = false
  /\ exists e,
       _add_samples_batch Photos.dataset
         [Example.image_sample "c.jpg" [];
          Example.image_sample "d.jpg" [("mood", VStr "calm")]]
         false true Photos.world0
       = (Raise e, Photos.world0).
Proof.
  split; [reflexivity|].
  destruct (undeclared_field_is_refused Photos.dataset
              [Example.image_sample "c.jpg" [];
               Example.image_sample "d.jpg" [("mood", VStr "calm")]]
              Photos.world0) as (e & w' & H & _ & Hw).
  - apply Exists_cons_tl, Exists_cons_hd.
    exists "mood", (VStr "calm").
    split; [cbn; tauto|]. split; [discriminate|].
    repeat split; reflexivity.
  - exists e. rewrite H. f_equal. apply Hw. discriminate.
Defined.

(** ** Frames stay attached *)

Lemma to_mongo_dict_no_id s : has "_id" (to_mongo_dict s) = false.
Proof.
  unfold to_mongo_dict, has.
  destruct (get "_id" (filter _ _)) as [x|] eqn:G; [|reflexivity].
  apply get_In in G. apply filter_In in G. destruct G as [_ G].
  discriminate.
Qed.

Lemma _add_samples_batch_consistent self samples e v w self' ids w' :
  _add_samples_batch self samples e v w = (Ok (self', ids), w') ->
  frames_consistent (db w) self = true ->
  frames_consistent (db w') self' = true
  /\ _sample_collection_name self' = _sample_collection_name self.
Proof.
  intros H Hcons. apply _add_samples_batch_stores in H.
  destruct H as (next & Hn & _ & _ & Hc & _ & _ & Hfr).
  split; [|exact Hn].
  unfold frames_consistent in *. unfold _frame_collection_name in *.
  rewrite Hn. rewrite forallb_forall in *. intros f Hf.
  apply existsb_exists.
  destruct (Hfr f Hf) as [Hold|(d' & Hd' & E)].
  - specialize (Hcons f Hold). apply existsb_exists in Hcons.
    destruct Hcons as (s & Hs & Es). exists s. split; [|exact Es].
    rewrite Hc. apply in_or_app. now left.
  - exists d'. split.
    + rewrite Hc. apply in_or_app. now right.
    + rewrite E. apply with_ids_In in Hd'.
      destruct Hd' as (d & Hd & [[Hhas _]|[_ [k ->]]]).
      * apply in_map_iff in Hd. destruct Hd as (s & <- & _).
        now rewrite to_mongo_dict_no_id in Hhas.
      * change (field "_id" (VObj (("_id", VOid k) :: d))) with (VOid k).
        now rewrite eqb_VOid, Nat.eqb_refl.
Qed.

(** X16.  Adding samples keeps the frames attached: if every frame of the
    dataset referred to one of its samples before [add_samples], every
    frame does so afterwards, the frames stored for the new samples
    included. *)
Theorem add_samples_keeps_frames_attached :
  forall (batches : list (list Sample)) (self : Dataset)
         (expand_schema validate_ : bool) (w : world)
         (self' : Dataset) (ids : list value) (w' : world),
    add_samples self batches expand_schema validate_ w
    = (Ok (self', ids), w') ->
    frames_consistent (db w) self = true ->
    frames_consistent (db w') self' = true.
Proof.
  induction batches as [|b batches IH];
    intros self e v w self' ids w' H Hcons.
  - inversion H; subst. exact Hcons.
  - cbn [add_samples] in H.
    apply bind_Ok in H. destruct H as ([self1 ids1] & w1 & H1 & H).
    cbv beta iota zeta in H.
    apply bind_Ok in H. destruct H as ([self2 ids2] & w2 & H2 & H).
    inversion H; subst self' ids w2. clear H.
    apply _add_samples_batch_consistent in H1; [|exact Hcons].
    destruct H1 as [H1 _]. exact (IH _ _ _ _ _ _ _ H2 H1).
Qed.

Lemma add_samples_keeps_frames_attached_example :
  exists self' ids w',
    add_samples Clips.clips
      [[Example.video_sample "c.mp4"
          [(1, [("frame_number", VInt 1)]); (2, [("frame_number", VInt 2)])]]]
      true true Clips.world0
    = (Ok (self', ids), w')
    /\ List.length (coll (db w') (_frame_collection_name self')) = 3
    /\ frames_consistent (db w') self' = true.
Proof.
  set (batches := [[Example.video_sample "c.mp4"
                      [(1, [("frame_number", VInt 1)]);
                       (2, [("frame_number", VInt 2)])]]]).
  assert (H : exists r,
             add_samples Clips.clips batches true true Clips.world0
             = (Ok (fst (fst r), snd (fst r)), snd r)
             /\ List.length
                  (coll (db (snd r)) (_frame_collection_name (fst (fst r))))
                = 3).
  { eexists (_, _, _). split; vm_compute; reflexivity. }
  destruct H as [[[self' ids] w'] [H Hlen]]. cbn [fst snd] in H, Hlen.
  exists self', ids, w'. split; [exact H|]. split; [exact Hlen|].
  exact (add_samples_keeps_frames_attached batches Clips.clips true true
           Clips.world0 self' ids w' H eq_refl).
Defined.

(** ** What a clone holds *)

Lemma create_index_colls c k u w r w' :
  create_index c k u w = (r, w') -> colls (db w') = colls (db w).
Proof.
  unfold create_index, bind, log. cbn.
  repeat match goal with
         | |- context [if ?b then _ else _] => destruct b
         end; intros H; inversion H; reflexivity.
Qed.

Lemma _create_indexes_colls a b w w' :
  _create_indexes a b w = (Ok tt, w') -> colls (db w') = colls (db w).
Proof.
  unfold _create_indexes. intros H.
  apply bind_Ok in H. destruct H as (x & w1 & H1 & H).
  apply bind_Ok in H. destruct H as (y & w2 & H2 & H).
  inversion H; subst. apply create_index_colls in H1, H2. congruence.
Qed.

Lemma with_ids_same ds :
  Forall (fun d => has "_id" d = true) ds ->
  forall n, with_ids n ds = ds.
Proof.
  induction 1 as [|d ds Hd Hds IH]; intros n; [reflexivity|].
  cbn [with_ids]. now rewrite Hd, IH.
Qed.

Lemma aggregate_out c scn w r w' :
  aggregate_all c [Out scn] w = (Ok r, w') ->
  Forall (fun d => has "_id" d = true) (coll (db w) c) ->
  forall c', coll (db w') c'
             = if String.eqb c' scn then coll (db w) c else coll (db w) c'.
Proof.
  unfold aggregate_all, bind, log. cbn [db].
  unfold aggregate. cbn [run_pipeline run_stage].
  destruct (gen_ids_with_ids (coll (db w) c) (db w)) as [n Hn]. rewrite Hn.
  unfold write_coll.
  destruct (unique_ok _ _); [|discriminate].
  cbn [run_pipeline]. intros H Hids. inversion H; subst r w'. clear H.
  intros c'. cbn [db with_db]. rewrite coll_set.
  rewrite (with_ids_same _ Hids). destruct (String.eqb c' scn); reflexivity.
Qed.

(** X17.  When [Dataset.clone] returns for a dataset that is not a video
    dataset, the clone holds exactly the sample documents of the source,
    with the same ids and in the same order, and the samples of the source
    are as they were. *)
Theorem clone_copies_the_samples :
  forall (self : Dataset) (new_name : option string) (w : world)
         (source clone_dataset : Dataset) (w' : world),
    clone self new_name w = (Ok (source, clone_dataset), w') ->
    is_video source = false ->
    Forall (fun d => has "_id" d = true)
      (coll (db w) (_sample_collection_name self)) ->
    coll (db w') (_sample_collection_name clone_dataset)
    = coll (db w) (_sample_collection_name self)
    /\ coll (db w') (_sample_collection_name self)
       = coll (db w) (_sample_collection_name self)
    /\ _sample_collection_name source = _sample_collection_name self.
Proof.
  intros self name0 w source cl w' H Hvideo Hids.
  unfold clone, _clone in H.
  apply bind_Ok in H. destruct H as ([] & w1 & H1 & H).
  apply lift_Ok in H1. destruct H1 as [_ ->].
  apply bind_Ok in H. destruct H as (n & w1 & Hn & H).
  assert (Hw1 : db w1 = db w /\ dataset_docs w1 = dataset_docs w).
  { destruct name0;
      unfold ret, get_default_dataset_name, _list_datasets, bind in Hn;
      inversion Hn; auto. }
  destruct Hw1 as [Hdb1 Hdocs1]. clear Hn.
  unfold _clone_dataset_or_view in H.
  apply bind_Ok in H. destruct H as (ex & w2 & Hex & H).
  apply dataset_exists_Ok in Hex. destruct Hex as (Hnone & Hdb2 & Hdocs2).
  destruct ex; [discriminate|]. specialize (Hnone eq_refl).
  apply bind_Ok in H. destruct H as (ds & w3 & Hrel & H).
  apply _reload_Ok in Hrel.
  destruct Hrel as (Hfind & Hlive & Hcls & Hdb3 & Hdocs3).
  apply bind_Ok in H. destruct H as (scn & w4 & Hscn & H).
  apply _make_sample_collection_name_Ok in Hscn.
  destruct Hscn as [Hdb4 Hdocs4].
  apply bind_Ok in H. destruct H as (d1 & w5 & Hsave & H).
  pose proof (save_colls _ _ _ _ Hsave) as Hc5.
  apply save_new_Ok in Hsave; [|reflexivity]. destruct Hsave as [Hd1 Hdocs5].
  apply bind_Ok in H. destruct H as ([] & w6 & Hidx & H).
  pose proof (_create_indexes_colls _ _ _ _ Hidx) as Hc6.
  apply keeps_docs__create_indexes in Hidx.
  apply bind_Ok in H. destruct H as (pl & w7 & Hpl & H).
  apply lift_Ok in Hpl. destruct Hpl as [Hpl ->].
  apply bind_Ok in H. destruct H as (r8 & w8 & Hagg & H).
  pose proof (keeps_docs_aggregate_all _ _ _ _ _ Hagg) as Hdocs8.
  apply bind_Ok in H. destruct H as ([] & w9 & Hfr & H).
  apply bind_Ok in H. destruct H as (cl0 & w10 & Hload & H).
  apply bind_Ok in H. destruct H as (cl1 & w11 & Hruns & H).
  inversion H; subst source cl w'. clear H.
  rewrite Hvideo in Hfr. inversion Hfr; subst w9. clear Hfr.
  (* the pipeline of a dataset that is no video dataset is empty *)
  assert (Epl : pl = []).
  { unfold _pipeline in Hpl. rewrite (via_getattribute_live _ _ Hlive) in Hpl.
    cbn [bind_outcome] in Hpl. unfold is_video in Hvideo.
    destruct (media_type ds) as [m|].
    - rewrite Hvideo in Hpl. cbn in Hpl. now inversion Hpl.
    - cbn in Hpl. now inversion Hpl. }
  subst pl. cbn [app] in Hagg.
  assert (Ec : _sample_collection_name ds = _sample_collection_name self).
  { unfold _sample_collection_name. now rewrite Hcls. }
  assert (Hcoll6 : coll (db w6) (_sample_collection_name self)
                   = coll (db w) (_sample_collection_name self)).
  { unfold coll. rewrite Hc6, Hc5. cbn. now rewrite Hdb4, Hdb3, Hdb2, Hdb1. }
  rewrite Ec in Hagg.
  pose proof (aggregate_out _ _ _ _ _ Hagg) as Hout.
  rewrite Hcoll6 in Hout. specialize (Hout Hids).
  (* the clone is loaded from the document just saved *)
  assert (Hall : dataset_docs w8 = (dataset_docs w ++ [d1])%list)
    by congruence.
  assert (Hfind1 : find_dataset_doc n (dataset_docs w8) = Some d1).
  { rewrite Hall. unfold find_dataset_doc in *.
    rewrite find_app_none by congruence. cbn.
    subst d1. cbn. now rewrite String.eqb_refl. }
  destruct (load_dataset_run n w8 d1 Hfind1)
    as (cl0' & w10' & Hload' & Hdoc0 & _ & Hscn0 & Hdb10 & _).
  rewrite Hload in Hload'. inversion Hload'; subst cl0' w10'. clear Hload'.
  assert (Hscn1 : _sample_collection_name cl0 = scn).
  { rewrite Hscn0. subst d1. reflexivity. }
  assert (Hfinal : _sample_collection_name cl1 = scn
                   /\ colls (db w11) = colls (db w8)).
  { destruct (negb _ || negb _) in Hruns.
    - unfold _clone_runs in Hruns.
      apply bind_Ok in Hruns. destruct Hruns as ([] & wa & Ha & Hruns).
      apply lift_Ok in Ha. destruct Ha as [_ ->].
      apply bind_Ok in Hruns. destruct Hruns as (dd & wb & Hb & Hruns).
      inversion Hruns; subst cl1 wb. apply save_colls in Hb.
      split; [exact Hscn1|]. now rewrite Hb, Hdb10.
    - inversion Hruns; subst cl1 w11. split; [exact Hscn1|]. now rewrite Hdb10. }
  destruct Hfinal as [Hscn2 Hc11].
  assert (Hcoll11 : forall c', coll (db w11) c' = coll (db w8) c').
  { intros c'. unfold coll. now rewrite Hc11. }
  rewrite !Hcoll11, !Hout, Hscn2, String.eqb_refl.
  split; [reflexivity|]. split; [|exact Ec].
  destruct (String.eqb _ scn); [reflexivity|].
  unfold coll. rewrite Hc6, Hc5. cbn. now rewrite Hdb4, Hdb3, Hdb2, Hdb1.
Qed.

Lemma clone_copies_the_samples_example :
  exists source clone_dataset w',
    clone Photos.dataset (Some "copy") Photos.world0
    = (Ok (source, clone_dataset), w')
    /\ _sample_collection_name clone_dataset
       <> _sample_collection_name Photos.dataset
    /\ coll (db w') (_sample_collection_name clone_dataset)
       = coll (db Photos.world0) (_sample_collection_name Photos.dataset)
    /\ List.length (coll (db w') (_sample_collection_name clone_dataset)) = 2.
Proof.
  assert (H : exists r,
             clone Photos.dataset (Some "copy") Photos.world0
             = (Ok (fst (fst r), snd (fst r)), snd r)
             /\ is_video (fst (fst r)) = false
             /\ _sample_collection_name (snd (fst r))
                <> _sample_collection_name Photos.dataset).
  { eexists (_, _, _). split; [vm_compute; reflexivity|].
    split; [vm_compute; reflexivity|vm_compute; discriminate]. }
  destruct H as [[[source cl] w'] (H & Hv & Hne)]. cbn [fst snd] in H, Hv, Hne.
  assert (Hids : Forall (fun d => has "_id" d = true)
                   (coll (db Photos.world0)
                      (_sample_collection_name Photos.dataset))).
  { repeat constructor. }
  destruct (clone_copies_the_samples Photos.dataset (Some "copy")
              Photos.world0 source cl w' H Hv Hids) as (Hc & _ & _).
  exists source, cl, w'. split; [exact H|]. split; [exact Hne|].
  split; [exact Hc|]. rewrite Hc. reflexivity.
Defined.

Lemma keeps_colls_bind_val {A B : Type} (m : M A) (k : A -> M B)
    (P : A -> Prop) :
  (forall w a w', m w = (Ok a, w') -> P a) ->
  keeps_colls m ->
  (forall a, P a -> keeps_colls (k a)) ->
  keeps_colls (bind m k).
Proof.
  intros HP Hm Hk w r w'. unfold bind.
  destruct (m w) as [[a|e] w1] eqn:E.
  - intros H. destruct (Hm _ _ _ E) as [H1 H2].
    destruct (Hk a (HP _ _ _ E) _ _ _ H) as [H3 H4]. split; congruence.
  - intros H. inversion H; subst. exact (Hm _ _ _ E).
Qed.

Lemma keeps_colls_bind {A B : Type} (m : M A) (k : A -> M B) :
  keeps_colls m -> (forall a, keeps_colls (k a)) -> keeps_colls (bind m k).
Proof.
  intros Hm Hk. apply (keeps_colls_bind_val m k (fun _ => True)); auto.
Qed.

Lemma keeps_colls_ret {A : Type} (a : A) : keeps_colls (ret a).
Proof. intros w r w' H. inversion H. auto. Qed.

Lemma keeps_colls_raise {A : Type} (e : exn) : keeps_colls (@raise A e).
Proof. intros w r w' H. inversion H. auto. Qed.

Lemma keeps_colls_lift {A : Type} (o : outcome A) : keeps_colls (lift o).
Proof. intros w r w' H. inversion H. auto. Qed.

Lemma keeps_colls_log c : keeps_colls (log c).
Proof. intros w r w' H. inversion H. auto. Qed.

Lemma keeps_colls_index_information c : keeps_colls (index_information c).
Proof.
  apply keeps_colls_bind; [apply keeps_colls_log|]. intros _ w r w' H.
  inversion H. auto.
Qed.

Lemma keeps_colls_create_index c k u : keeps_colls (create_index c k u).
Proof.
  apply keeps_colls_bind; [apply keeps_colls_log|]. intros _ w r w'.
  cbv beta zeta.
  repeat match goal with |- context [if ?b then _ else _] => destruct b end;
    intros H; inversion H; auto.
Qed.

Lemma keeps_colls_drop_index c n : keeps_colls (drop_index c n).
Proof.
  apply keeps_colls_bind; [apply keeps_colls_log|]. intros _ w r w'.
  cbv beta zeta.
  repeat match goal with |- context [if ?b then _ else _] => destruct b end;
    intros H; inversion H; auto.
Qed.

Lemma keeps_colls__ensure_index ds f u : keeps_colls (_ensure_index ds f u).
Proof.
  unfold _ensure_index.
  apply keeps_colls_bind; [apply keeps_colls_lift|]. intros _.
  apply keeps_colls_bind; [apply keeps_colls_index_information|]. intros ixs.
  destruct (get f (index_map ixs)) as [i|].
  - destruct (_ || _); [apply keeps_colls_ret|].
    apply keeps_colls_bind; [apply keeps_colls_drop_index|]. intros _.
    apply keeps_colls_bind; [apply keeps_colls_create_index|]. intros _.
    apply keeps_colls_ret.
  - apply keeps_colls_bind; [apply keeps_colls_create_index|]. intros _.
    apply keeps_colls_ret.
Qed.

Lemma keeps_colls_Dataset_drop_index ds f :
  keeps_colls (Dataset_drop_index ds f).
Proof.
  unfold Dataset_drop_index.
  apply keeps_colls_bind; [apply keeps_colls_lift|]. intros _.
  apply keeps_colls_bind; [apply keeps_colls_index_information|]. intros ixs.
  destruct (get f (index_map ixs)) as [i|].
  - apply keeps_colls_drop_index.
  - destruct (_ && _); apply keeps_colls_raise.
Qed.

Lemma keeps_colls_Dataset_create_index ds f u :
  keeps_colls (Dataset_create_index ds f u).
Proof.
  unfold Dataset_create_index.
  apply keeps_colls_bind; [apply keeps_colls_lift|]. intros _.
  destruct (negb _); [apply keeps_colls_raise|].
  apply keeps_colls_bind; [apply keeps_colls_index_information|]. intros ixs.
  destruct (get f (index_map ixs)) as [i|].
  - destruct (_ || _); [apply keeps_colls_ret|].
    apply keeps_colls_bind; [apply keeps_colls_Dataset_drop_index|]. intros _.
    apply keeps_colls_bind; [apply keeps_colls_create_index|]. intros _.
    apply keeps_colls_ret.
  - apply keeps_colls_bind; [apply keeps_colls_create_index|]. intros _.
    apply keeps_colls_ret.
Qed.

(** *** A [$merge] that keeps what exists and discards what is new *)

Lemma set_same {A} k (v : A) d : get k d = Some v -> set k v d = d.
Proof.
  induction d as [|[k1 v1] d IH]; cbn; [discriminate|].
  destruct (String.eqb_spec k k1) as [->|Hne].
  - intros H. now inversion H.
  - intros H. now rewrite IH.
Qed.

Lemma update_first_same p (f : doc -> option doc) :
  (forall t t', f t = Some t' -> t' = t) ->
  forall l l', update_first p f l = Some (Some l') -> l' = l.
Proof.
  intros Hf. induction l as [|t l IH]; intros l' H; [discriminate|].
  cbn [update_first] in H. destruct (p t).
  - destruct (f t) as [t'|] eqn:E; [|discriminate].
    cbn in H. inversion H. now rewrite (Hf _ _ E).
  - destruct (update_first p f l) as [[l0|]|]; try discriminate.
    cbn in H. inversion H. now rewrite (IH l0 eq_refl).
Qed.

Lemma gen_id_colls d x : colls (fst (gen_id d x)) = colls d.
Proof. unfold gen_id. now destruct (has "_id" x). Qed.

Lemma merge_one_keep_discard into on d incoming d' :
  merge_one (fun _ t => Some t) "discard" into on d incoming = Some d' ->
  colls d' = colls d.
Proof.
  unfold merge_one.
  assert (G : colls (fst (if mem "_id" on then gen_id d incoming
                          else (d, incoming))) = colls d).
  { destruct (mem "_id" on); [apply gen_id_colls|reflexivity]. }
  destruct (if mem "_id" on then gen_id d incoming else (d, incoming))
    as [db1 x]. cbn [fst] in G.
  destruct (negb _); [discriminate|].
  destruct (update_first _ _ (coll db1 into)) as [[l'|]|] eqn:U;
    [| |discriminate].
  - assert (E : get into (colls db1) = Some (coll db1 into)).
    { unfold coll in *. destruct (get into (colls db1)); [reflexivity|].
      discriminate. }
    apply update_first_same in U.
    + subst l'. unfold write_coll. destruct (unique_ok _ _); [|discriminate].
      intros H. inversion H. cbn [colls]. rewrite <- G.
      now apply set_same.
    + intros t t' Ht. destruct (eqb _ _); [now inversion Ht|discriminate].
  - cbn [String.eqb Ascii.eqb Bool.eqb]. intros H. inversion H. congruence.
Qed.

Lemma merge_all_keep_discard into on :
  forall ds d,
    colls (snd (merge_all (fun _ t => Some t) "discard" into on d ds))
    = colls d.
Proof.
  induction ds as [|x ds IH]; intros d; [reflexivity|].
  cbn [merge_all].
  destruct (merge_one _ _ _ _ d x) as [d'|] eqn:E; [|reflexivity].
  rewrite IH. now apply merge_one_keep_discard in E.
Qed.

Lemma run_stage_read_only d rho s ds :
  read_only s = true -> snd (run_stage d rho s ds) = d.
Proof. destruct s; try discriminate; reflexivity. Qed.

Lemma run_pipeline_read_only p :
  forallb read_only p = true ->
  forall d ds, snd (run_pipeline d p ds) = d.
Proof.
  induction p as [|s p IH]; intros H d ds; [reflexivity|].
  cbn [forallb] in H. apply andb_true_iff in H. destruct H as [Hs Hp].
  cbn [run_pipeline].
  pose proof (run_stage_read_only d [] s ds Hs) as E.
  destruct (run_stage d [] s ds) as [[ds'|] d']; cbn [snd] in E; subst d'.
  - now apply IH.
  - reflexivity.
Qed.

Lemma aggregate_keep_discard c p into on :
  forallb read_only p = true ->
  keeps_colls
    (aggregate_all c (p ++ [Merge into on (inl "keepExisting") "discard"])).
Proof.
  intros Hp. unfold aggregate_all.
  apply keeps_colls_bind; [apply keeps_colls_log|]. intros _ w r w'.
  unfold aggregate. rewrite run_pipeline_app.
  pose proof (run_pipeline_read_only p Hp (db w) (coll (db w) c)) as E.
  destruct (run_pipeline (db w) p (coll (db w) c)) as [[ds'|] d'];
    cbn [snd] in E; subst d'.
  - cbn [run_pipeline run_stage].
    destruct (negb (has_unique_index (db w) into on)).
    + intros H. inversion H. cbn. auto.
    + cbn [String.eqb Ascii.eqb Bool.eqb].
      pose proof (merge_all_keep_discard into on ds' (db w)) as M.
      destruct (merge_all _ _ _ _ _ _) as [[] d2]; cbn [snd] in M;
        cbn [ended fst snd run_pipeline]; intros H; inversion H; cbn; auto.
  - intros H. inversion H. cbn. auto.
Qed.

Lemma _pipeline_plain self p :
  _pipeline self (Some p) false false false = Ok p
  \/ exists e, _pipeline self (Some p) false false false = Raise e.
Proof.
  unfold _pipeline, via_getattribute.
  destruct (_deleted self); [right; eexists; reflexivity|].
  cbn [bind_outcome]. left.
  destruct (media_type self) as [m|];
    [destruct (String.eqb m fom.VIDEO)|]; reflexivity.
Qed.

Lemma _pipeline_detached self :
  _pipeline self None false true false = Ok []
  \/ exists e, _pipeline self None false true false = Raise e.
Proof.
  unfold _pipeline, via_getattribute.
  destruct (_deleted self); [right; eexists; reflexivity|].
  cbn [bind_outcome]. left.
  destruct (media_type self) as [m|];
    [destruct (String.eqb m fom.VIDEO)|]; reflexivity.
Qed.

Lemma keeps_colls__aggregate_keep_discard self p into on :
  forallb read_only p = true ->
  keeps_colls
    (_aggregate self (p ++ [Merge into on (inl "keepExisting") "discard"])).
Proof.
  intros Hp. unfold _aggregate.
  set (pl := (p ++ [Merge into on (inl "keepExisting") "discard"])%list).
  apply (keeps_colls_bind_val _ _ (fun a => a = pl)).
  - intros w a w' H. apply lift_Ok in H. destruct H as [H _].
    destruct (_pipeline_plain self pl) as [E|[e E]]; congruence.
  - apply keeps_colls_lift.
  - intros a ->. now apply aggregate_keep_discard.
Qed.

(** X18.  [_merge_samples_pipeline] with [skip_existing=True] and
    [insert_new=False] into a dataset that is not a video dataset changes no
    document of any collection and no dataset document, whether it returns
    or raises: all it can leave behind is the index on the key field. *)
Theorem merge_keeping_and_discarding_changes_no_document :
  forall (get_db_fields_map : Dataset -> bool -> list (string * string))
         (get_default_sample_fields : Dataset -> list string)
         (split_dict : list (string * string)
                       -> list (string * string) * list (string * string))
         (split_list : list string -> list string * list string)
         (src_collection dst_dataset : Dataset) (key_field : string)
         (fields : option fields_arg) (omit_fields : option (list string))
         (merge_lists overwrite : bool)
         (w : world) (r : outcome unit) (w' : world),
    is_video dst_dataset = false ->
    _merge_samples_pipeline get_db_fields_map get_default_sample_fields
      split_dict split_list src_collection dst_dataset key_field
      true false fields omit_fields merge_lists overwrite w = (r, w') ->
    colls (db w') = colls (db w) /\ dataset_docs w' = dataset_docs w.
Proof.
  intros V1 V2 V3 V4 src dst key_field fields omit_fields ml ov w r w' Hv.
  revert w r w'. change (keeps_colls
    (_merge_samples_pipeline V1 V2 V3 V4 src dst key_field true false
       fields omit_fields ml ov)).
  unfold _merge_samples_pipeline.
  apply keeps_colls_bind; [apply keeps_colls_lift|]. intros db_fields_map.
  apply (keeps_colls_bind_val _ _ (fun a => a = false)).
  { intros w a w' H. apply lift_Ok in H. destruct H as [H _].
    apply via_getattribute_Ok in H. destruct H as [_ ->]. exact Hv. }
  { apply keeps_colls_lift. }
  intros video ->.
  apply keeps_colls_bind.
  { destruct (negb _); [|apply keeps_colls_ret].
    apply keeps_colls_bind; [apply keeps_colls__ensure_index|]. intros [ns ds].
    apply keeps_colls_bind; [apply keeps_colls__ensure_index|]. intros [nd dd].
    apply keeps_colls_ret. }
  intros [[[new_src dropped_src] new_dst] dropped_dst].
  match goal with
  | |- keeps_colls (match ?e with (_, _) => _ end) =>
      destruct e as [fields0 ff]
  end.
  match goal with
  | |- keeps_colls (match ?e with (_, _) => _ end) =>
      destruct e as [[[fields1 omit0] ff1] off1]
  end.
  apply keeps_colls_bind; [apply keeps_colls_ret|]. intros [i1 i2].
  apply (keeps_colls_bind_val _ _ (fun a => a = [])).
  { intros w a w' H. apply lift_Ok in H. destruct H as [H _].
    destruct (_pipeline_detached src) as [E|[e E]]; congruence. }
  { apply keeps_colls_lift. }
  intros sample_pipeline ->.
  apply (keeps_colls_bind_val _ _ (fun a => a = inl "keepExisting")).
  { intros w a w' H. now inversion H. }
  { apply keeps_colls_ret. }
  intros when_matched ->.
  apply keeps_colls_bind.
  { apply keeps_colls__aggregate_keep_discard.
    destruct (set_discard _ _); destruct fields1; reflexivity. }
  intros _.
  repeat (apply keeps_colls_bind;
          [match goal with
           | |- keeps_colls (if ?b then _ else _) => destruct b
           end;
           first [apply keeps_colls_Dataset_drop_index
                 |apply keeps_colls_Dataset_create_index
                 |apply keeps_colls_ret]
          |intros _]).
  apply keeps_colls_ret.
Qed.

Lemma merge_keeping_and_discarding_changes_no_document_example :
  exists w',
    _merge_samples_pipeline Merging._get_db_fields_map
      Merging._get_default_sample_fields Merging.split_frame_fields_dict
      Merging.split_frame_fields_list Photos.dataset Photos.dataset
      "filepath" true false None None true true Photos.world0
    = (Ok tt, w')
    /\ colls (db w') = colls (db Photos.world0).
Proof.
  assert (H : exists w',
             _merge_samples_pipeline Merging._get_db_fields_map
               Merging._get_default_sample_fields
               Merging.split_frame_fields_dict
               Merging.split_frame_fields_list Photos.dataset Photos.dataset
               "filepath" true false None None true true Photos.world0
             = (Ok tt, w')).
  { eexists. vm_compute. reflexivity. }
  destruct H as [w' H]. exists w'. split; [exact H|].
  refine (proj1 (merge_keeping_and_discarding_changes_no_document
                   _ _ _ _ _ _ _ _ _ _ _ _ _ _ _ H)).
  reflexivity.
Defined.

Lemma keeps_colls_counts {A : Type} (m : M A) :
  keeps_colls m -> keeps_counts m.
Proof.
  intros H w r w' E c. destruct (H _ _ _ E) as [Hc _].
  unfold coll. now rewrite Hc.
Qed.

Lemma keeps_counts_bind_val {A B : Type} (m : M A) (k : A -> M B)
    (P : A -> Prop) :
  (forall w a w', m w = (Ok a, w') -> P a) ->
  keeps_counts m ->
  (forall a, P a -> keeps_counts (k a)) ->
  keeps_counts (bind m k).
Proof.
  intros HP Hm Hk w r w'. unfold bind.
  destruct (m w) as [[a|e] w1] eqn:E.
  - intros H c. rewrite (Hk a (HP _ _ _ E) _ _ _ H c). exact (Hm _ _ _ E c).
  - intros H. inversion H; subst. exact (Hm _ _ _ E).
Qed.

Lemma keeps_counts_bind {A B : Type} (m : M A) (k : A -> M B) :
  keeps_counts m -> (forall a, keeps_counts (k a)) -> keeps_counts (bind m k).
Proof.
  intros Hm Hk. apply (keeps_counts_bind_val m k (fun _ => True)); auto.
Qed.

Lemma update_first_length p (f : doc -> option doc) :
  forall l l', update_first p f l = Some (Some l') ->
               List.length l' = List.length l.
Proof.
  induction l as [|t l IH]; intros l' H; [discriminate|].
  cbn [update_first] in H. destruct (p t).
  - destruct (f t) as [t'|]; [|discriminate]. cbn in H. now inversion H.
  - destruct (update_first p f l) as [[l0|]|]; try discriminate.
    cbn in H. inversion H. cbn. now rewrite (IH l0 eq_refl).
Qed.

Lemma gen_id_coll d x c : coll (fst (gen_id d x)) c = coll d c.
Proof. unfold coll. now rewrite gen_id_colls. Qed.

Lemma merge_one_discard wm into on d incoming d' :
  merge_one wm "discard" into on d incoming = Some d' ->
  forall c, List.length (coll d' c) = List.length (coll d c).
Proof.
  unfold merge_one.
  assert (G : forall c,
             coll (fst (if mem "_id" on then gen_id d incoming
                        else (d, incoming))) c = coll d c).
  { intros c. destruct (mem "_id" on); [apply gen_id_coll|reflexivity]. }
  destruct (if mem "_id" on then gen_id d incoming else (d, incoming))
    as [db1 x]. cbn [fst] in G.
  destruct (negb _); [discriminate|].
  destruct (update_first _ _ (coll db1 into)) as [[l'|]|] eqn:U;
    [| |discriminate].
  - apply update_first_length in U.
    unfold write_coll. destruct (unique_ok _ _); [|discriminate].
    intros H c. inversion H. destruct db1 as [cs ixs n].
    cbn [colls indexes next_oid]. rewrite coll_set.
    destruct (String.eqb_spec c into) as [->|Hne].
    + now rewrite U, G.
    + apply f_equal. apply G.
  - cbn [String.eqb Ascii.eqb Bool.eqb]. intros H c. inversion H. subst.
    now rewrite G.
Qed.

Lemma merge_all_discard wm into on :
  forall ds d c,
    List.length (coll (snd (merge_all wm "discard" into on d ds)) c)
    = List.length (coll d c).
Proof.
  induction ds as [|x ds IH]; intros d c; [reflexivity|].
  cbn [merge_all].
  destruct (merge_one _ _ _ _ d x) as [d'|] eqn:E; [|reflexivity].
  rewrite IH. now apply (merge_one_discard _ _ _ _ _ _ E).
Qed.

Lemma aggregate_discard c p into on wm :
  forallb read_only p = true ->
  keeps_counts (aggregate_all c (p ++ [Merge into on wm "discard"])).
Proof.
  intros Hp. unfold aggregate_all.
  apply keeps_counts_bind;
    [apply keeps_colls_counts, keeps_colls_log|].
  intros _ w r w'.
  unfold aggregate. rewrite run_pipeline_app.
  pose proof (run_pipeline_read_only p Hp (db w) (coll (db w) c)) as E.
  destruct (run_pipeline (db w) p (coll (db w) c)) as [[ds'|] d'];
    cbn [snd] in E; subst d'.
  - cbn [run_pipeline run_stage].
    destruct (negb (has_unique_index (db w) into on)).
    + intros H c'. inversion H. reflexivity.
    + destruct wm as [a|sub].
      * destruct (String.eqb a "keepExisting").
        -- pose proof (merge_all_discard (fun _ t => Some t) into on ds'
                         (db w)) as M.
           destruct (merge_all _ _ _ _ _ _) as [[] d2]; cbn [snd] in M;
             cbn [ended fst snd run_pipeline]; intros H c'; inversion H;
             cbn; apply M.
        -- intros H c'. inversion H. reflexivity.
      * match goal with
        | |- context [merge_all ?wm0 _ _ _ _ _] =>
            pose proof (merge_all_discard wm0 into on ds' (db w)) as M
        end.
        destruct (merge_all _ _ _ _ _ _) as [[] d2]; cbn [snd] in M;
          cbn [ended fst snd run_pipeline]; intros H c'; inversion H;
          cbn; apply M.
  - intros H c'. inversion H. reflexivity.
Qed.

Lemma keeps_counts__aggregate_discard self p into on wm :
  forallb read_only p = true ->
  keeps_counts (_aggregate self (p ++ [Merge into on wm "discard"])).
Proof.
  intros Hp. unfold _aggregate.
  set (pl := (p ++ [Merge into on wm "discard"])%list).
  apply (keeps_counts_bind_val _ _ (fun a => a = pl)).
  - intros w a w' H. apply lift_Ok in H. destruct H as [H _].
    destruct (_pipeline_plain self pl) as [E|[e E]]; congruence.
  - apply keeps_colls_counts, keeps_colls_lift.
  - intros a ->. now apply aggregate_discard.
Qed.

(** X19.  [_merge_samples_pipeline] with [insert_new=False] into a dataset
    that is not a video dataset adds no document to, and removes none from,
    any collection, whatever [skip_existing] is and whether it returns or
    raises. *)
Theorem merge_without_insert_keeps_the_samples_count :
  forall (get_db_fields_map : Dataset -> bool -> list (string * string))
         (get_default_sample_fields : Dataset -> list string)
         (split_dict : list (string * string)
                       -> list (string * string) * list (string * string))
         (split_list : list string -> list string * list string)
         (src_collection dst_dataset : Dataset) (key_field : string)
         (skip_existing : bool)
         (fields : option fields_arg) (omit_fields : option (list string))
         (merge_lists overwrite : bool)
         (w : world) (r : outcome unit) (w' : world),
    is_video dst_dataset = false ->
    _merge_samples_pipeline get_db_fields_map get_default_sample_fields
      split_dict split_list src_collection dst_dataset key_field
      skip_existing false fields omit_fields merge_lists overwrite w
    = (r, w') ->
    forall c, List.length (coll (db w') c) = List.length (coll (db w) c).
Proof.
  intros V1 V2 V3 V4 src dst key_field skip fields omit_fields ml ov
    w r w' Hv.
  revert w r w'. change (keeps_counts
    (_merge_samples_pipeline V1 V2 V3 V4 src dst key_field skip false
       fields omit_fields ml ov)).
  unfold _merge_samples_pipeline.
  apply keeps_counts_bind; [apply keeps_colls_counts, keeps_colls_lift|].
  intros db_fields_map.
  apply (keeps_counts_bind_val _ _ (fun a => a = false)).
  { intros w a w' H. apply lift_Ok in H. destruct H as [H _].
    apply via_getattribute_Ok in H. destruct H as [_ ->]. exact Hv. }
  { apply keeps_colls_counts, keeps_colls_lift. }
  intros video ->.
  apply keeps_counts_bind.
  { apply keeps_colls_counts.
    destruct (negb _); [|apply keeps_colls_ret].
    apply keeps_colls_bind; [apply keeps_colls__ensure_index|]. intros [ns ds].
    apply keeps_colls_bind; [apply keeps_colls__ensure_index|]. intros [nd dd].
    apply keeps_colls_ret. }
  intros [[[new_src dropped_src] new_dst] dropped_dst].
  match goal with
  | |- keeps_counts (match ?e with (_, _) => _ end) =>
      destruct e as [fields0 ff]
  end.
  match goal with
  | |- keeps_counts (match ?e with (_, _) => _ end) =>
      destruct e as [[[fields1 omit0] ff1] off1]
  end.
  apply keeps_counts_bind; [apply keeps_colls_counts, keeps_colls_ret|].
  intros [i1 i2].
  apply (keeps_counts_bind_val _ _ (fun a => a = [])).
  { intros w a w' H. apply lift_Ok in H. destruct H as [H _].
    destruct (_pipeline_detached src) as [E|[e E]]; congruence. }
  { apply keeps_colls_counts, keeps_colls_lift. }
  intros sample_pipeline ->.
  apply keeps_counts_bind.
  { apply keeps_colls_counts. destruct skip; [apply keeps_colls_ret|].
    apply keeps_colls_bind; [apply keeps_colls_lift|]. intros p.
    apply keeps_colls_ret. }
  intros when_matched.
  apply keeps_counts_bind.
  { apply keeps_counts__aggregate_discard.
    destruct (set_discard _ _); destruct fields1; reflexivity. }
  intros _. apply keeps_colls_counts.
  repeat (apply keeps_colls_bind;
          [match goal with
           | |- keeps_colls (if ?b then _ else _) => destruct b
           end;
           first [apply keeps_colls_Dataset_drop_index
                 |apply keeps_colls_Dataset_create_index
                 |apply keeps_colls_ret]
          |intros _]).
  apply keeps_colls_ret.
Qed.

Lemma merge_without_insert_keeps_the_samples_count_example :
  exists w',
    _merge_samples_pipeline Merging._get_db_fields_map
      Merging._get_default_sample_fields Merging.split_frame_fields_dict
      Merging.split_frame_fields_list Photos.dataset Photos.dataset
      "filepath" false false None None true true Photos.world0
    = (Ok tt, w')
    /\ List.length
         (coll (db w') (_sample_collection_name Photos.dataset))
       = 2.
Proof.
  assert (H : exists w',
             _merge_samples_pipeline Merging._get_db_fields_map
               Merging._get_default_sample_fields
               Merging.split_frame_fields_dict
               Merging.split_frame_fields_list Photos.dataset Photos.dataset
               "filepath" false false None None true true Photos.world0
             = (Ok tt, w')).
  { eexists. vm_compute. reflexivity. }
  destruct H as [w' H]. exists w'. split; [exact H|].
  rewrite (fun V => merge_without_insert_keeps_the_samples_count
                       _ _ _ _ _ _ _ _ _ _ _ _ _ _ _ V H)
    by reflexivity.
  reflexivity.
Defined.

(** ** Run-length encoding of masks *)

Lemma groupby_alternating l :
  alternating (hd false l) (coco.groupby l).
Proof.
  induction l as [|x l IH]; [exact I|].
  cbn [coco.groupby hd].
  destruct (coco.groupby l) as [|[y g] rest] eqn:E.
  - cbn. repeat split; lia.
  - cbn [alternating] in IH. destruct IH as (Hy & Hg & Hlen & Hrest).
    rewrite <- Hy in Hg, Hrest. clear Hy.
    destruct (Bool.eqb x y) eqn:Exy.
    + apply Bool.eqb_prop in Exy. subst y. cbn [alternating].
      split; [reflexivity|]. split; [|split; [cbn; lia|exact Hrest]].
      cbn [List.length repeat]. now f_equal.
    + assert (Ey : y = negb x) by (destruct x, y; auto; discriminate).
      subst y. cbn [alternating]. split; [reflexivity|].
      split; [reflexivity|]. split; [cbn; lia|].
      split; [reflexivity|]. split; [exact Hg|]. split; [exact Hlen|].
      exact Hrest.
Qed.

Lemma groupby_concat l : List.concat (map snd (coco.groupby l)) = l.
Proof.
  induction l as [|x l IH]; [reflexivity|].
  cbn [coco.groupby].
  destruct (coco.groupby l) as [|[y g] rest] eqn:E.
  - cbn in *. now rewrite <- IH.
  - destruct (Bool.eqb x y); cbn in *; now rewrite IH.
Qed.

Lemma counts_after_first (groups : list (bool * list bool)) :
  forall k,
    flat_map
      (fun ige : nat * (bool * list bool) =>
         let '(i, (value, elements)) := ige in
         ((if (i =? 0)%nat && value then [0%nat] else [])
            ++ [List.length elements])%list)
      (combine (seq (S k) (List.length groups)) groups)
    = map (fun g => List.length (snd g)) groups.
Proof.
  induction groups as [|[v g] rest IH]; intros k; [reflexivity|].
  cbn [List.length seq combine flat_map map snd]. rewrite IH.
  reflexivity.
Qed.

Lemma runs_alternating groups :
  forall v,
    alternating v groups ->
    coco.runs v (map (fun g => List.length (snd g)) groups)
    = List.concat (map snd groups)
    /\ Forall (fun c => 0 < c) (map (fun g => List.length (snd g)) groups).
Proof.
  induction groups as [|[v' g] rest IH]; intros v H.
  - split; [reflexivity|constructor].
  - cbn [alternating] in H. destruct H as (-> & Hg & Hlen & Hrest).
    destruct (IH _ Hrest) as [IH1 IH2].
    cbn [map snd coco.runs List.concat]. rewrite IH1, <- Hg.
    split; [reflexivity|]. now constructor.
Qed.

Lemma runs_length counts :
  forall b, List.length (coco.runs b counts) = list_sum counts.
Proof.
  induction counts as [|c counts IH]; intros b; [reflexivity|].
  cbn [coco.runs list_sum]. now rewrite length_app, repeat_length, IH.
Qed.

Lemma ravel_F_length mask :
  List.length (coco.ravel_F mask) = coco.width mask * coco.height mask.
Proof.
  unfold coco.ravel_F. generalize 0 at 2. generalize (coco.width mask).
  induction n as [|n IH]; intros k; [reflexivity|].
  cbn [seq flat_map]. rewrite length_app, length_map, length_seq, IH.
  reflexivity.
Qed.

(** X20.  The counts [_mask_to_rle] computes decode to the mask: read as
    runs of zeros and ones, alternately and starting with zeros, they give
    back the pixels in column-major order.  They add up to the number of
    pixels, only the first of them can be 0, and the size is the shape of
    the mask. *)
Theorem mask_to_rle_decodes_to_the_mask :
  forall (mask : coco.Mask),
    let counts := fst (coco._mask_to_rle mask) in
    coco.runs false counts = coco.ravel_F mask
    /\ list_sum counts = coco.width mask * coco.height mask
    /\ Forall (fun c => 0 < c) (tl counts)
    /\ snd (coco._mask_to_rle mask) = [coco.height mask; coco.width mask].
Proof.
  intros mask. cbv zeta. unfold coco._mask_to_rle. cbn [fst snd].
  pose proof (groupby_alternating (coco.ravel_F mask)) as Halt.
  pose proof (groupby_concat (coco.ravel_F mask)) as Hcat.
  assert (Hdec :
            coco.runs false
              (flat_map
                 (fun ige : nat * (bool * list bool) =>
                    let '(i, (value, elements)) := ige in
                    ((if (i =? 0)%nat && value then [0%nat] else [])
                       ++ [List.length elements])%list)
                 (combine
                    (seq 0 (List.length (coco.groupby (coco.ravel_F mask))))
                    (coco.groupby (coco.ravel_F mask))))
            = coco.ravel_F mask
            /\ Forall (fun c => 0 < c)
                 (tl (flat_map
                        (fun ige : nat * (bool * list bool) =>
                           let '(i, (value, elements)) := ige in
                           ((if (i =? 0)%nat && value then [0%nat] else [])
                              ++ [List.length elements])%list)
                        (combine
                           (seq 0 (List.length
                                     (coco.groupby (coco.ravel_F mask))))
                           (coco.groupby (coco.ravel_F mask)))))).
  { destruct (coco.groupby (coco.ravel_F mask)) as [|[v g] rest] eqn:E.
    - cbn in *. split; [now rewrite <- Hcat|constructor].
    - cbn [List.length seq combine flat_map].
      rewrite counts_after_first.
      destruct (runs_alternating _ _ Halt) as [Hr Hpos].
      cbn [map snd] in Hr, Hpos.
      cbn [alternating] in Halt. destruct Halt as (Hv & _).
      cbn [Nat.eqb andb].
      destruct v.
      + (* the mask starts with a one: a run of no zeros comes first *)
        cbn [app tl].
        assert (Hd : hd false (coco.ravel_F mask) = true) by congruence.
        rewrite Hd in Hr. split; [|exact Hpos].
        change (coco.runs false (0 :: ?l)) with (coco.runs true l).
        rewrite Hr. exact Hcat.
      + cbn [app tl].
        assert (Hd : hd false (coco.ravel_F mask) = false) by congruence.
        rewrite Hd in Hr. split; [rewrite Hr; exact Hcat|].
        now inversion Hpos. }
  destruct Hdec as [Hdec Hpos].
  split; [exact Hdec|]. split; [|split; [exact Hpos|reflexivity]].
  rewrite <- runs_length with (b := false). rewrite Hdec.
  apply ravel_F_length.
Qed.

(** ** COCO categories *)







